(** * HabitFlow: the habit store, the filter, the statistics and the
      persistence of [script.js], embedded in Rocq.

    The repository holds the tracker twice: [src/script.js] (the same
    logic, with comments, is [src/unnamed/part_001]) and a shorter variant,
    [src/unnamed/part_000], whose [addHabit] has no upper bound on the name
    and whose habits carry no [completedAt].  Both are embedded, in the
    modules [Script] and [Part000].

    Conventions of the embedding:
    - a JS string is the list of its UTF-16 code units ([jsstring]);
    - an integral JS Number ([id], [streak], a length) is a [Z]; doubles
      are exact on integers below 2^53, far above what a habit holds.  The
      one computation that leaves the integers, the percentage of
      [updateProgressBar], is done in IEEE-754 binary64 ([SpecFloat]);
    - what a handler reads from its environment is an argument: the text
      of the input field, the selected category, the readings of
      [Date.now()] and [new Date().toISOString()], the answer to
      [confirm], whether [localStorage.setItem] succeeds;
    - the module-level array [habits] is threaded through explicitly.

    On top of the two stores come the two pages ([Page] for [script.js],
    [Part000Page] for [part_000]): a record of the variables, the store and
    what the handlers read and write of the document, and one step per
    event (a click, a key, an input, a timeout). *)

From Stdlib Require Import ZArith NArith Lia Bool.
From Stdlib Require Import SpecFloat.
From Stdlib Require DecimalFacts DecimalN.
From stdpp Require Import base list strings gmap.

Local Open Scope Z_scope.
Local Set Warnings "-register-all".

(** ** JS strings *)

Abbreviation jsstring := (list N).

(** A literal: the code units of an ASCII Rocq string. *)
Definition js (s : string) : jsstring :=
  (λ b, N.of_nat (Byte.to_nat b)) <$> String.list_byte_of_string s.

(** [WhiteSpace] and [LineTerminator] of ECMAScript, what
    [String.prototype.trim] strips. *)
Definition is_white_space (c : N) : bool :=
  bool_decide (c ∈ [9; 10; 11; 12; 13; 32; 160; 5760; 8232; 8233; 8239;
                    8287; 12288; 65279]%N)
  || ((8192 <=? c)%N && (c <=? 8202)%N).

Fixpoint trimStart (s : jsstring) : jsstring :=
  match s with
  | c :: s' => if is_white_space c then trimStart s' else s
  | [] => []
  end.

Definition trimEnd (s : jsstring) : jsstring := reverse (trimStart (reverse s)).

Definition trim (s : jsstring) : jsstring := trimEnd (trimStart s).

(** ** Habits *)

(** A habit object.  [completedAt = None] stands for [null] and for an
    absent property alike. *)
Record habit := Habit {
  id : Z;
  name : jsstring;
  category : jsstring;
  completed : bool;
  createdAt : jsstring;
  completedAt : option jsstring;
  streak : Z
}.

Global Instance habit_eq_dec : EqDecision habit.
Proof. solve_decision. Defined.

(** What [handleAddHabit] tells the user: one of the three [showError]
    texts, or the toast of a successful add. *)
Inductive add_outcome := EmptyName | TooShort | TooLong | Added.

Definition add_message (o : add_outcome) : string :=
  match o with
  | EmptyName => "Please enter a habit name!"
  | TooShort => "Habit name must be at least 3 characters!"
  | TooLong => "Habit name is too long (max 50 characters)!"
  | Added => "Habit added successfully! 🎉"
  end.

(** The first habit with the given id and its index: [habits.find] and
    [habits.findIndex] with [h => h.id === habitId]. *)
Definition find_habit (habitId : Z) (habits : list habit) : option (nat * habit) :=
  list_find (λ h, id h = habitId) habits.

(** [Math.max(...xs)] of a non-empty argument list [x :: xs]. *)
Definition Math_max (x : Z) (xs : list Z) : Z := foldl Z.max x xs.

(** ** IEEE-754 binary64, for the percentage *)

Definition prec64 : Z := 53.
Definition emax64 : Z := 1024.

(** The Number of an integer: the nearest double. *)
Definition Number_of_Z (z : Z) : spec_float := binary_normalize prec64 emax64 z 0 false.

Definition Number_div : spec_float → spec_float → spec_float := SFdiv prec64 emax64.
Definition Number_mul : spec_float → spec_float → spec_float := SFmul prec64 emax64.

(** [x] is a NaN, or has the sign [sx]. *)
Definition sign_is (sx : bool) (x : spec_float) : Prop :=
  match x with
  | S754_zero s | S754_infinity s | S754_finite s _ _ => s = sx
  | S754_nan => True
  end.

(** An integral result, or what is left of a NaN or an infinity. *)
Inductive rounded := Integral (z : Z) | NotANumber | Infinite (negative : bool).

(** [floor (m * 2^e + 1/2)], exactly. *)
Definition floor_plus_half (m e : Z) : Z :=
  if 0 <=? e then m * 2 ^ e else (2 * m + 2 ^ (- e)) `div` 2 ^ (1 - e).

(** [Math.round]: the closest integer, a tie going towards +∞. *)
Definition Math_round (x : spec_float) : rounded :=
  match x with
  | S754_nan => NotANumber
  | S754_infinity s => Infinite s
  | S754_zero _ => Integral 0
  | S754_finite s m e => Integral (floor_plus_half (cond_Zopp s (Z.pos m)) e)
  end.

(** The rule the specification names: the closest integer, a tie going
    away from zero. *)
Definition round_half_away_from_zero (x : spec_float) : rounded :=
  match x with
  | S754_nan => NotANumber
  | S754_infinity s => Infinite s
  | S754_zero _ => Integral 0
  | S754_finite s m e => Integral (cond_Zopp s (floor_plus_half (Z.pos m) e))
  end.

(** The specification's percentage read over the rationals: the fraction
    [100 * completed / total] rounded half away from zero (both arguments
    are counts, so the fraction is not negative). *)
Definition exact_percentage (total completed : Z) : Z :=
  if 0 <? total then (200 * completed + total) `div` (2 * total) else 0.

Record stats := Stats {
  total : nat;
  completedCount : nat;
  maxStreak : Z;
  percentage : rounded
}.

(** [updateProgressBar(total, completed)]: the percentage it displays. *)
Definition updateProgressBar (total completed : nat) : rounded :=
  if (0 <? total)%nat then
    Math_round (Number_mul (Number_div (Number_of_Z (Z.of_nat completed))
                                       (Number_of_Z (Z.of_nat total)))
                           (Number_of_Z 100))
  else Integral 0.

(** [updateStats()]: the four numbers it displays.  [Math.max] is only
    called on a non-empty array ([habits.length > 0]), the [x :: xs] below. *)
Definition updateStats (habits : list habit) : stats :=
  let total := length habits in
  let completed := length (filter (λ h, completed h) habits) in
  let maxStreak :=
    match streak <$> habits with
    | x :: xs => Math_max x xs
    | [] => 0
    end in
  Stats total completed maxStreak (updateProgressBar total completed).

(** [getFilteredHabits()], with [currentFilter] as an argument. *)
Definition getFilteredHabits (currentFilter : jsstring) (habits : list habit)
  : list habit :=
  if decide (currentFilter = js "active") then filter (λ h, ¬ completed h) habits
  else if decide (currentFilter = js "completed") then filter (λ h, completed h) habits
  else habits.

(** ** JSON: the values, [JSON.stringify] and [JSON.parse]

    The two built-ins are modelled after ECMA-262 (sections 25.5.1 and
    25.5.2) on the values JSON can express.  A number is kept exactly, as
    [m / 10^k]: [JNum m 0] is the integer [m], and for [k > 0] the mantissa
    [m] is not a multiple of 10; a habit only holds integers, on which this
    and the doubles of JS agree below 2^53.  An object is the list of its
    members in insertion order (a habit has no integer-like keys, the only
    ones JS would move to the front). *)

Inductive json :=
| JNull
| JBool (b : bool)
| JNum (m : Z) (k : N)
| JStr (s : jsstring)
| JArr (elements : list json)
| JObj (members : list (jsstring * json)).

(** *** Decimal digits *)

Global Instance uint_eq_dec : EqDecision Decimal.uint := Decimal.uint_eq_dec.

Definition digit_unit (d : N) : N := (48 + d)%N.

Fixpoint units_of_uint (u : Decimal.uint) : jsstring :=
  match u with
  | Decimal.Nil => []
  | Decimal.D0 u => digit_unit 0 :: units_of_uint u
  | Decimal.D1 u => digit_unit 1 :: units_of_uint u
  | Decimal.D2 u => digit_unit 2 :: units_of_uint u
  | Decimal.D3 u => digit_unit 3 :: units_of_uint u
  | Decimal.D4 u => digit_unit 4 :: units_of_uint u
  | Decimal.D5 u => digit_unit 5 :: units_of_uint u
  | Decimal.D6 u => digit_unit 6 :: units_of_uint u
  | Decimal.D7 u => digit_unit 7 :: units_of_uint u
  | Decimal.D8 u => digit_unit 8 :: units_of_uint u
  | Decimal.D9 u => digit_unit 9 :: units_of_uint u
  end.

(** The decimal constructor of a code unit, when it is a digit. *)
Definition digit_of_unit (c : N) : option (Decimal.uint → Decimal.uint) :=
  match (c - 48)%N with
  | 0%N => if (48 <=? c)%N then Some Decimal.D0 else None
  | 1%N => Some Decimal.D1
  | 2%N => Some Decimal.D2
  | 3%N => Some Decimal.D3
  | 4%N => Some Decimal.D4
  | 5%N => Some Decimal.D5
  | 6%N => Some Decimal.D6
  | 7%N => Some Decimal.D7
  | 8%N => Some Decimal.D8
  | 9%N => Some Decimal.D9
  | _ => None
  end.

(** The longest run of digits at the head of [s], and what follows it. *)
Fixpoint read_digits (s : jsstring) : Decimal.uint * jsstring :=
  match s with
  | c :: s' =>
      match digit_of_unit c with
      | Some d => let '(u, rest) := read_digits s' in (d u, rest)
      | None => (Decimal.Nil, s)
      end
  | [] => (Decimal.Nil, [])
  end.

(** *** [JSON.stringify] *)

Definition hex_digit (n : N) : N := if (n <? 10)%N then (48 + n)%N else (87 + n)%N.

(** [UnicodeEscape]: a backslash, [u] and four lowercase hexadecimal digits. *)
Definition UnicodeEscape (c : N) : jsstring :=
  [92; 117; hex_digit ((c / 4096) `mod` 16); hex_digit ((c / 256) `mod` 16);
   hex_digit ((c / 16) `mod` 16); hex_digit (c `mod` 16)]%N.

Definition is_leading_surrogate (c : N) : bool := (55296 <=? c)%N && (c <=? 56319)%N.
Definition is_trailing_surrogate (c : N) : bool := (56320 <=? c)%N && (c <=? 57343)%N.

(** One code unit that is not a surrogate, quoted. *)
Definition quote_unit (c : N) : jsstring :=
  if (c =? 8)%N then [92; 98]%N
  else if (c =? 9)%N then [92; 116]%N
  else if (c =? 10)%N then [92; 110]%N
  else if (c =? 12)%N then [92; 102]%N
  else if (c =? 13)%N then [92; 114]%N
  else if (c =? 34)%N then [92; 34]%N
  else if (c =? 92)%N then [92; 92]%N
  else if (c <? 32)%N then UnicodeEscape c
  else [c].

(** The body of [QuoteJSONString]: a surrogate pair is copied, a lone
    surrogate escaped. *)
Fixpoint quote_units (s : jsstring) : jsstring :=
  match s with
  | [] => []
  | c :: s' =>
      if is_leading_surrogate c then
        match s' with
        | d :: s'' =>
            if is_trailing_surrogate d then c :: d :: quote_units s''
            else UnicodeEscape c ++ quote_units s'
        | [] => UnicodeEscape c
        end
      else if is_trailing_surrogate c then UnicodeEscape c ++ quote_units s'
      else quote_unit c ++ quote_units s'
  end.

Definition QuoteJSONString (s : jsstring) : jsstring := 34%N :: quote_units s ++ [34%N].

(** An integer in decimal. *)
Definition stringify_integer (m : Z) : jsstring :=
  if m <? 0 then 45%N :: units_of_uint (N.to_uint (Z.abs_N m))
  else units_of_uint (N.to_uint (Z.to_N m)).

(** [m / 10^k] in decimal: the digits of [m], padded with zeros to more
    than [k] digits, with the point before the last [k]. *)
Definition stringify_number (m : Z) (k : N) : jsstring :=
  if (k =? 0)%N then stringify_integer m
  else
    let digits := units_of_uint (N.to_uint (Z.abs_N m)) in
    let padded := replicate (S (N.to_nat k) - length digits) 48%N ++ digits in
    let n := (length padded - N.to_nat k)%nat in
    (if m <? 0 then [45%N] else []) ++ take n padded ++ 46%N :: drop n padded.

Definition units_null : jsstring := Eval vm_compute in js "null".
Definition units_true : jsstring := Eval vm_compute in js "true".
Definition units_false : jsstring := Eval vm_compute in js "false".

(** The parts of an array or an object, separated by commas. *)
Fixpoint join_comma (parts : list jsstring) : jsstring :=
  match parts with
  | [] => []
  | part :: parts' =>
      match parts' with
      | [] => part
      | _ :: _ => part ++ 44%N :: join_comma parts'
      end
  end.

(** [JSON.stringify(value)], without indentation. *)
Fixpoint JSON_stringify (v : json) : jsstring :=
  match v with
  | JNull => units_null
  | JBool b => if b then units_true else units_false
  | JNum m k => stringify_number m k
  | JStr s => QuoteJSONString s
  | JArr elements => 91%N :: join_comma (JSON_stringify <$> elements) ++ [93%N]
  | JObj members =>
      123%N ::
      join_comma ((λ member, let '(key, v) := member in
                             QuoteJSONString key ++ 58%N :: JSON_stringify v)
                  <$> members) ++ [125%N]
  end.

(** *** [JSON.parse] *)

(** What a JS call completes with: a value, or a thrown error. *)
Inductive error := SyntaxError | QuotaExceededError.

Inductive completion (A : Type) :=
| Normal (a : A)
| Throw (e : error).
Global Arguments Normal {A} a.
Global Arguments Throw {A} e.

(** [try { body } catch (error) { handler }]. *)
Definition try_catch {A} (body : completion A) (handler : error → completion A)
  : completion A :=
  match body with
  | Normal a => Normal a
  | Throw e => handler e
  end.

(** JSON white space: tab, line feed, carriage return, space. *)
Definition is_json_ws (c : N) : bool :=
  (c =? 9)%N || (c =? 10)%N || (c =? 13)%N || (c =? 32)%N.

Fixpoint skip_ws (s : jsstring) : jsstring :=
  match s with
  | c :: s' => if is_json_ws c then skip_ws s' else s
  | [] => []
  end.

Definition hex_value (c : N) : option N :=
  if (48 <=? c)%N && (c <=? 57)%N then Some (c - 48)%N
  else if (97 <=? c)%N && (c <=? 102)%N then Some (c - 87)%N
  else if (65 <=? c)%N && (c <=? 70)%N then Some (c - 55)%N
  else None.

(** The code unit a one-letter escape stands for. *)
Definition unescape (e : N) : option N :=
  if (e =? 34)%N then Some 34%N
  else if (e =? 92)%N then Some 92%N
  else if (e =? 47)%N then Some 47%N
  else if (e =? 98)%N then Some 8%N
  else if (e =? 102)%N then Some 12%N
  else if (e =? 110)%N then Some 10%N
  else if (e =? 114)%N then Some 13%N
  else if (e =? 116)%N then Some 9%N
  else None.

(** The characters of a JSON string after its opening quote, up to and
    with the closing quote. *)
Fixpoint parse_string_units (s : jsstring) : option (jsstring * jsstring) :=
  match s with
  | [] => None
  | c :: s' =>
      if (c =? 34)%N then Some ([], s')
      else if (c =? 92)%N then
        match s' with
        | e :: s'' =>
            if (e =? 117)%N then
              match s'' with
              | h1 :: h2 :: h3 :: h4 :: s''' =>
                  match hex_value h1, hex_value h2, hex_value h3, hex_value h4 with
                  | Some a, Some b, Some c, Some d =>
                      match parse_string_units s''' with
                      | Some (str, rest) =>
                          Some ((((a * 16 + b) * 16 + c) * 16 + d)%N :: str, rest)
                      | None => None
                      end
                  | _, _, _, _ => None
                  end
              | _ => None
              end
            else
              match unescape e, parse_string_units s'' with
              | Some u, Some (str, rest) => Some (u :: str, rest)
              | _, _ => None
              end
        | [] => None
        end
      else if (c <? 32)%N then None
      else
        match parse_string_units s' with
        | Some (str, rest) => Some (c :: str, rest)
        | None => None
        end
  end.

(** [m / 10^k] in lowest terms: trailing zeros of the mantissa are
    traded against [k]. *)
Fixpoint strip_zeros (fuel : nat) (m : Z) (k : N) : Z * N :=
  match fuel with
  | O => (m, k)
  | S fuel =>
      if (k =? 0)%N then (m, k)
      else if m `mod` 10 =? 0 then strip_zeros fuel (m `div` 10) (k - 1)%N
      else (m, k)
  end.

(** The value of [mantissa * 10^exponent]. *)
Definition number_of (mantissa exponent : Z) : json :=
  if 0 <=? exponent then JNum (mantissa * 10 ^ exponent) 0
  else
    let '(m, k) := strip_zeros (Z.to_nat (- exponent)) mantissa (Z.to_N (- exponent)) in
    JNum m k.

(** A digit run that must not be empty. *)
Definition read_digits1 (s : jsstring) : option (Decimal.uint * jsstring) :=
  match read_digits s with
  | (Decimal.Nil, _) => None
  | (u, rest) => Some (u, rest)
  end.

(** An optional fraction: a point and digits. *)
Definition parse_fraction (s : jsstring) : option (Decimal.uint * jsstring) :=
  match s with
  | c :: s' => if (c =? 46)%N then read_digits1 s' else Some (Decimal.Nil, s)
  | [] => Some (Decimal.Nil, s)
  end.

(** An optional exponent: [e] or [E], an optional sign and digits. *)
Definition parse_exponent (s : jsstring) : option (Z * jsstring) :=
  match s with
  | c :: s' =>
      if (c =? 101)%N || (c =? 69)%N then
        let '(negative, s'') :=
          match s' with
          | d :: s'' =>
              if (d =? 45)%N then (true, s'')
              else if (d =? 43)%N then (false, s'')
              else (false, s')
          | [] => (false, s')
          end in
        match read_digits1 s'' with
        | Some (e, rest) =>
            let e := Z.of_N (N.of_uint e) in
            Some (if negative then - e else e, rest)
        | None => None
        end
      else Some (0, s)
  | [] => Some (0, s)
  end.

(** A JSON number after its sign: an integer part without a leading
    zero, an optional fraction, an optional exponent. *)
Definition parse_unsigned (negative : bool) (s : jsstring) : option (json * jsstring) :=
  match read_digits1 s with
  | None => None
  | Some (int, s1) =>
      if negb (bool_decide (Decimal.unorm int = int)) then None
      else
        match parse_fraction s1 with
        | None => None
        | Some (frac, s2) =>
            match parse_exponent s2 with
            | None => None
            | Some (exponent, rest) =>
                let mantissa := Z.of_N (N.of_uint (Decimal.app int frac)) in
                let scale := exponent - Z.of_nat (Decimal.nb_digits frac) in
                Some (number_of (if negative then - mantissa else mantissa) scale, rest)
            end
        end
  end.

(** A JSON number: an optional minus, then the digits. *)
Definition parse_number (s : jsstring) : option (json * jsstring) :=
  match s with
  | c :: s' => if (c =? 45)%N then parse_unsigned true s' else parse_unsigned false s
  | [] => None
  end.

(** [s] begins with [prefix]: what follows it. *)
Fixpoint strip_prefix (prefix s : jsstring) : option jsstring :=
  match prefix, s with
  | [], _ => Some s
  | p :: prefix', c :: s' => if (p =? c)%N then strip_prefix prefix' s' else None
  | _ :: _, [] => None
  end.

(** Setting a property: a key already present keeps its place and takes
    the new value. *)
Fixpoint obj_set (key : jsstring) (v : json) (o : list (jsstring * json))
  : list (jsstring * json) :=
  match o with
  | [] => [(key, v)]
  | (key', v') :: o' =>
      if decide (key' = key) then (key, v) :: o' else (key', v') :: obj_set key v o'
  end.

Definition object_of_members (ms : list (jsstring * json)) : json :=
  JObj (foldl (λ o kv, obj_set kv.1 kv.2 o) [] ms).

(** A JSON value at the head of [s] (after white space), and the rest.
    [fuel] bounds the calls; the length of the text is enough. *)
Fixpoint parse_value (fuel : nat) (s : jsstring) : option (json * jsstring) :=
  match fuel with
  | O => None
  | S fuel =>
      match skip_ws s with
      | [] => None
      | c :: s' =>
          if (c =? 34)%N then
            match parse_string_units s' with
            | Some (str, rest) => Some (JStr str, rest)
            | None => None
            end
          else if (c =? 91)%N then
            match skip_ws s' with
            | d :: s'' =>
                if (d =? 93)%N then Some (JArr [], s'')
                else
                  match parse_elements fuel s' with
                  | Some (vs, rest) => Some (JArr vs, rest)
                  | None => None
                  end
            | [] => None
            end
          else if (c =? 123)%N then
            match skip_ws s' with
            | d :: s'' =>
                if (d =? 125)%N then Some (JObj [], s'')
                else
                  match parse_members fuel s' with
                  | Some (ms, rest) => Some (object_of_members ms, rest)
                  | None => None
                  end
            | [] => None
            end
          else if (c =? 110)%N then
            match strip_prefix units_null (c :: s') with
            | Some rest => Some (JNull, rest)
            | None => None
            end
          else if (c =? 116)%N then
            match strip_prefix units_true (c :: s') with
            | Some rest => Some (JBool true, rest)
            | None => None
            end
          else if (c =? 102)%N then
            match strip_prefix units_false (c :: s') with
            | Some rest => Some (JBool false, rest)
            | None => None
            end
          else parse_number (c :: s')
      end
  end
with parse_elements (fuel : nat) (s : jsstring) : option (list json * jsstring) :=
  match fuel with
  | O => None
  | S fuel =>
      match parse_value fuel s with
      | Some (v, s1) =>
          match skip_ws s1 with
          | d :: s2 =>
              if (d =? 44)%N then
                match parse_elements fuel s2 with
                | Some (vs, rest) => Some (v :: vs, rest)
                | None => None
                end
              else if (d =? 93)%N then Some ([v], s2)
              else None
          | [] => None
          end
      | None => None
      end
  end
with parse_members (fuel : nat) (s : jsstring)
  : option (list (jsstring * json) * jsstring) :=
  match fuel with
  | O => None
  | S fuel =>
      match skip_ws s with
      | q :: s1 =>
          if (q =? 34)%N then
            match parse_string_units s1 with
            | Some (key, s2) =>
                match skip_ws s2 with
                | colon :: s3 =>
                    if (colon =? 58)%N then
                      match parse_value fuel s3 with
                      | Some (v, s4) =>
                          match skip_ws s4 with
                          | d :: s5 =>
                              if (d =? 44)%N then
                                match parse_members fuel s5 with
                                | Some (ms, rest) => Some ((key, v) :: ms, rest)
                                | None => None
                                end
                              else if (d =? 125)%N then Some ([(key, v)], s5)
                              else None
                          | [] => None
                          end
                      | None => None
                      end
                    else None
                | [] => None
                end
            | None => None
            end
          else None
      | [] => None
      end
  end.

(** [JSON.parse(text)]: the value of the text, or a [SyntaxError]. *)
Definition JSON_parse (text : jsstring) : completion json :=
  match parse_value (S (length text)) text with
  | Some (v, rest) =>
      match skip_ws rest with
      | [] => Normal v
      | _ :: _ => Throw SyntaxError
      end
  | None => Throw SyntaxError
  end.

(** ** Habits as JS values, and the store *)

Definition key_id : jsstring := Eval vm_compute in js "id".
Definition key_name : jsstring := Eval vm_compute in js "name".
Definition key_category : jsstring := Eval vm_compute in js "category".
Definition key_completed : jsstring := Eval vm_compute in js "completed".
Definition key_createdAt : jsstring := Eval vm_compute in js "createdAt".
Definition key_completedAt : jsstring := Eval vm_compute in js "completedAt".
Definition key_streak : jsstring := Eval vm_compute in js "streak".

(** The object literal of [handleAddHabit], with its properties in the
    order they are written. *)
Definition value_of_habit (h : habit) : json :=
  JObj [(key_id, JNum (id h) 0);
        (key_name, JStr (name h));
        (key_category, JStr (category h));
        (key_completed, JBool (completed h));
        (key_createdAt, JStr (createdAt h));
        (key_completedAt, match completedAt h with Some t => JStr t | None => JNull end);
        (key_streak, JNum (streak h) 0)].

(** The array [habits] as a JS value. *)
Definition value_of_habits (habits : list habit) : json :=
  JArr (value_of_habit <$> habits).

(** [o[key]]. *)
Fixpoint get_property (key : jsstring) (o : list (jsstring * json)) : option json :=
  match o with
  | [] => None
  | (key', v) :: o' => if decide (key' = key) then Some v else get_property key o'
  end.

(** A JS value read as a habit: an object with the seven properties, each
    of its type. *)
Definition habit_of_value (v : json) : option habit :=
  match v with
  | JObj o =>
      match get_property key_id o, get_property key_name o,
            get_property key_category o, get_property key_completed o,
            get_property key_createdAt o, get_property key_completedAt o,
            get_property key_streak o with
      | Some (JNum i 0), Some (JStr n), Some (JStr c), Some (JBool b),
        Some (JStr t), Some JNull, Some (JNum s 0) =>
          Some (Habit i n c b t None s)
      | Some (JNum i 0), Some (JStr n), Some (JStr c), Some (JBool b),
        Some (JStr t), Some (JStr t'), Some (JNum s 0) =>
          Some (Habit i n c b t (Some t') s)
      | _, _, _, _, _, _, _ => None
      end
  | _ => None
  end.

(** A JS value read as a collection: an array of habits. *)
Definition habits_of_value (v : json) : option (list habit) :=
  match v with
  | JArr vs => mapM habit_of_value vs
  | _ => None
  end.

(** ** [localStorage] *)

(** Its items. *)
Abbreviation storage := (gmap jsstring jsstring).

(** The key under which the collection is stored. *)
Definition habitflow_habits : jsstring := Eval vm_compute in js "habitflow_habits".

(** [localStorage.setItem(key, value)]: [ok] tells whether the store
    takes the item; when it does not (a full quota), the call throws. *)
Definition setItem (ok : bool) (key value : jsstring) (localStorage : storage)
  : completion storage :=
  if ok then Normal (<[key := value]> localStorage) else Throw QuotaExceededError.

(** ** The habit store of [script.js] *)

Module Script.

(** [handleAddHabit()]: [value] is the text of the input field, [now]
    the reading of [Date.now()], [iso] that of
    [new Date().toISOString()]. *)
Definition handleAddHabit (value category : jsstring) (now : Z) (iso : jsstring)
    (habits : list habit) : list habit * add_outcome :=
  let name := trim value in
  if decide (name = []) then (habits, EmptyName)
  else if (length name <? 3)%nat then (habits, TooShort)
  else if (50 <? length name)%nat then (habits, TooLong)
  else
    let newHabit := Habit now name category false iso None 0 in
    (habits ++ [newHabit], Added).

(** The assignments [toggleHabitComplete] makes to the habit it found.
    The [+ 1] is written on the integers; it is the [+ 1] of the doubles for
    a streak below 2^53 in magnitude, the range the theorems about the new
    streak ask for. *)
Definition toggled (iso : jsstring) (h : habit) : habit :=
  let completed' := negb (completed h) in
  if completed' then
    Habit (id h) (name h) (category h) completed' (createdAt h) (Some iso) (streak h + 1)
  else
    Habit (id h) (name h) (category h) completed' (createdAt h) None (streak h).

(** [toggleHabitComplete(habitId)]: the found object is updated in
    place, so the array holds the new version at the same index. *)
Definition toggleHabitComplete (habitId : Z) (iso : jsstring)
    (habits : list habit) : list habit :=
  match find_habit habitId habits with
  | None => habits
  | Some (i, h) => <[i := toggled iso h]> habits
  end.

(** [deleteHabit(habitId)]: [confirmed] is the answer to [confirm];
    [splice(habitIndex, 1)] removes the entry found. *)
Definition deleteHabit (habitId : Z) (confirmed : bool)
    (habits : list habit) : list habit :=
  match find_habit habitId habits with
  | None => habits
  | Some (habitIndex, _) =>
      if negb confirmed then habits else delete habitIndex habits
  end.

(** A user action with what the handler reads from its environment. *)
Inductive action :=
| Add (value category : jsstring) (now : Z) (iso : jsstring)
| Toggle (habitId : Z) (iso : jsstring)
| Delete (habitId : Z) (confirmed : bool).

Definition step (habits : list habit) (a : action) : list habit :=
  match a with
  | Add value category now iso => (handleAddHabit value category now iso habits).1
  | Toggle habitId iso => toggleHabitComplete habitId iso habits
  | Delete habitId confirmed => deleteHabit habitId confirmed habits
  end.

(** The collections the handlers build from the empty one. *)
Inductive reachable : list habit → Prop :=
| reachable_empty : reachable []
| reachable_step habits a : reachable habits → reachable (step habits a).

(** [loadHabitsFromStorage()]: the new value of the variable [habits].
    [getItem] gives [null] for a missing key, and [if (stored)] is false for
    [null] and for the empty string. *)
Definition loadHabitsFromStorage (localStorage : storage) (habits : json)
  : completion json :=
  let stored := localStorage !! habitflow_habits in
  match stored with
  | Some (c :: text) =>
      try_catch (JSON_parse (c :: text)) (λ error, Normal (JArr []))
  | Some [] | None => Normal habits
  end.

(** [saveHabitsToStorage()]: the store afterwards, and whether the toast
    "Failed to save data!" is shown. *)
Definition saveHabitsToStorage (setItem_ok : bool) (habits : json)
    (localStorage : storage) : storage * bool :=
  match setItem setItem_ok habitflow_habits (JSON_stringify habits) localStorage with
  | Normal localStorage' => (localStorage', false)
  | Throw _ => (localStorage, true)
  end.

(** [init()], as far as the collection goes: [loadHabitsFromStorage()] on
    the module's [let habits = []]. *)
Definition init (localStorage : storage) : completion json :=
  loadHabitsFromStorage localStorage (JArr []).

End Script.

(** ** The habit store of the variant [part_000] *)

Module Part000.

(** [addHabit()]: no check of the upper bound, no [completedAt]. *)
Definition addHabit (value category : jsstring) (now : Z) (iso : jsstring)
    (habits : list habit) : list habit * add_outcome :=
  let name := trim value in
  if decide (name = []) then (habits, EmptyName)
  else if (length name <? 3)%nat then (habits, TooShort)
  else
    let newHabit := Habit now name category false iso None 0 in
    (habits ++ [newHabit], Added).

Definition toggled (h : habit) : habit :=
  let completed' := negb (completed h) in
  if completed' then
    Habit (id h) (name h) (category h) completed' (createdAt h) (completedAt h) (streak h + 1)
  else
    Habit (id h) (name h) (category h) completed' (createdAt h) (completedAt h) (streak h).

(** [toggleComplete(id)]. *)
Definition toggleComplete (habitId : Z) (habits : list habit) : list habit :=
  match find_habit habitId habits with
  | None => habits
  | Some (i, h) => <[i := toggled h]> habits
  end.

(** [deleteHabit(id)]: the array is replaced by
    [habits.filter(h => h.id !== id)]. *)
Definition deleteHabit (habitId : Z) (confirmed : bool)
    (habits : list habit) : list habit :=
  match find_habit habitId habits with
  | None => habits
  | Some _ =>
      if negb confirmed then habits else filter (λ h, id h ≠ habitId) habits
  end.

Inductive action :=
| Add (value category : jsstring) (now : Z) (iso : jsstring)
| Toggle (habitId : Z)
| Delete (habitId : Z) (confirmed : bool).

Definition step (habits : list habit) (a : action) : list habit :=
  match a with
  | Add value category now iso => (addHabit value category now iso habits).1
  | Toggle habitId => toggleComplete habitId habits
  | Delete habitId confirmed => deleteHabit habitId confirmed habits
  end.

Inductive reachable : list habit → Prop :=
| reachable_empty : reachable []
| reachable_step habits a : reachable habits → reachable (step habits a).

(** [loadFromStorage()]. *)
Definition loadFromStorage (localStorage : storage) (habits : json)
  : completion json :=
  let stored := localStorage !! habitflow_habits in
  match stored with
  | Some (c :: text) =>
      try_catch (JSON_parse (c :: text)) (λ e, Normal (JArr []))
  | Some [] | None => Normal habits
  end.

(** [saveToStorage()]: no [try] here, a failing [setItem] throws on. *)
Definition saveToStorage (setItem_ok : bool) (habits : json)
    (localStorage : storage) : completion storage :=
  setItem setItem_ok habitflow_habits (JSON_stringify habits) localStorage.

(** The initialisation at the end of the listener: [loadFromStorage()] on
    [let habits = []]. *)
Definition init (localStorage : storage) : completion json :=
  loadFromStorage localStorage (JArr []).

End Part000.

(** ** The invariants of the data model *)

(** [completed == true] exactly when [completedAt] is present. *)
Definition completedAt_consistent (h : habit) : Prop :=
  completed h = true ↔ is_Some (completedAt h).

(** The ids of a collection, in order. *)
Definition ids (habits : list habit) : list Z := id <$> habits.

(** A name of 51 code units, one more than [handleAddHabit] accepts. *)
Definition name51 : jsstring := replicate 51 97%N.

Definition drink_water : jsstring := Eval vm_compute in js "Drink Water".
Definition read_a_book : jsstring := Eval vm_compute in js "Read a book".
Definition health : jsstring := Eval vm_compute in js "health".
Definition learning : jsstring := Eval vm_compute in js "learning".

Definition iso_sample : jsstring := Eval vm_compute in js "2024-01-01T00:00:00.000Z".

(** The collection [script.js] builds from the empty one by the given
    actions, in order. *)
Definition run (actions : list Script.action) : list habit :=
  foldl Script.step [] actions.

(** [n] adds, at the clock readings [0 .. n-1], and then a toggle of the
    first [k] habits added. *)
Definition adds_then_toggles (n k : nat) : list Script.action :=
  ((λ i : nat, Script.Add drink_water health (Z.of_nat i) iso_sample) <$> seq 0 n) ++
  ((λ i : nat, Script.Toggle (Z.of_nat i) iso_sample) <$> seq 0 k).

(** A code unit that ends a number: not a digit, a point or an exponent
    mark.  The commas and closing brackets that follow a value are such. *)
Definition ends_number (rest : jsstring) : Prop :=
  match rest with
  | c :: _ => c = 44%N ∨ c = 93%N ∨ c = 125%N
  | [] => True
  end.

(** Two records that break the data model: one id twice, a name of one
    code unit, completed without [completedAt], a negative streak. *)
Definition invalid_habits : list habit :=
  [Habit 1 [120%N] health true [] None (-3); Habit 1 [120%N] health true [] None (-3)].

(** Stored texts that are JSON but no collection, and one that is not JSON. *)
Definition text_object : jsstring := Eval vm_compute in js "{}".
Definition text_five : jsstring := Eval vm_compute in js "5".
Definition text_malformed : jsstring := Eval vm_compute in js "[{not json".

(** ** Safe integers *)

(** An integer that the doubles hold exactly together with its two
    neighbours: below 2^53 in magnitude ([Number.isSafeInteger]).  On these
    the [+ 1] of the doubles is the [+ 1] of the integers, [JSON.parse]
    reads a literal exactly and [JSON.stringify] writes all the digits. *)
Definition safe_integer (z : Z) : Prop := Z.abs z < 2 ^ 53.

(** The [+] of the doubles, as in [habit.streak += 1]. *)
Definition Number_add : spec_float → spec_float → spec_float := SFadd prec64 emax64.

(** A habit whose numbers are safe integers, with room for [n] more
    increments of its streak. *)
Definition safe_habit_for (n : nat) (h : habit) : Prop :=
  safe_integer (id h) ∧ Z.abs (streak h) + Z.of_nat n < 2 ^ 53.

Definition safe_habit (h : habit) : Prop := safe_habit_for 0 h.

(** An action whose clock reading is a safe integer, as every reading of
    [Date.now()] is. *)
Definition safe_action (a : Script.action) : Prop :=
  match a with
  | Script.Add _ _ now _ => safe_integer now
  | _ => True
  end.

Definition part000_safe_action (a : Part000.action) : Prop :=
  match a with
  | Part000.Add _ _ now _ => safe_integer now
  | _ => True
  end.

(** ** What a card shows: [createHabitCard], [getCategoryLabel], [parseInt] *)

(** [String(n)] for an integral Number below 10^21 in magnitude: its
    decimal digits, with a minus when negative.  (From 10^21 on JS prints an
    exponent; no clock reading comes near.) *)
Definition Number_toString (z : Z) : jsstring := stringify_integer z.

(** The value of a code unit as a digit in the given radix. *)
Definition radix_digit (radix : N) (c : N) : option N :=
  let d :=
    if (48 <=? c)%N && (c <=? 57)%N then Some (c - 48)%N
    else if (97 <=? c)%N && (c <=? 122)%N then Some (c - 87)%N
    else if (65 <=? c)%N && (c <=? 90)%N then Some (c - 55)%N
    else None in
  match d with
  | Some d => if (d <? radix)%N then Some d else None
  | None => None
  end.

(** The value of the longest run of hexadecimal digits at the head of [s],
    continuing [acc]. *)
Fixpoint read_hex (acc : N) (s : jsstring) : N :=
  match s with
  | c :: s' =>
      match radix_digit 16 c with
      | Some d => read_hex (acc * 16 + d)%N s'
      | None => acc
      end
  | [] => acc
  end.

(** [parseInt] after the sign: [0x] or [0X] selects radix 16, otherwise
    the radix is 10; the longest run of digits is the value, and there is
    none ([NaN]) when the run is empty. *)
Definition parseInt_magnitude (s : jsstring) : option N :=
  let hex :=
    match s with
    | c :: x :: s' =>
        if (c =? 48)%N && ((x =? 120)%N || (x =? 88)%N) then Some s' else None
    | _ => None
    end in
  match hex with
  | Some s' =>
      match s' with
      | c :: _ =>
          match radix_digit 16 c with
          | Some _ => Some (read_hex 0 s')
          | None => None
          end
      | [] => None
      end
  | None =>
      match read_digits1 s with
      | Some (u, _) => Some (N.of_uint u)
      | None => None
      end
  end.

(** [parseInt(string)], without a radix: leading white space is skipped,
    then a sign; [None] is [NaN]. *)
Definition parseInt (s : jsstring) : option Z :=
  let s1 := trimStart s in
  let '(negative, s2) :=
    match s1 with
    | c :: s' =>
        if (c =? 45)%N then (true, s')
        else if (c =? 43)%N then (false, s')
        else (false, s1)
    | [] => (false, s1)
    end in
  match parseInt_magnitude s2 with
  | Some n => Some (if negative then - Z.of_N n else Z.of_N n)
  | None => None
  end.

(** The own properties of the object literal [labels]. *)
Definition labels : list (jsstring * jsstring) :=
  Eval vm_compute in
  [(js "health", [55356; 57283]%N ++ js " Health & Fitness");
   (js "productivity", [55357; 56508]%N ++ js " Productivity");
   (js "mindfulness", [55358; 56792]%N ++ js " Mindfulness");
   (js "learning", [55357; 56538]%N ++ js " Learning");
   (js "creative", [55356; 57256]%N ++ js " Creative")].

(** The property names every object literal inherits from
    [Object.prototype] (with the legacy ones of browsers); each holds a
    function or an object, which is truthy. *)
Definition Object_prototype_names : list jsstring :=
  Eval vm_compute in
  [js "constructor"; js "hasOwnProperty"; js "isPrototypeOf";
   js "propertyIsEnumerable"; js "toLocaleString"; js "toString"; js "valueOf";
   js "__proto__"; js "__defineGetter__"; js "__defineSetter__";
   js "__lookupGetter__"; js "__lookupSetter__"].

Fixpoint own_label (category : jsstring) (o : list (jsstring * jsstring))
  : option jsstring :=
  match o with
  | [] => None
  | (key, label) :: o' =>
      if decide (key = category) then Some label else own_label category o'
  end.

(** What [getCategoryLabel] returns: a text, or the member of
    [Object.prototype] that [labels[category]] finds. *)
Inductive label := Text (s : jsstring) | Inherited (property : jsstring).

(** [getCategoryLabel(category)]: [labels[category] || category].  Every
    label is a non-empty string, so truthy. *)
Definition getCategoryLabel (category : jsstring) : label :=
  match own_label category labels with
  | Some l => Text l
  | None =>
      if decide (category ∈ Object_prototype_names) then Inherited category
      else Text category
  end.

(** A card of [createHabitCard].  The date span shows
    [formatDate(habit.createdAt)], which depends on the time of rendering;
    the card keeps the [createdAt] it is computed from. *)
Record card := Card {
  className : jsstring;
  dataset_id : jsstring;
  categoryBadge : label;
  habitName : jsstring;
  createdDate_of : jsstring;
  streakInfo : jsstring;
  completeBtn : jsstring
}.

Definition class_habit_card : jsstring := Eval vm_compute in js "habit-card ".
Definition class_completed : jsstring := Eval vm_compute in js "completed".
Definition text_completed : jsstring := Eval vm_compute in [10003%N] ++ js " Completed".
Definition text_mark_complete : jsstring := Eval vm_compute in js "Mark Complete".
Definition text_fire : jsstring := Eval vm_compute in [55357; 56613; 32]%N.
Definition text_day : jsstring := Eval vm_compute in js " day".

(** [createHabitCard(habit)]. *)
Definition createHabitCard (h : habit) : card :=
  Card (class_habit_card ++ (if completed h then class_completed else []))
       (Number_toString (id h))
       (getCategoryLabel (category h))
       (name h)
       (createdAt h)
       (text_fire ++ Number_toString (streak h) ++ text_day ++
        (if decide (streak h ≠ 1) then [115%N] else []))
       (if completed h then text_completed else text_mark_complete).

(** ** The page of [script.js]: its state, its events, its handlers *)

Module Page.

(** The texts [showToast] is called with. *)
Inductive toast_message :=
| FailedToSave | HabitAdded | HabitCompleted | HabitIncomplete | HabitDeleted.

(** The module variables ([habits], [currentFilter]), the store, and what
    the handlers read and write of the document.  A field of the document
    the script has not written yet is [None]. *)
Record page := Page {
  habits : list habit;
  currentFilter : jsstring;
  localStorage : storage;
  habitNameInput : jsstring;
  categoryOptions : list jsstring;
  selectedIndex : nat;
  errorMessage : option add_outcome;
  errorDisplay : option bool;
  toastText : option toast_message;
  toastShow : bool;
  toastTimers : nat;
  habitsContainer : list card;
  emptyState : option bool;
  shownStats : option stats;
  activeFilter : option jsstring
}.

(** [showError(message)]. *)
Definition showError (message : add_outcome) (p : page) : page :=
  Page (habits p) (currentFilter p) (localStorage p) (habitNameInput p)
       (categoryOptions p) (selectedIndex p) (Some message) (Some true)
       (toastText p) (toastShow p) (toastTimers p) (habitsContainer p)
       (emptyState p) (shownStats p) (activeFilter p).

(** [hideError()]. *)
Definition hideError (p : page) : page :=
  Page (habits p) (currentFilter p) (localStorage p) (habitNameInput p)
       (categoryOptions p) (selectedIndex p) (errorMessage p) (Some false)
       (toastText p) (toastShow p) (toastTimers p) (habitsContainer p)
       (emptyState p) (shownStats p) (activeFilter p).

(** [showToast(message)]: the text, the class [show], and one more
    pending timeout. *)
Definition showToast (message : toast_message) (p : page) : page :=
  Page (habits p) (currentFilter p) (localStorage p) (habitNameInput p)
       (categoryOptions p) (selectedIndex p) (errorMessage p) (errorDisplay p)
       (Some message) true (S (toastTimers p)) (habitsContainer p)
       (emptyState p) (shownStats p) (activeFilter p).

(** A timeout of [showToast] fires: the class [show] is removed. *)
Definition timeout (p : page) : page :=
  match toastTimers p with
  | O => p
  | S timers =>
      Page (habits p) (currentFilter p) (localStorage p) (habitNameInput p)
           (categoryOptions p) (selectedIndex p) (errorMessage p) (errorDisplay p)
           (toastText p) false timers (habitsContainer p)
           (emptyState p) (shownStats p) (activeFilter p)
  end.

Definition set_habits (habits' : list habit) (p : page) : page :=
  Page habits' (currentFilter p) (localStorage p) (habitNameInput p)
       (categoryOptions p) (selectedIndex p) (errorMessage p) (errorDisplay p)
       (toastText p) (toastShow p) (toastTimers p) (habitsContainer p)
       (emptyState p) (shownStats p) (activeFilter p).

Definition set_localStorage (localStorage' : storage) (p : page) : page :=
  Page (habits p) (currentFilter p) localStorage' (habitNameInput p)
       (categoryOptions p) (selectedIndex p) (errorMessage p) (errorDisplay p)
       (toastText p) (toastShow p) (toastTimers p) (habitsContainer p)
       (emptyState p) (shownStats p) (activeFilter p).

(** The form after a successful add: [habitNameInput.value = ''] and
    [habitCategorySelect.selectedIndex = 0]. *)
Definition reset_form (p : page) : page :=
  Page (habits p) (currentFilter p) (localStorage p) []
       (categoryOptions p) 0 (errorMessage p) (errorDisplay p)
       (toastText p) (toastShow p) (toastTimers p) (habitsContainer p)
       (emptyState p) (shownStats p) (activeFilter p).

(** [renderHabits()]: the container is emptied; with nothing to show the
    empty state is displayed, otherwise hidden and the cards appended. *)
Definition renderHabits (p : page) : page :=
  let filteredHabits := getFilteredHabits (currentFilter p) (habits p) in
  Page (habits p) (currentFilter p) (localStorage p) (habitNameInput p)
       (categoryOptions p) (selectedIndex p) (errorMessage p) (errorDisplay p)
       (toastText p) (toastShow p) (toastTimers p)
       (if (length filteredHabits =? 0)%nat then []
        else createHabitCard <$> filteredHabits)
       (Some (length filteredHabits =? 0)%nat)
       (shownStats p) (activeFilter p).

(** [updateStats()]: the three counters and the progress bar. *)
Definition updateStats (p : page) : page :=
  Page (habits p) (currentFilter p) (localStorage p) (habitNameInput p)
       (categoryOptions p) (selectedIndex p) (errorMessage p) (errorDisplay p)
       (toastText p) (toastShow p) (toastTimers p) (habitsContainer p)
       (emptyState p) (Some (updateStats (habits p))) (activeFilter p).

(** [saveHabitsToStorage()]: a failing [setItem] is caught and reported
    by a toast. *)
Definition saveHabitsToStorage (setItem_ok : bool) (p : page) : page :=
  let '(localStorage', failed) :=
    Script.saveHabitsToStorage setItem_ok (value_of_habits (habits p)) (localStorage p) in
  let p' := set_localStorage localStorage' p in
  if failed then showToast FailedToSave p' else p'.

(** [habitCategorySelect.value]: the value of the selected option, the
    empty string when there is none. *)
Definition category_value (p : page) : jsstring :=
  default [] (categoryOptions p !! selectedIndex p).

(** [handleAddHabit()]. *)
Definition handleAddHabit (now : Z) (iso : jsstring) (setItem_ok : bool) (p : page)
  : page :=
  match Script.handleAddHabit (habitNameInput p) (category_value p) now iso (habits p) with
  | (habits', Added) =>
      showToast HabitAdded
        (hideError
           (reset_form
              (updateStats
                 (renderHabits
                    (saveHabitsToStorage setItem_ok (set_habits habits' p))))))
  | (_, failure) => showError failure p
  end.

(** [toggleHabitComplete(habitId)]; [None] is [NaN], which no id equals. *)
Definition toggleHabitComplete (habitId : option Z) (iso : jsstring)
    (setItem_ok : bool) (p : page) : page :=
  match habitId with
  | None => p
  | Some habitId =>
      match find_habit habitId (habits p) with
      | None => p
      | Some (i, h) =>
          showToast (if completed (Script.toggled iso h)
                     then HabitCompleted else HabitIncomplete)
            (updateStats
               (renderHabits
                  (saveHabitsToStorage setItem_ok
                     (set_habits (Script.toggleHabitComplete habitId iso (habits p)) p))))
      end
  end.

(** [deleteHabit(habitId)]. *)
Definition deleteHabit (habitId : option Z) (confirmed : bool)
    (setItem_ok : bool) (p : page) : page :=
  match habitId with
  | None => p
  | Some habitId =>
      match find_habit habitId (habits p) with
      | None => p
      | Some _ =>
          if negb confirmed then p
          else
            showToast HabitDeleted
              (updateStats
                 (renderHabits
                    (saveHabitsToStorage setItem_ok
                       (set_habits (Script.deleteHabit habitId true (habits p)) p))))
      end
  end.

Definition action_complete : jsstring := Eval vm_compute in js "complete".
Definition action_delete : jsstring := Eval vm_compute in js "delete".

(** [handleHabitAction(e)] for a click inside a button of a card:
    [dataset_id] is the card's [data-id], [action] the button's
    [data-action]. *)
Definition handleHabitAction (dataset_id action : jsstring) (iso : jsstring)
    (confirmed setItem_ok : bool) (p : page) : page :=
  let habitId := parseInt dataset_id in
  if decide (action = action_complete) then toggleHabitComplete habitId iso setItem_ok p
  else if decide (action = action_delete) then deleteHabit habitId confirmed setItem_ok p
  else p.

(** [handleFilter(e)] for a click on the button with the given
    [data-filter]. *)
Definition handleFilter (filter : jsstring) (p : page) : page :=
  renderHabits
    (Page (habits p) filter (localStorage p) (habitNameInput p)
          (categoryOptions p) (selectedIndex p) (errorMessage p) (errorDisplay p)
          (toastText p) (toastShow p) (toastTimers p) (habitsContainer p)
          (emptyState p) (shownStats p) (Some filter)).

Definition key_Enter : jsstring := Eval vm_compute in js "Enter".

(** What happens to the page.  An event carries what its handler reads
    from the environment. *)
Inductive event :=
| ClickAdd (now : Z) (iso : jsstring) (setItem_ok : bool)
| Keypress (key : jsstring) (now : Z) (iso : jsstring) (setItem_ok : bool)
| Input (value : jsstring)
| Select (index : nat)
| ClickCardButton (index : nat) (action : jsstring) (iso : jsstring)
                  (confirmed setItem_ok : bool)
| ClickFilter (filter : jsstring)
| Timeout.

(** The listeners of [setupEventListeners], and the timeouts. *)
Definition step (p : page) (e : event) : page :=
  match e with
  | ClickAdd now iso setItem_ok => handleAddHabit now iso setItem_ok p
  | Keypress key now iso setItem_ok =>
      if decide (key = key_Enter) then handleAddHabit now iso setItem_ok p else p
  | Input value =>
      hideError
        (Page (habits p) (currentFilter p) (localStorage p) value
              (categoryOptions p) (selectedIndex p) (errorMessage p) (errorDisplay p)
              (toastText p) (toastShow p) (toastTimers p) (habitsContainer p)
              (emptyState p) (shownStats p) (activeFilter p))
  | Select index =>
      Page (habits p) (currentFilter p) (localStorage p) (habitNameInput p)
           (categoryOptions p) index (errorMessage p) (errorDisplay p)
           (toastText p) (toastShow p) (toastTimers p) (habitsContainer p)
           (emptyState p) (shownStats p) (activeFilter p)
  | ClickCardButton index action iso confirmed setItem_ok =>
      match habitsContainer p !! index with
      | Some c => handleHabitAction (dataset_id c) action iso confirmed setItem_ok p
      | None => p
      end
  | ClickFilter filter => handleFilter filter p
  | Timeout => timeout p
  end.

Definition run (p : page) (events : list event) : page := foldl step p events.

(** Whether the [setItem] of the event, if it comes to one, succeeds. *)
Definition saves (e : event) : bool :=
  match e with
  | ClickAdd _ _ setItem_ok | Keypress _ _ _ setItem_ok
  | ClickCardButton _ _ _ _ setItem_ok => setItem_ok
  | _ => true
  end.

Definition filter_all : jsstring := Eval vm_compute in js "all".

(** The document as loaded, before the script runs: the form (with the
    [selectedIndex]-th option selected), the toast hidden, and nothing
    written by the script. *)
Definition document (input : jsstring) (options : list jsstring) (selected : nat)
    (localStorage : storage) : page :=
  Page [] filter_all localStorage input options selected None None None false 0
       [] None None None.

(** A collection exactly as [JSON.parse] returns what the page saved:
    every element an object with the seven properties in their order.  The
    numbers are read exactly, which is how the code reads an id or a streak
    that is a safe integer. *)
Definition habit_of_saved (v : json) : option habit :=
  match v with
  | JObj [(k1, JNum i 0); (k2, JStr n); (k3, JStr c); (k4, JBool b);
          (k5, JStr t); (k6, ca); (k7, JNum s 0)] =>
      if decide ([k1; k2; k3; k4; k5; k6; k7]
                 = [key_id; key_name; key_category; key_completed;
                    key_createdAt; key_completedAt; key_streak])
      then
        match ca with
        | JNull => Some (Habit i n c b t None s)
        | JStr t' => Some (Habit i n c b t (Some t') s)
        | _ => None
        end
      else None
  | _ => None
  end.

(** What [init()] comes to. *)
Inductive init_outcome :=
| Started (p : page)
| TypeError_thrown
| Thrown (e : error)
| Untyped.

(** [habits.length === 0] on a value that is no array; [None] when reading
    the property throws, as it does of [null]. *)
Definition length_is_zero (v : json) : option bool :=
  match v with
  | JNull => None
  | JStr s => Some (length s =? 0)%nat
  | JObj members =>
      Some match get_property (js "length") members with
           | Some (JNum 0 0) => true
           | _ => false
           end
  | _ => Some false
  end.

(** [renderHabits()] with the filter "all" when [habits] is no array:
    whether it returns.  With a length of 0 it returns early; otherwise it
    comes to [filteredHabits.forEach(...)], and what is no array has no
    function [forEach]. *)
Definition renderHabits_returns (v : json) : bool :=
  match length_is_zero v with
  | Some zero => zero
  | None => false
  end.

(** [updateStats()] when [habits] is no array and not [null]: it comes to
    [habits.filter(...)], and what is no array has no function [filter]. *)
Definition updateStats_returns (v : json) : bool := false.

(** [init()] up to [setupEventListeners()], on the document as loaded.
    An array that is not made of saved habits is outside the typed model
    ([Untyped]). *)
Definition init (input : jsstring) (options : list jsstring) (selected : nat)
    (localStorage : storage) : init_outcome :=
  let p := document input options selected localStorage in
  match Script.loadHabitsFromStorage localStorage (JArr []) with
  | Normal (JArr elements) =>
      match mapM habit_of_saved elements with
      | Some habits' => Started (updateStats (renderHabits (set_habits habits' p)))
      | None => Untyped
      end
  | Normal v =>
      if renderHabits_returns v && updateStats_returns v
      then Untyped else TypeError_thrown
  | Throw e => Thrown e
  end.

End Page.

(** ** The page of [part_000] *)

Module Part000Page.

(** The toasts: "Habit added successfully!", "Habit completed!", "Marked
    incomplete", "Habit deleted". *)
Inductive toast_message := HabitAdded | HabitCompleted | MarkedIncomplete | HabitDeleted.

(** A card of [renderHabits]: what it shows, and the habit whose [id] the
    [onclick] closures of its two buttons read. *)
Record button_card := ButtonCard {
  shown : card;
  onclick_id : Z
}.

Definition class_habit_card : jsstring := Eval vm_compute in js "habit-card".
Definition class_completed : jsstring := Eval vm_compute in js " completed".
Definition text_days : jsstring := Eval vm_compute in js " days".

(** The body of the [forEach] of [renderHabits]. *)
Definition createCard (h : habit) : button_card :=
  ButtonCard
    (Card (class_habit_card ++ (if completed h then class_completed else []))
          (Number_toString (id h))
          (getCategoryLabel (category h))
          (name h)
          (createdAt h)
          (text_fire ++ Number_toString (streak h) ++ text_days)
          (if completed h then text_completed else text_mark_complete))
    (id h).

(** The closure variables ([habits], [currentFilter]), the store, and what
    the handlers read and write of the document. *)
Record page := Page {
  habits : list habit;
  currentFilter : jsstring;
  localStorage : storage;
  habitNameInput : jsstring;
  errorMessage : option add_outcome;
  errorDisplay : option bool;
  toastText : option toast_message;
  toastShow : bool;
  toastTimers : nat;
  habitsContainer : list button_card;
  emptyState : option bool;
  shownStats : option stats;
  activeFilter : option jsstring
}.

Definition set_habits (habits' : list habit) (p : page) : page :=
  Page habits' (currentFilter p) (localStorage p) (habitNameInput p)
       (errorMessage p) (errorDisplay p) (toastText p) (toastShow p) (toastTimers p)
       (habitsContainer p) (emptyState p) (shownStats p) (activeFilter p).

Definition set_localStorage (localStorage' : storage) (p : page) : page :=
  Page (habits p) (currentFilter p) localStorage' (habitNameInput p)
       (errorMessage p) (errorDisplay p) (toastText p) (toastShow p) (toastTimers p)
       (habitsContainer p) (emptyState p) (shownStats p) (activeFilter p).

Definition set_habitNameInput (value : jsstring) (p : page) : page :=
  Page (habits p) (currentFilter p) (localStorage p) value
       (errorMessage p) (errorDisplay p) (toastText p) (toastShow p) (toastTimers p)
       (habitsContainer p) (emptyState p) (shownStats p) (activeFilter p).

(** [showError(msg)]. *)
Definition showError (msg : add_outcome) (p : page) : page :=
  Page (habits p) (currentFilter p) (localStorage p) (habitNameInput p)
       (Some msg) (Some true) (toastText p) (toastShow p) (toastTimers p)
       (habitsContainer p) (emptyState p) (shownStats p) (activeFilter p).

(** [hideError()]. *)
Definition hideError (p : page) : page :=
  Page (habits p) (currentFilter p) (localStorage p) (habitNameInput p)
       (errorMessage p) (Some false) (toastText p) (toastShow p) (toastTimers p)
       (habitsContainer p) (emptyState p) (shownStats p) (activeFilter p).

(** [showToast(msg)]. *)
Definition showToast (msg : toast_message) (p : page) : page :=
  Page (habits p) (currentFilter p) (localStorage p) (habitNameInput p)
       (errorMessage p) (errorDisplay p) (Some msg) true (S (toastTimers p))
       (habitsContainer p) (emptyState p) (shownStats p) (activeFilter p).

(** A timeout of [showToast] fires. *)
Definition timeout (p : page) : page :=
  match toastTimers p with
  | O => p
  | S timers =>
      Page (habits p) (currentFilter p) (localStorage p) (habitNameInput p)
           (errorMessage p) (errorDisplay p) (toastText p) false timers
           (habitsContainer p) (emptyState p) (shownStats p) (activeFilter p)
  end.

(** [renderHabits()]; its filter is that of [getFilteredHabits]. *)
Definition renderHabits (p : page) : page :=
  let filtered := getFilteredHabits (currentFilter p) (habits p) in
  Page (habits p) (currentFilter p) (localStorage p) (habitNameInput p)
       (errorMessage p) (errorDisplay p) (toastText p) (toastShow p) (toastTimers p)
       (if (length filtered =? 0)%nat then [] else createCard <$> filtered)
       (Some (length filtered =? 0)%nat)
       (shownStats p) (activeFilter p).

(** [updateStats()]. *)
Definition updateStats (p : page) : page :=
  Page (habits p) (currentFilter p) (localStorage p) (habitNameInput p)
       (errorMessage p) (errorDisplay p) (toastText p) (toastShow p) (toastTimers p)
       (habitsContainer p) (emptyState p) (Some (updateStats (habits p))) (activeFilter p).

(** A habit of [part_000] as a JS value: the object literal of [addHabit]
    has no [completedAt]. *)
Definition value_of_habit (h : habit) : json :=
  JObj [(key_id, JNum (id h) 0);
        (key_name, JStr (name h));
        (key_category, JStr (category h));
        (key_completed, JBool (completed h));
        (key_createdAt, JStr (createdAt h));
        (key_streak, JNum (streak h) 0)].

(** [saveToStorage()] and what the handler does after it: when [setItem]
    throws, nothing catches it, and the handler ends there. *)
Definition save_then (setItem_ok : bool) (rest : page → page) (p : page)
  : page * option error :=
  match Part000.saveToStorage setItem_ok (JArr (value_of_habit <$> habits p))
                              (localStorage p) with
  | Normal localStorage' => (rest (set_localStorage localStorage' p), None)
  | Throw e => (p, Some e)
  end.

(** [addHabit()]: the page when the handler ends, and the exception it
    ends with, if any. *)
Definition addHabit (category : jsstring) (now : Z) (iso : jsstring)
    (setItem_ok : bool) (p : page) : page * option error :=
  match Part000.addHabit (habitNameInput p) category now iso (habits p) with
  | (habits', Added) =>
      save_then setItem_ok
        (λ p, showToast HabitAdded
                (hideError (set_habitNameInput [] (updateStats (renderHabits p)))))
        (set_habits habits' p)
  | (_, failure) => (showError failure p, None)
  end.

(** [toggleComplete(id)]. *)
Definition toggleComplete (habitId : Z) (setItem_ok : bool) (p : page)
  : page * option error :=
  match find_habit habitId (habits p) with
  | None => (p, None)
  | Some (i, h) =>
      save_then setItem_ok
        (λ p, showToast (if completed (Part000.toggled h)
                         then HabitCompleted else MarkedIncomplete)
                (updateStats (renderHabits p)))
        (set_habits (Part000.toggleComplete habitId (habits p)) p)
  end.

(** [deleteHabit(id)]. *)
Definition deleteHabit (habitId : Z) (confirmed : bool) (setItem_ok : bool) (p : page)
  : page * option error :=
  match find_habit habitId (habits p) with
  | None => (p, None)
  | Some _ =>
      if negb confirmed then (p, None)
      else
        save_then setItem_ok
          (λ p, showToast HabitDeleted (updateStats (renderHabits p)))
          (set_habits (Part000.deleteHabit habitId true (habits p)) p)
  end.

(** [setFilter(filter)]. *)
Definition setFilter (filter : jsstring) (p : page) : page :=
  renderHabits
    (Page (habits p) filter (localStorage p) (habitNameInput p)
          (errorMessage p) (errorDisplay p) (toastText p) (toastShow p) (toastTimers p)
          (habitsContainer p) (emptyState p) (shownStats p) (Some filter)).

(** The events; [category] is the value of the select, which [part_000]
    only reads. *)
Inductive event :=
| ClickAdd (category : jsstring) (now : Z) (iso : jsstring) (setItem_ok : bool)
| Keypress (key : jsstring) (category : jsstring) (now : Z) (iso : jsstring)
           (setItem_ok : bool)
| Input (value : jsstring)
| ClickComplete (index : nat) (setItem_ok : bool)
| ClickDelete (index : nat) (confirmed setItem_ok : bool)
| ClickFilter (filter : jsstring)
| Timeout.

(** The listeners at the end of the script, the [onclick] closures of the
    cards, and the timeouts. *)
Definition step (p : page) (e : event) : page * option error :=
  match e with
  | ClickAdd category now iso setItem_ok => addHabit category now iso setItem_ok p
  | Keypress key category now iso setItem_ok =>
      if decide (key = Page.key_Enter) then addHabit category now iso setItem_ok p
      else (p, None)
  | Input value => (hideError (set_habitNameInput value p), None)
  | ClickComplete index setItem_ok =>
      match habitsContainer p !! index with
      | Some c => toggleComplete (onclick_id c) setItem_ok p
      | None => (p, None)
      end
  | ClickDelete index confirmed setItem_ok =>
      match habitsContainer p !! index with
      | Some c => deleteHabit (onclick_id c) confirmed setItem_ok p
      | None => (p, None)
      end
  | ClickFilter filter => (setFilter filter p, None)
  | Timeout => (timeout p, None)
  end.

(** An uncaught exception ends the handler, not the page: the next event
    finds the page as the handler left it. *)
Definition run (p : page) (events : list event) : page :=
  foldl (λ p e, (step p e).1) p events.

Definition saves (e : event) : bool :=
  match e with
  | ClickAdd _ _ _ setItem_ok | Keypress _ _ _ _ setItem_ok
  | ClickComplete _ setItem_ok | ClickDelete _ _ setItem_ok => setItem_ok
  | _ => true
  end.

(** The document as loaded, before the script runs. *)
Definition document (input : jsstring) (localStorage : storage) : page :=
  Page [] Page.filter_all localStorage input None None None false 0 [] None None None.

(** An element of a collection exactly as [JSON.parse] returns what the
    page saved: an object with the six properties in their order.  The
    numbers are read exactly, which is how the code reads an id or a streak
    that is a safe integer. *)
Definition habit_of_saved (v : json) : option habit :=
  match v with
  | JObj [(k1, JNum i 0); (k2, JStr n); (k3, JStr c); (k4, JBool b);
          (k5, JStr t); (k6, JNum s 0)] =>
      if decide ([k1; k2; k3; k4; k5; k6]
                 = [key_id; key_name; key_category; key_completed;
                    key_createdAt; key_streak])
      then Some (Habit i n c b t None s)
      else None
  | _ => None
  end.

(** The initialisation at the end of the listener: [loadFromStorage()],
    [renderHabits()] and [updateStats()] on the document as loaded, when
    the store holds a collection the page saved, or none.  Anything else in
    the store is outside this model ([None]). *)
Definition init (input : jsstring) (localStorage : storage) : option page :=
  match Part000.init localStorage with
  | Normal (JArr elements) =>
      match mapM habit_of_saved elements with
      | Some habits' =>
          Some (updateStats (renderHabits (set_habits habits' (document input localStorage))))
      | None => None
      end
  | _ => None
  end.

End Part000Page.

(** What the page of [part_000] shows agrees with its variables. *)
Definition part000_in_sync (p : Part000Page.page) : Prop :=
  let filtered := getFilteredHabits (Part000Page.currentFilter p) (Part000Page.habits p) in
  Part000Page.habitsContainer p = Part000Page.createCard <$> filtered ∧
  Part000Page.emptyState p = Some (bool_decide (filtered = [])) ∧
  Part000Page.shownStats p = Some (updateStats (Part000Page.habits p)).

(** ** The counter animation of [part_001] *)

Module Part001.

Definition Number_add : spec_float → spec_float → spec_float := SFadd prec64 emax64.
Definition Number_sub : spec_float → spec_float → spec_float := SFsub prec64 emax64.

(** [x > y], [x >= y], [x < y] and [x <= y] on Numbers: false when either
    is a NaN. *)
Definition Number_gt (x y : spec_float) : bool := SFltb y x.
Definition Number_ge (x y : spec_float) : bool := SFleb y x.
Definition Number_lt (x y : spec_float) : bool := SFltb x y.
Definition Number_le (x y : spec_float) : bool := SFleb x y.

(** The variables of one call of [animateValue]: [current], whether the
    interval of [timer] is still set, and the text of the element. *)
Record animation := Animation {
  current : spec_float;
  timer_set : bool;
  textContent : option rounded
}.

(** [range / (duration / 16)]. *)
Definition increment (start end_ duration : spec_float) : spec_float :=
  Number_div (Number_sub end_ start) (Number_div duration (Number_of_Z 16)).

(** [animateValue(element, start, end, duration)] up to [setInterval];
    [text] is what the element shows. *)
Definition animateValue (start : spec_float) (text : option rounded) : animation :=
  Animation start true text.

(** One run of the callback given to [setInterval]; it runs no more once
    the interval is cleared. *)
Definition tick (increment end_ : spec_float) (a : animation) : animation :=
  if timer_set a then
    let current := Number_add (current a) increment in
    if (Number_gt increment (Number_of_Z 0) && Number_ge current end_)
       || (Number_lt increment (Number_of_Z 0) && Number_le current end_)
    then Animation end_ false (Some (Math_round end_))
    else Animation current true (Some (Math_round current))
  else a.

(** The animation after [n] runs of the callback. *)
Definition after (n : nat) (start end_ duration : spec_float) (text : option rounded)
  : animation :=
  Nat.iter n (tick (increment start end_ duration) end_) (animateValue start text).

End Part001.

(** An event whose clock reading, if it has one, is a safe integer. *)
Definition safe_event (e : Page.event) : Prop :=
  match e with
  | Page.ClickAdd now _ _ | Page.Keypress _ now _ _ => safe_integer now
  | _ => True
  end.

Definition part000_safe_event (e : Part000Page.event) : Prop :=
  match e with
  | Part000Page.ClickAdd _ now _ _ | Part000Page.Keypress _ _ now _ _ => safe_integer now
  | _ => True
  end.

(** The store of [part_000] holds the collection: a reload starts with the
    same habits. *)
Definition part000_persisted (p : Part000Page.page) : Prop :=
  ∃ p', Part000Page.init [] (Part000Page.localStorage p) = Some p' ∧
        Part000Page.habits p' = Part000Page.habits p.

(** What the page shows agrees with its variables: the container holds
    the cards of the filtered habits, the empty state shows exactly when
    there are none, and the counters are those of the collection. *)
Definition in_sync (p : Page.page) : Prop :=
  let filteredHabits := getFilteredHabits (Page.currentFilter p) (Page.habits p) in
  Page.habitsContainer p = createHabitCard <$> filteredHabits ∧
  Page.emptyState p = Some (bool_decide (filteredHabits = [])) ∧
  Page.shownStats p = Some (updateStats (Page.habits p)).

(** The habits a reload of the page would start with. *)
Definition reloaded (p : Page.page) : Page.init_outcome :=
  Page.init [] (Page.categoryOptions p) 0 (Page.localStorage p).

(** The store holds the collection: a reload starts with the same habits. *)
Definition persisted (p : Page.page) : Prop :=
  ∃ p', reloaded p = Page.Started p' ∧ Page.habits p' = Page.habits p.

(** A toast on display has a timeout pending that will hide it. *)
Definition toast_timed (p : Page.page) : Prop :=
  Page.toastShow p = true → (0 < Page.toastTimers p)%nat.

(** A page with two habits that share the id 7: the input is typed and
    the button clicked twice while the clock reads 7. *)
Definition page_two_adds : Page.page :=
  Page.run (Page.updateStats (Page.renderHabits (Page.document [] [health; learning] 0 ∅)))
    [Page.Input drink_water; Page.ClickAdd 7 iso_sample true;
     Page.Input read_a_book; Page.ClickAdd 7 iso_sample true].

Definition habits_two_adds : list habit :=
  [Habit 7 drink_water health false iso_sample None 0;
   Habit 7 read_a_book health false iso_sample None 0].

(** A page with one habit, added while the clock reads 7. *)
Definition page_one_add : Page.page :=
  Page.run (Page.updateStats (Page.renderHabits (Page.document [] [health; learning] 0 ∅)))
    [Page.Input drink_water; Page.ClickAdd 7 iso_sample true].

(** ** Forgetting [completedAt]: from [script.js] to [part_000] *)

Definition forget_completedAt (h : habit) : habit :=
  Habit (id h) (name h) (category h) (completed h) (createdAt h) None (streak h).

Definition forget_action (a : Script.action) : Part000.action :=
  match a with
  | Script.Add value category now iso => Part000.Add value category now iso
  | Script.Toggle habitId _ => Part000.Toggle habitId
  | Script.Delete habitId confirmed => Part000.Delete habitId confirmed
  end.

(** What the data model asks of a name: 3 to 50 code units, no white space
    at either end. *)
Definition valid_name (n : jsstring) : Prop :=
  (3 ≤ length n ≤ 50)%nat ∧
  ∀ c, head n = Some c ∨ last n = Some c → is_white_space c = false.

(** What the handlers keep of a streak: it is not negative, and at least 1
    on a completed habit. *)
Definition streak_counts (h : habit) : Prop :=
  0 ≤ streak h ∧ (completed h = true → 1 ≤ streak h).

(** What [part_000] keeps of a habit: no [completedAt], a name of at least
    3 code units with no white space at either end, a streak that counts. *)
Definition part000_habit (h : habit) : Prop :=
  completedAt h = None ∧
  (3 ≤ length (name h))%nat ∧
  (∀ c, head (name h) = Some c ∨ last (name h) = Some c → is_white_space c = false) ∧
  streak_counts h.

(** The fields of a habit no handler assigns after the add. *)
Definition identity (h : habit) : Z * jsstring * jsstring * jsstring :=
  (id h, name h, category h, createdAt h).

Definition three_spaces : jsstring := Eval vm_compute in js "   ".

(** * Properties *)

(** ** Looking a habit up *)

Lemma find_habit_insert habits habitId i h h' :
  find_habit habitId habits = Some (i, h) →
  id h' = habitId →
  find_habit habitId (<[i := h']> habits) = Some (i, h').
Proof.
  unfold find_habit. intros (Hi & _ & Hleast)%list_find_Some Hid.
  apply list_find_Some. split_and!.
  - apply list_lookup_insert_eq. by eapply lookup_lt_Some.
  - done.
  - intros j y Hj Hlt. rewrite list_lookup_insert_ne in Hj by lia. eauto.
Qed.

Lemma find_habit_Some habits habitId i h :
  find_habit habitId habits = Some (i, h) → habits !! i = Some h ∧ id h = habitId.
Proof. unfold find_habit. by intros (? & ? & _)%list_find_Some. Qed.

Lemma find_habit_None habits habitId :
  find_habit habitId habits = None ↔ habitId ∉ ids habits.
Proof.
  unfold find_habit, ids. rewrite list_find_None, list_elem_of_fmap, Forall_forall.
  split; [intros Hall (h & -> & Hin); by eapply Hall|eauto].
Qed.

(** ** The toggle of [script.js] *)

Lemma script_toggled_id iso h : id (Script.toggled iso h) = id h.
Proof. unfold Script.toggled. by destruct (completed h). Qed.

Lemma script_toggled_consistent iso h : completedAt_consistent (Script.toggled iso h).
Proof.
  unfold completedAt_consistent, Script.toggled.
  destruct (completed h); simpl; split; by intros H.
Qed.

Lemma script_toggled_twice iso1 iso2 h :
  Script.toggled iso2 (Script.toggled iso1 h)
  = Habit (id h) (name h) (category h) (completed h) (createdAt h)
          (if completed h then Some iso2 else None) (streak h + 1).
Proof. unfold Script.toggled. by destruct (completed h). Qed.

Lemma script_step_consistent habits a :
  Forall completedAt_consistent habits →
  Forall completedAt_consistent (Script.step habits a).
Proof.
  intros Hall. destruct a as [value cat now iso|habitId iso|habitId confirmed]; simpl.
  - unfold Script.handleAddHabit. repeat case_match; simpl; try done.
    apply Forall_app; split; [done|]. apply Forall_singleton.
    unfold completedAt_consistent; simpl. split; [done|by intros [? ?]].
  - unfold Script.toggleHabitComplete.
    destruct (find_habit habitId habits) as [[i h]|]; [|done].
    apply Forall_insert; [done|]. apply script_toggled_consistent.
  - unfold Script.deleteHabit.
    destruct (find_habit habitId habits) as [[i h]|]; [|done].
    destruct confirmed; simpl; [|done]. by apply Forall_delete.
Qed.

(** The invariant [completed ⟺ completedAt present] on [script.js]: every
    handler preserves it, and so it holds of every habit of every collection
    built from the empty one. *)
Theorem script_completedAt_invariant :
  (∀ habits a, Forall completedAt_consistent habits →
               Forall completedAt_consistent (Script.step habits a)) ∧
  (∀ habits, Script.reachable habits → Forall completedAt_consistent habits).
Proof.
  split; [apply script_step_consistent|].
  induction 1; [constructor|]. by apply script_step_consistent.
Qed.

Lemma run_reachable actions : Script.reachable (run actions).
Proof.
  unfold run. generalize (@nil habit), Script.reachable_empty.
  induction actions as [|a actions IH]; intros habits Hreach; [done|].
  simpl. apply IH. by constructor.
Qed.

Lemma trim_drink_water : trim drink_water = drink_water.
Proof. by vm_compute. Qed.

Lemma trim_read_a_book : trim read_a_book = read_a_book.
Proof. by vm_compute. Qed.

(** ** Adding a habit *)

Lemma script_handleAddHabit_valid value cat now iso habits :
  (3 ≤ length (trim value) ≤ 50)%nat →
  Script.handleAddHabit value cat now iso habits
  = (habits ++ [Habit now (trim value) cat false iso None 0], Added).
Proof.
  intros Hlen. unfold Script.handleAddHabit.
  destruct (decide (trim value = [])) as [Hnil|_].
  { rewrite Hnil in Hlen. simpl in Hlen. lia. }
  destruct (Nat.ltb_spec (length (trim value)) 3); [lia|].
  destruct (Nat.ltb_spec 50 (length (trim value))); [lia|done].
Qed.

Lemma part000_addHabit_valid value cat now iso habits :
  (3 ≤ length (trim value))%nat →
  Part000.addHabit value cat now iso habits
  = (habits ++ [Habit now (trim value) cat false iso None 0], Added).
Proof.
  intros Hlen. unfold Part000.addHabit.
  destruct (decide (trim value = [])) as [Hnil|_].
  { rewrite Hnil in Hlen. simpl in Hlen. lia. }
  destruct (Nat.ltb_spec (length (trim value)) 3); [lia|done].
Qed.

Lemma part000_add_then_toggle now iso :
  Part000.step (Part000.step [] (Part000.Add drink_water health now iso))
               (Part000.Toggle now)
  = [Habit now drink_water health true iso None 1].
Proof.
  unfold Part000.step.
  rewrite part000_addHabit_valid by (rewrite trim_drink_water; simpl; lia).
  rewrite trim_drink_water. unfold Part000.toggleComplete, find_habit. simpl.
  rewrite decide_True by done. done.
Qed.

(** C1: in the variant [part_000] the invariant [completed ⟺ completedAt
    present] breaks: after adding "Drink Water" and toggling it, the one
    habit of the collection is completed and has no [completedAt]. *)
Theorem part000_completed_without_completedAt (now : Z) (iso : jsstring) :
  let habits := Part000.step (Part000.step [] (Part000.Add drink_water health now iso))
                             (Part000.Toggle now) in
  Part000.reachable habits ∧
  habits = [Habit now drink_water health true iso None 1] ∧
  ¬ Forall completedAt_consistent habits.
Proof.
  split_and!.
  - do 2 constructor. constructor.
  - apply part000_add_then_toggle.
  - rewrite part000_add_then_toggle.
    intros [H _]%Forall_cons. unfold completedAt_consistent in H; simpl in H.
    destruct H as [H _]. by destruct (H eq_refl).
Qed.

(** ** Ids *)

Lemma ids_insert_same_id habits i h h' :
  habits !! i = Some h → id h' = id h → ids (<[i := h']> habits) = ids habits.
Proof.
  intros Hi Hid. unfold ids. rewrite list_fmap_insert, Hid.
  apply list_insert_id. by rewrite list_lookup_fmap, Hi.
Qed.

Lemma script_toggle_ids habitId iso habits :
  ids (Script.toggleHabitComplete habitId iso habits) = ids habits.
Proof.
  unfold Script.toggleHabitComplete.
  destruct (find_habit habitId habits) as [[i h]|] eqn:Hfind; [|done].
  apply find_habit_Some in Hfind as [Hi _].
  eapply ids_insert_same_id; [done|]. apply script_toggled_id.
Qed.

(** [script.js]: ids stay pairwise distinct as long as every add reads a
    clock value that is not yet an id of the collection. *)
Theorem script_step_distinct_ids habits a :
  NoDup (ids habits) →
  (∀ value cat now iso, a = Script.Add value cat now iso → now ∉ ids habits) →
  NoDup (ids (Script.step habits a)).
Proof.
  intros Hnodup Hfresh.
  destruct a as [value cat now iso|habitId iso|habitId confirmed]; simpl.
  - unfold Script.handleAddHabit. repeat case_match; simpl; try done.
    unfold ids. rewrite fmap_app. apply NoDup_app. split_and!; [done| |].
    + intros x Hx [->|[]%elem_of_nil]%elem_of_cons. by eapply Hfresh.
    + apply NoDup_singleton.
  - by rewrite script_toggle_ids.
  - unfold Script.deleteHabit.
    destruct (find_habit habitId habits) as [[i h]|]; [|done].
    destruct confirmed; simpl; [|done].
    unfold ids. rewrite list_fmap_delete.
    eapply sublist_NoDup; [done|]. apply sublist_delete.
Qed.

Lemma script_step_distinct_ids_witness :
  NoDup (ids [Habit 1 drink_water health false iso_sample None 0]) ∧
  (2 ∉ ids [Habit 1 drink_water health false iso_sample None 0]) ∧
  NoDup (ids (Script.step [Habit 1 drink_water health false iso_sample None 0]
                          (Script.Add read_a_book learning 2 iso_sample))).
Proof.
  assert (2 ∉ ids [Habit 1 drink_water health false iso_sample None 0]) as Hfresh.
  { simpl. intros [[=]|[]%elem_of_nil]%elem_of_cons. }
  split_and!; [apply NoDup_singleton|done|].
  apply script_step_distinct_ids.
  - apply NoDup_singleton.
  - by intros value cat now iso [= _ _ <- _].
Defined.

(** C2: two adds at one reading of [Date.now()] give two habits with the
    same id, in [script.js] and in [part_000] alike; nothing in either
    [add] looks at the ids already present. *)
Theorem add_twice_at_one_clock_reading (now : Z) (iso : jsstring) :
  let habits := Script.step (Script.step [] (Script.Add drink_water health now iso))
                            (Script.Add read_a_book learning now iso) in
  let habits' := Part000.step (Part000.step [] (Part000.Add drink_water health now iso))
                              (Part000.Add read_a_book learning now iso) in
  Script.reachable habits ∧ ids habits = [now; now] ∧ ¬ NoDup (ids habits) ∧
  Part000.reachable habits' ∧ ids habits' = [now; now] ∧ ¬ NoDup (ids habits').
Proof.
  assert (∀ l : list Z, l = [now; now] → ¬ NoDup l) as Hdup.
  { intros l -> [Hin _]%NoDup_cons. apply Hin. by left. }
  assert (ids (Script.step (Script.step [] (Script.Add drink_water health now iso))
                           (Script.Add read_a_book learning now iso)) = [now; now]) as H1.
  { unfold Script.step.
    rewrite !script_handleAddHabit_valid
      by (rewrite ?trim_drink_water, ?trim_read_a_book; simpl; lia). done. }
  assert (ids (Part000.step (Part000.step [] (Part000.Add drink_water health now iso))
                            (Part000.Add read_a_book learning now iso)) = [now; now]) as H2.
  { unfold Part000.step.
    rewrite !part000_addHabit_valid
      by (rewrite ?trim_drink_water, ?trim_read_a_book; simpl; lia). done. }
  split_and!; auto.
  - do 2 constructor. constructor.
  - do 2 constructor. constructor.
Qed.

(** ** The upper bound on the name *)

(** [script.js]: a name whose trimmed length exceeds 50 is refused with the
    "too long" error, and the collection is the one passed in. *)
Theorem script_rejects_long_name value cat now iso habits :
  (50 < length (trim value))%nat →
  Script.handleAddHabit value cat now iso habits = (habits, TooLong).
Proof.
  intros Hlen. unfold Script.handleAddHabit.
  destruct (decide (trim value = [])) as [Hnil|_].
  { rewrite Hnil in Hlen. simpl in Hlen. lia. }
  destruct (Nat.ltb_spec (length (trim value)) 3); [lia|].
  destruct (Nat.ltb_spec 50 (length (trim value))); [done|lia].
Qed.

Lemma trim_name51 : trim name51 = name51.
Proof. by vm_compute. Qed.

Lemma script_rejects_long_name_witness :
  (50 < length (trim name51))%nat ∧
  Script.handleAddHabit name51 health 0 iso_sample [] = ([], TooLong).
Proof.
  assert (50 < length (trim name51))%nat as Hlen.
  { rewrite trim_name51. vm_compute. lia. }
  split; [done|]. by apply script_rejects_long_name.
Defined.

(** [script.js]: a name of trimmed length 3 to 50 is accepted: the
    collection grows by one habit, appended, which carries the trimmed name
    and the category, is not completed, has no [completedAt] and a streak
    of 0. *)
Theorem script_accepts_valid_name value cat now iso habits :
  (3 ≤ length (trim value) ≤ 50)%nat →
  ∃ h,
    Script.handleAddHabit value cat now iso habits = (habits ++ [h], Added) ∧
    length (habits ++ [h]) = S (length habits) ∧
    last (habits ++ [h]) = Some h ∧
    h = Habit now (trim value) cat false iso None 0.
Proof.
  intros Hlen. eexists. split_and!; [by apply script_handleAddHabit_valid| | |done].
  - rewrite length_app. simpl. lia.
  - apply last_snoc.
Qed.

Lemma script_accepts_valid_name_witness :
  (3 ≤ length (trim drink_water) ≤ 50)%nat ∧
  ∃ h,
    Script.handleAddHabit drink_water health 7 iso_sample [] = ([] ++ [h], Added) ∧
    length ([] ++ [h]) = 1%nat ∧
    last ([] ++ [h]) = Some h ∧
    h = Habit 7 (trim drink_water) health false iso_sample None 0.
Proof.
  assert (3 ≤ length (trim drink_water) ≤ 50)%nat as Hlen.
  { rewrite trim_drink_water. vm_compute. lia. }
  split; [done|]. by apply script_accepts_valid_name.
Defined.

(** [script.js]: a name that is empty after trimming is refused as empty,
    one of trimmed length 1 or 2 as too short; the collection is the one
    passed in. *)
Theorem script_rejects_short_name value cat now iso habits :
  (length (trim value) < 3)%nat →
  Script.handleAddHabit value cat now iso habits
  = (habits, if decide (length (trim value) = 0%nat) then EmptyName else TooShort).
Proof.
  intros Hlen. unfold Script.handleAddHabit.
  destruct (decide (trim value = [])) as [Hnil|Hcons].
  - by rewrite Hnil.
  - destruct (trim value) as [|c name] eqn:Hname; [done|].
    destruct (Nat.ltb_spec (length (c :: name)) 3); [done|lia].
Qed.

Lemma script_rejects_short_name_witness :
  (length (trim [32; 104; 105; 32]%N) < 3)%nat ∧
  Script.handleAddHabit [32; 104; 105; 32]%N health 7 iso_sample [] = ([], TooShort).
Proof.
  assert (length (trim [32; 104; 105; 32]%N) < 3)%nat as Hlen.
  { vm_compute. lia. }
  split; [done|]. by apply script_rejects_short_name.
Defined.

(** C3: the [addHabit] of [part_000] has no upper bound: a name of 51
    code units (51 after trimming too) is accepted and appended. *)
Theorem part000_accepts_name_of_51 cat now iso habits :
  length (trim name51) = 51%nat ∧
  Part000.addHabit name51 cat now iso habits
  = (habits ++ [Habit now name51 cat false iso None 0], Added).
Proof.
  split; [by rewrite trim_name51|].
  rewrite part000_addHabit_valid by (rewrite trim_name51; vm_compute; lia).
  by rewrite trim_name51.
Qed.

(** ** One toggle *)

(** [script.js]: a toggle of an id no habit has changes nothing; otherwise
    the first habit with the id is replaced, in place, by its toggled
    version: completed, with [completedAt] set and the streak raised by one,
    when it was incomplete; incomplete, with [completedAt] cleared and the
    streak kept, when it was completed. *)
Theorem script_toggle_once habits habitId iso :
  (habitId ∉ ids habits → Script.toggleHabitComplete habitId iso habits = habits) ∧
  (∀ i h, find_habit habitId habits = Some (i, h) →
     Script.toggleHabitComplete habitId iso habits
     = <[i := if completed h
              then Habit (id h) (name h) (category h) false (createdAt h) None (streak h)
              else Habit (id h) (name h) (category h) true (createdAt h) (Some iso)
                         (streak h + 1)]> habits).
Proof.
  unfold Script.toggleHabitComplete. split.
  - intros Habsent%find_habit_None. by rewrite Habsent.
  - intros i h ->. unfold Script.toggled. by destruct (completed h).
Qed.

Lemma script_step_streak habits a :
  Forall (λ h, 0 ≤ streak h) habits → Forall (λ h, 0 ≤ streak h) (Script.step habits a).
Proof.
  intros Hall. destruct a as [value cat now iso|habitId iso|habitId confirmed]; simpl.
  - unfold Script.handleAddHabit. repeat case_match; simpl; try done.
    apply Forall_app; split; [done|]. by apply Forall_singleton.
  - unfold Script.toggleHabitComplete.
    destruct (find_habit habitId habits) as [[i h]|] eqn:Hfind; [|done].
    apply find_habit_Some in Hfind as [Hi _].
    apply Forall_insert; [done|].
    pose proof (Forall_lookup_1 _ _ _ _ Hall Hi) as Hh. simpl in Hh.
    unfold Script.toggled. destruct (completed h); simpl; lia.
  - unfold Script.deleteHabit.
    destruct (find_habit habitId habits) as [[i h]|]; [|done].
    destruct confirmed; simpl; [|done]. by apply Forall_delete.
Qed.

(** [script.js]: no streak of a reachable collection is negative. *)
Theorem script_streak_nonnegative habits :
  Script.reachable habits → Forall (λ h, 0 ≤ streak h) habits.
Proof. induction 1; [constructor|]. by apply script_step_streak. Qed.

Lemma script_streak_nonnegative_witness :
  Script.reachable (run (adds_then_toggles 2 1)) ∧
  Forall (λ h, 0 ≤ streak h) (run (adds_then_toggles 2 1)).
Proof.
  split; [apply run_reachable|].
  apply script_streak_nonnegative, run_reachable.
Defined.

(** ** Safe integers: the [+ 1] of the doubles *)

Lemma digits2_pos_spec p :
  2 ^ (Z.pos (digits2_pos p) - 1) ≤ Z.pos p < 2 ^ Z.pos (digits2_pos p).
Proof.
  induction p as [p IH|p IH|]; simpl digits2_pos.
  - rewrite Pos2Z.inj_succ. replace (Z.succ (Z.pos (digits2_pos p)) - 1)
      with (Z.succ (Z.pos (digits2_pos p) - 1)) by lia.
    rewrite !Z.pow_succ_r by lia. lia.
  - rewrite Pos2Z.inj_succ. replace (Z.succ (Z.pos (digits2_pos p)) - 1)
      with (Z.succ (Z.pos (digits2_pos p) - 1)) by lia.
    rewrite !Z.pow_succ_r by lia. lia.
  - by vm_compute.
Qed.

Lemma digits2_pos_unique p d :
  2 ^ (d - 1) ≤ Z.pos p < 2 ^ d → 0 < d → Z.pos (digits2_pos p) = d.
Proof.
  intros [Hlo Hhi] Hd. pose proof (digits2_pos_spec p) as [Hlo' Hhi'].
  destruct (Z.lt_trichotomy (Z.pos (digits2_pos p)) d) as [Hlt|[Heq|Hgt]]; [|done|].
  - assert (2 ^ Z.pos (digits2_pos p) ≤ 2 ^ (d - 1)) by (apply Z.pow_le_mono_r; lia). lia.
  - assert (2 ^ d ≤ 2 ^ (Z.pos (digits2_pos p) - 1)) by (apply Z.pow_le_mono_r; lia). lia.
Qed.

Lemma iter_xO_value p k : Z.pos (Pos.iter xO p k) = Z.pos p * 2 ^ Z.pos k.
Proof.
  induction k as [|k IH] using Pos.peano_ind.
  - simpl. lia.
  - rewrite Pos.iter_succ, Pos2Z.inj_xO, IH, Pos2Z.inj_succ, Z.pow_succ_r by lia. lia.
Qed.

Lemma iter_pos_iter {A} (f : A → A) n x : SpecFloat.iter_pos f n x = Pos.iter f x n.
Proof.
  revert x. induction n as [n IH|n IH|]; intros x; simpl.
  - by rewrite !IH, <- !Pos.iter_swap.
  - by rewrite !IH.
  - done.
Qed.

Lemma iter_shr_1 r k :
  SpecFloat.iter_pos shr_1 k (Build_shr_record (Z.pos (Pos.iter xO r k)) false false)
  = Build_shr_record (Z.pos r) false false.
Proof.
  rewrite iter_pos_iter. induction k as [|k IH] using Pos.peano_ind.
  - done.
  - rewrite (Pos.iter_succ k _ xO), Pos.iter_succ_r. simpl shr_1. apply IH.
Qed.

Lemma iter_shr_1_value m r k :
  Z.pos m = Z.pos r * 2 ^ Z.pos k →
  SpecFloat.iter_pos shr_1 k (Build_shr_record (Z.pos m) false false)
  = Build_shr_record (Z.pos r) false false.
Proof.
  intros Hm. rewrite <- iter_xO_value in Hm. injection Hm as ->. apply iter_shr_1.
Qed.

(** A mantissa of 53 digits is left as it is. *)
Lemma binary_round_aux_normal s r e :
  digits2_pos r = 53%positive → -1074 ≤ e ≤ 971 →
  binary_round_aux prec64 emax64 s (Z.pos r) e loc_Exact = S754_finite s r e.
Proof.
  intros Hd He.
  assert (shr_fexp prec64 emax64 (Z.pos r) e loc_Exact
          = (Build_shr_record (Z.pos r) false false, e)) as Hshr.
  { unfold shr_fexp, fexp, emin, prec64, emax64. simpl Zdigits2. rewrite Hd.
    replace (Z.max (53 + e - 53) (3 - 1024 - 53) - e) with 0 by lia. done. }
  unfold binary_round_aux. rewrite Hshr. simpl. rewrite Hshr. simpl.
  unfold emax64, prec64. destruct (Z.leb_spec e (1024 - 53)); [done|lia].
Qed.

(** A longer mantissa whose low digits are zeros loses them, exactly. *)
Lemma binary_round_aux_shift s m r k e :
  digits2_pos r = 53%positive → Z.pos m = Z.pos r * 2 ^ Z.pos k →
  -1074 ≤ e + Z.pos k ≤ 971 →
  binary_round_aux prec64 emax64 s (Z.pos m) e loc_Exact = S754_finite s r (e + Z.pos k).
Proof.
  intros Hd Hm He.
  assert (Z.pos (digits2_pos m) = 53 + Z.pos k) as Hdm.
  { apply digits2_pos_unique; [|lia]. pose proof (digits2_pos_spec r) as Hr.
    rewrite Hd in Hr. rewrite Hm.
    replace (53 + Z.pos k - 1) with (52 + Z.pos k) by lia.
    rewrite !Z.pow_add_r by lia. change (53 - 1) with 52 in Hr. nia. }
  assert (shr_fexp prec64 emax64 (Z.pos m) e loc_Exact
          = (Build_shr_record (Z.pos r) false false, e + Z.pos k)) as Hshr.
  { unfold shr_fexp, fexp, emin, prec64, emax64. simpl Zdigits2. rewrite Hdm.
    replace (Z.max (53 + Z.pos k + e - 53) (3 - 1024 - 53) - e) with (Z.pos k) by lia.
    simpl shr_record_of_loc. unfold shr. by rewrite (iter_shr_1_value m r k). }
  assert (shr_fexp prec64 emax64 (Z.pos r) (e + Z.pos k) loc_Exact
          = (Build_shr_record (Z.pos r) false false, e + Z.pos k)) as Hshr'.
  { unfold shr_fexp, fexp, emin, prec64, emax64. simpl Zdigits2. rewrite Hd.
    replace (Z.max (53 + (e + Z.pos k) - 53) (3 - 1024 - 53) - (e + Z.pos k)) with 0 by lia.
    done. }
  unfold binary_round_aux. rewrite Hshr. simpl. rewrite Hshr'. simpl.
  unfold emax64, prec64. destruct (Z.leb_spec (e + Z.pos k) (1024 - 53)); [done|lia].
Qed.

Lemma binary_round_exact s p e0 r e :
  digits2_pos r = 53%positive → -1074 ≤ e ≤ 971 →
  (e ≤ e0 ∧ Z.pos p * 2 ^ (e0 - e) = Z.pos r) ∨
  (e0 < e ∧ Z.pos p = Z.pos r * 2 ^ (e - e0)) →
  binary_round prec64 emax64 s p e0 = S754_finite s r e.
Proof.
  intros Hd He Hval. pose proof (digits2_pos_spec r) as Hr. rewrite Hd in Hr.
  change (53 - 1) with 52 in Hr. unfold binary_round.
  destruct Hval as [[Hle Hval]|[Hlt Hval]].
  - assert (e0 - e ≤ 52) as Hj.
    { destruct (Z.le_gt_cases (e0 - e) 52) as [|Hgt]; [done|].
      assert (2 ^ 53 ≤ 2 ^ (e0 - e)) by (apply Z.pow_le_mono_r; lia). nia. }
    assert (2 ^ 53 = 2 ^ (53 - (e0 - e)) * 2 ^ (e0 - e)) as H53.
    { rewrite <- Z.pow_add_r by lia. f_equal. lia. }
    assert (2 ^ 52 = 2 ^ (52 - (e0 - e)) * 2 ^ (e0 - e)) as H52.
    { rewrite <- Z.pow_add_r by lia. f_equal. lia. }
    assert (0 < 2 ^ (e0 - e)) as Hpos by (apply Z.pow_pos_nonneg; lia).
    assert (Z.pos (digits2_pos p) = 53 - (e0 - e)) as Hdp.
    { apply digits2_pos_unique; [|lia].
      replace (53 - (e0 - e) - 1) with (52 - (e0 - e)) by lia. nia. }
    rewrite Hdp. unfold fexp, emin, prec64, emax64.
    replace (Z.max (53 - (e0 - e) + e0 - 53) (3 - 1024 - 53)) with e by lia.
    unfold shl_align. destruct (e - e0) as [|k|k] eqn:Hk; [| lia |].
    + assert (e0 = e) as -> by lia. rewrite Z.sub_diag, Z.mul_1_r in Hval.
      injection Hval as ->. by apply binary_round_aux_normal.
    + assert (Pos.iter xO p k = r) as ->.
      { apply Pos2Z.inj. rewrite iter_xO_value, <- Hval. do 2 f_equal. lia. }
      by apply binary_round_aux_normal.
  - assert (0 < 2 ^ (e - e0)) as Hpos by (apply Z.pow_pos_nonneg; lia).
    assert (Z.pos (digits2_pos p) = 53 + (e - e0)) as Hdp.
    { apply digits2_pos_unique; [|lia]. rewrite Hval.
      replace (53 + (e - e0) - 1) with (52 + (e - e0)) by lia.
      rewrite !Z.pow_add_r by lia. nia. }
    rewrite Hdp. unfold fexp, emin, prec64, emax64.
    replace (Z.max (53 + (e - e0) + e0 - 53) (3 - 1024 - 53)) with e by lia.
    unfold shl_align. destruct (e - e0) as [|k|k] eqn:Hk; [lia| |lia].
    replace e with (e0 + Z.pos k) by lia.
    apply binary_round_aux_shift; [done|done|lia].
Qed.

(** The mantissa and the exponent of a positive safe integer. *)
Lemma safe_normal p :
  Z.pos p < 2 ^ 53 →
  ∃ r e, digits2_pos r = 53%positive ∧ -52 ≤ e ≤ 0 ∧ Z.pos r = Z.pos p * 2 ^ (- e).
Proof.
  intros Hp. pose proof (digits2_pos_spec p) as Hd.
  assert (Z.pos (digits2_pos p) ≤ 53) as Hle.
  { destruct (Z.le_gt_cases (Z.pos (digits2_pos p)) 53) as [|Hgt]; [done|].
    assert (2 ^ 53 ≤ 2 ^ (Z.pos (digits2_pos p) - 1)) by (apply Z.pow_le_mono_r; lia).
    lia. }
  destruct (53 - Z.pos (digits2_pos p)) as [|k|k] eqn:Hk; [| |lia].
  - exists p, 0. split; [|split; [lia|simpl; lia]]. apply Pos2Z.inj. lia.
  - exists (Pos.iter xO p k), (- Z.pos k). rewrite Z.opp_involutive.
    split; [|split; [lia|apply iter_xO_value]].
    apply Pos2Z.inj. apply digits2_pos_unique; [|lia]. rewrite iter_xO_value.
    assert (2 ^ 53 = 2 ^ Z.pos (digits2_pos p) * 2 ^ Z.pos k) as H53.
    { rewrite <- Z.pow_add_r by lia. f_equal. lia. }
    assert (2 ^ (53 - 1) = 2 ^ (Z.pos (digits2_pos p) - 1) * 2 ^ Z.pos k) as H52.
    { rewrite <- Z.pow_add_r by lia. f_equal. lia. }
    assert (0 < 2 ^ Z.pos k) as Hpos by (apply Z.pow_pos_nonneg; lia).
    nia.
Qed.

Lemma shl_align_value m ex ex' :
  ex' ≤ ex → Z.pos (fst (shl_align m ex ex')) = Z.pos m * 2 ^ (ex - ex').
Proof.
  intros Hle. unfold shl_align. destruct (ex' - ex) as [|k|k] eqn:Hk; [|lia|]; simpl.
  - replace (ex - ex') with 0 by lia. lia.
  - rewrite iter_xO_value. do 2 f_equal. lia.
Qed.

Lemma binary_round_safe s p r e :
  digits2_pos r = 53%positive → -52 ≤ e ≤ 0 → Z.pos r = Z.pos p * 2 ^ (- e) →
  binary_round prec64 emax64 s p 0 = S754_finite s r e.
Proof.
  intros Hd He Hr. apply binary_round_exact; [done|lia|]. left. split; [lia|].
  by rewrite Z.sub_0_l.
Qed.

Lemma binary_round_safe_shifted s q p r e :
  digits2_pos r = 53%positive → -52 ≤ e ≤ 0 → Z.pos r = Z.pos p * 2 ^ (- e) →
  Z.pos q = Z.pos p * 2 ^ 52 →
  binary_round prec64 emax64 s q (-52) = S754_finite s r e.
Proof.
  intros Hd He Hr Hq. apply binary_round_exact; [done|lia|].
  assert (2 ^ 52 = 2 ^ (- e) * 2 ^ (e + 52)) as H52.
  { rewrite <- Z.pow_add_r by lia. f_equal. lia. }
  destruct (decide (e = -52)) as [->|Hne].
  - left. split; [lia|]. simpl in *. lia.
  - right. split; [lia|]. replace (e - -52) with (e + 52) by lia. nia.
Qed.

(** Below 2^53 the [+ 1] of the doubles is the [+ 1] of the integers. *)
Lemma Number_add_one z :
  safe_integer z → Number_add (Number_of_Z z) (Number_of_Z 1) = Number_of_Z (z + 1).
Proof.
  unfold safe_integer. intros Hz.
  destruct (decide (z = 2 ^ 53 - 1)) as [->|Hmax]; [by vm_compute|].
  assert (∀ s p, Z.pos p < 2 ^ 53 → cond_Zopp s (Z.pos p) + 1 ≠ 2 ^ 53 →
            Number_add (binary_round prec64 emax64 s p 0) (Number_of_Z 1)
            = Number_of_Z (cond_Zopp s (Z.pos p) + 1)) as Hadd.
  { intros s p Hp Hne. destruct (safe_normal p Hp) as (r & e & Hd & He & Hr).
    rewrite (binary_round_safe s p r e) by done.
    change (Number_of_Z 1) with (S754_finite false 4503599627370496 (-52)).
    unfold Number_add, SFadd. rewrite Z.min_r by lia.
    rewrite !shl_align_value by lia. rewrite Hr, Z.sub_diag.
    assert (2 ^ 52 = 2 ^ (- e) * 2 ^ (e - -52)) as H52.
    { rewrite <- Z.pow_add_r by lia. f_equal. lia. }
    assert (cond_Zopp s (Z.pos p * 2 ^ (- e) * 2 ^ (e - -52))
            + SpecFloat.cond_Zopp false (4503599627370496 * 2 ^ 0)
            = (cond_Zopp s (Z.pos p) + 1) * 2 ^ 52) as ->.
    { destruct s; simpl SpecFloat.cond_Zopp; simpl cond_Zopp; nia. }
    destruct (cond_Zopp s (Z.pos p) + 1) as [|p'|p'] eqn:Hsum.
    - done.
    - assert (Z.pos p' < 2 ^ 53) as Hp' by (destruct s; simpl in *; lia).
      destruct (safe_normal p' Hp') as (r' & e' & Hd' & He' & Hr').
      unfold Number_of_Z. cbn [binary_normalize Z.mul].
      rewrite (binary_round_safe false p' r' e') by done.
      change (Z.pos p' * 2 ^ 52) with (Z.pos (p' * 4503599627370496)).
      cbn [binary_normalize].
      apply (binary_round_safe_shifted false _ p' r' e'); (done || lia).
    - assert (Z.pos p' < 2 ^ 53) as Hp' by (destruct s; simpl in *; lia).
      destruct (safe_normal p' Hp') as (r' & e' & Hd' & He' & Hr').
      unfold Number_of_Z. cbn [binary_normalize Z.mul].
      rewrite (binary_round_safe true p' r' e') by done.
      change (Z.neg p' * 2 ^ 52) with (Z.neg (p' * 4503599627370496)).
      cbn [binary_normalize].
      apply (binary_round_safe_shifted true _ p' r' e'); (done || lia). }
  destruct z as [|p|p].
  - by vm_compute.
  - apply (Hadd false p); simpl; lia.
  - apply (Hadd true p); simpl; lia.
Qed.

(** On safe integers the doubles are the integers: two of them that give
    the same double are equal. *)
Lemma Number_of_Z_inj z1 z2 :
  safe_integer z1 → safe_integer z2 → Number_of_Z z1 = Number_of_Z z2 → z1 = z2.
Proof.
  unfold safe_integer.
  assert (∀ s p, Z.pos p < 2 ^ 53 →
            ∃ r e, Number_of_Z (cond_Zopp s (Z.pos p)) = S754_finite s r e ∧
                   -52 ≤ e ≤ 0 ∧ Z.pos r = Z.pos p * 2 ^ (- e)) as Hnormal.
  { intros s p Hp. destruct (safe_normal p Hp) as (r & e & Hd & He & Hr).
    exists r, e. split; [|done]. destruct s; by apply binary_round_safe. }
  assert (∀ z, Z.abs z < 2 ^ 53 → z ≠ 0 →
            ∃ s p, z = cond_Zopp s (Z.pos p) ∧ Z.pos p < 2 ^ 53) as Hsign.
  { intros [|p|p] Hz Hne; [done|exists false, p|exists true, p]; simpl; split; lia. }
  intros Hz1 Hz2 Heq.
  destruct (decide (z1 = 0)) as [->|Hne1]; destruct (decide (z2 = 0)) as [->|Hne2];
    [done| | |].
  - destruct (Hsign z2 Hz2 Hne2) as (s & p & -> & Hp).
    destruct (Hnormal s p Hp) as (r & e & Hr & _). rewrite Hr in Heq. done.
  - destruct (Hsign z1 Hz1 Hne1) as (s & p & -> & Hp).
    destruct (Hnormal s p Hp) as (r & e & Hr & _). rewrite Hr in Heq. done.
  - destruct (Hsign z1 Hz1 Hne1) as (s1 & p1 & -> & Hp1).
    destruct (Hsign z2 Hz2 Hne2) as (s2 & p2 & -> & Hp2).
    destruct (Hnormal s1 p1 Hp1) as (r1 & e1 & Hr1 & He1 & Hv1).
    destruct (Hnormal s2 p2 Hp2) as (r2 & e2 & Hr2 & He2 & Hv2).
    rewrite Hr1, Hr2 in Heq. injection Heq as -> -> ->.
    assert (0 < 2 ^ (- e2)) by (apply Z.pow_pos_nonneg; lia).
    assert (Z.pos p1 = Z.pos p2) as Hp by nia. by rewrite Hp.
Qed.

(** From 2^53 on it is not: there the [+ 1] is lost, or becomes a [+ 2]. *)
Lemma Number_add_one_unsafe :
  Number_add (Number_of_Z (2 ^ 53)) (Number_of_Z 1) = Number_of_Z (2 ^ 53) ∧
  Number_add (Number_of_Z (2 ^ 53 + 2)) (Number_of_Z 1) = Number_of_Z (2 ^ 53 + 4).
Proof. by vm_compute. Qed.

(** ** Toggling twice *)

Lemma script_toggle_twice_eq habits habitId iso1 iso2 i h :
  find_habit habitId habits = Some (i, h) →
  Script.toggleHabitComplete habitId iso2 (Script.toggleHabitComplete habitId iso1 habits)
  = <[i := Script.toggled iso2 (Script.toggled iso1 h)]> habits.
Proof.
  intros Hfind.
  assert (find_habit habitId (<[i := Script.toggled iso1 h]> habits)
          = Some (i, Script.toggled iso1 h)) as Hfind1.
  { eapply find_habit_insert; [done|].
    apply find_habit_Some in Hfind as [_ Hid]. by rewrite script_toggled_id. }
  unfold Script.toggleHabitComplete at 2. rewrite Hfind.
  unfold Script.toggleHabitComplete. rewrite Hfind1.
  apply list_insert_insert_eq.
Qed.

(** The variant [part_000]: two toggles give back [completed], raise the
    streak by one and never touch [completedAt]. *)
Lemma part000_toggled_twice h :
  Part000.toggled (Part000.toggled h)
  = Habit (id h) (name h) (category h) (completed h) (createdAt h)
          (completedAt h) (streak h + 1).
Proof. unfold Part000.toggled. by destruct (completed h). Qed.

Lemma part000_toggled_id h : id (Part000.toggled h) = id h.
Proof. unfold Part000.toggled. by destruct (completed h). Qed.

Lemma part000_toggle_twice_eq habits habitId i h :
  find_habit habitId habits = Some (i, h) →
  Part000.toggleComplete habitId (Part000.toggleComplete habitId habits)
  = <[i := Part000.toggled (Part000.toggled h)]> habits.
Proof.
  intros Hfind.
  assert (find_habit habitId (<[i := Part000.toggled h]> habits)
          = Some (i, Part000.toggled h)) as Hfind1.
  { eapply find_habit_insert; [done|].
    apply find_habit_Some in Hfind as [_ Hid]. by rewrite part000_toggled_id. }
  unfold Part000.toggleComplete at 2. rewrite Hfind.
  unfold Part000.toggleComplete. rewrite Hfind1.
  apply list_insert_insert_eq.
Qed.

(** C4, on both variants, for a habit that is present and whose streak is
    a safe integer (below 2^53, where the [+ 1] of the doubles is exact):
    two toggles replace the habit, in place, by one with the same
    [completed] flag and a streak exactly one greater, which is the double
    that [streak += 1] computes; the id, the name, the category and
    [createdAt] are kept and nothing else in the collection changes.  In
    [script.js], [completedAt] ends absent when the habit started
    incomplete, and as the time of the second toggle when it started
    completed; in [part_000], which never writes it, it ends as it was. *)
Theorem toggle_twice habits habitId iso1 iso2 i h :
  find_habit habitId habits = Some (i, h) →
  safe_integer (streak h) →
  (∃ h',
     Script.toggleHabitComplete habitId iso2
       (Script.toggleHabitComplete habitId iso1 habits) = <[i := h']> habits ∧
     find_habit habitId (<[i := h']> habits) = Some (i, h') ∧
     completed h' = completed h ∧
     streak h' = streak h + 1 ∧
     Number_of_Z (streak h') = Number_add (Number_of_Z (streak h)) (Number_of_Z 1) ∧
     completedAt h' = (if completed h then Some iso2 else None) ∧
     (id h', name h', category h', createdAt h')
     = (id h, name h, category h, createdAt h)) ∧
  (∃ h',
     Part000.toggleComplete habitId (Part000.toggleComplete habitId habits)
     = <[i := h']> habits ∧
     find_habit habitId (<[i := h']> habits) = Some (i, h') ∧
     completed h' = completed h ∧
     streak h' = streak h + 1 ∧
     Number_of_Z (streak h') = Number_add (Number_of_Z (streak h)) (Number_of_Z 1) ∧
     completedAt h' = completedAt h ∧
     (id h', name h', category h', createdAt h')
     = (id h, name h, category h, createdAt h)).
Proof.
  intros Hfind Hsafe. pose proof (find_habit_Some _ _ _ _ Hfind) as [Hi Hid]. split.
  - exists (Script.toggled iso2 (Script.toggled iso1 h)). split_and!.
    + by apply script_toggle_twice_eq.
    + eapply find_habit_insert; [done|]. by rewrite !script_toggled_id.
    + by rewrite script_toggled_twice.
    + by rewrite script_toggled_twice.
    + rewrite script_toggled_twice. simpl. by rewrite Number_add_one.
    + by rewrite script_toggled_twice.
    + by rewrite script_toggled_twice.
  - exists (Part000.toggled (Part000.toggled h)). split_and!.
    + by apply part000_toggle_twice_eq.
    + eapply find_habit_insert; [done|]. by rewrite !part000_toggled_id.
    + by rewrite part000_toggled_twice.
    + by rewrite part000_toggled_twice.
    + rewrite part000_toggled_twice. simpl. by rewrite Number_add_one.
    + by rewrite part000_toggled_twice.
    + by rewrite part000_toggled_twice.
Qed.

Lemma toggle_twice_witness :
  (∃ h',
     Script.toggleHabitComplete 7 [50]%N
       (Script.toggleHabitComplete 7 [49]%N
          [Habit 7 drink_water health true [48]%N (Some [48]%N) 1])
     = <[0%nat := h']> [Habit 7 drink_water health true [48]%N (Some [48]%N) 1] ∧
     find_habit 7 (<[0%nat := h']> [Habit 7 drink_water health true [48]%N (Some [48]%N) 1])
     = Some (0%nat, h') ∧
     completed h' = true ∧
     streak h' = 1 + 1 ∧
     Number_of_Z (streak h') = Number_add (Number_of_Z 1) (Number_of_Z 1) ∧
     completedAt h' = Some [50]%N ∧
     (id h', name h', category h', createdAt h') = (7, drink_water, health, [48]%N)) ∧
  (∃ h',
     Part000.toggleComplete 7
       (Part000.toggleComplete 7
          [Habit 7 drink_water health true [48]%N (Some [48]%N) 1])
     = <[0%nat := h']> [Habit 7 drink_water health true [48]%N (Some [48]%N) 1] ∧
     find_habit 7 (<[0%nat := h']> [Habit 7 drink_water health true [48]%N (Some [48]%N) 1])
     = Some (0%nat, h') ∧
     completed h' = true ∧
     streak h' = 1 + 1 ∧
     Number_of_Z (streak h') = Number_add (Number_of_Z 1) (Number_of_Z 1) ∧
     completedAt h' = Some [48]%N ∧
     (id h', name h', category h', createdAt h') = (7, drink_water, health, [48]%N)).
Proof.
  apply (toggle_twice
           [Habit 7 drink_water health true [48]%N (Some [48]%N) 1] 7 [49]%N [50]%N 0
           (Habit 7 drink_water health true [48]%N (Some [48]%N) 1)).
  - reflexivity.
  - by vm_compute.
Defined.

(** C4 as the specification words it, refuted on [script.js]: a
    habit that starts completed (as [add] then [toggle] leave it) has a
    [completedAt] after two more toggles. *)
Lemma script_toggle_twice_completedAt_present :
  let habits := Script.step (Script.step [] (Script.Add drink_water health 7 [48]%N))
                            (Script.Toggle 7 [49]%N) in
  Script.reachable habits ∧
  habits = [Habit 7 drink_water health true [48]%N (Some [49]%N) 1] ∧
  Script.toggleHabitComplete 7 [51]%N (Script.toggleHabitComplete 7 [50]%N habits)
  = [Habit 7 drink_water health true [48]%N (Some [51]%N) 2] ∧
  ¬ (∀ h, h ∈ Script.toggleHabitComplete 7 [51]%N
                (Script.toggleHabitComplete 7 [50]%N habits) →
          completedAt h = None).
Proof.
  assert (Script.step (Script.step [] (Script.Add drink_water health 7 [48]%N))
                      (Script.Toggle 7 [49]%N)
          = [Habit 7 drink_water health true [48]%N (Some [49]%N) 1]) as Heq.
  { unfold Script.step.
    rewrite script_handleAddHabit_valid by (rewrite trim_drink_water; simpl; lia).
    rewrite trim_drink_water. reflexivity. }
  split_and!.
  - do 2 constructor. constructor.
  - done.
  - by rewrite Heq.
  - rewrite Heq. intros Hall.
    specialize (Hall (Habit 7 drink_water health true [48]%N (Some [51]%N) 2)).
    discriminate Hall. by left.
Qed.

(** ** Deleting *)

Lemma filter_Forall_id {A} (P : A → Prop) `{!∀ x, Decision (P x)} (l : list A) :
  Forall P l → filter P l = l.
Proof.
  induction 1 as [|x l Hx _ IH]; [done|].
  rewrite filter_cons, decide_True by done. by rewrite IH.
Qed.

(** With distinct ids, the [splice] of [script.js] and the [filter] of
    [part_000] remove the same habit. *)
Lemma delete_first_is_filter habits habitId i h :
  NoDup (ids habits) →
  find_habit habitId habits = Some (i, h) →
  delete i habits = filter (λ h, id h ≠ habitId) habits.
Proof.
  unfold find_habit, ids. revert i.
  induction habits as [|x habits IH]; intros i Hnodup Hfind; [done|].
  rewrite fmap_cons in Hnodup. apply NoDup_cons in Hnodup as [Hx Hnodup].
  rewrite filter_cons. simpl in Hfind. destruct (decide (id x = habitId)) as [Heq|Hne].
  - simplify_eq/=. rewrite decide_False by (by intros ?).
    symmetry. apply filter_Forall_id. apply Forall_forall. intros y Hy Heq.
    apply Hx. rewrite <- Heq. apply list_elem_of_fmap. eauto.
  - rewrite decide_True by done.
    destruct (list_find _ habits) as [[j y]|] eqn:Hj; simplify_eq/=.
    f_equal. by eapply IH.
Qed.

(** C7, as the code has it: [deleteHabit] leaves the collection alone
    when no habit has the id and when the user declines the prompt; when a
    habit has the id and the user accepts, [script.js] removes the first
    such habit and [part_000] every such habit (the same thing when ids are
    distinct), all other habits staying in order. *)
Theorem deleteHabit_needs_confirmation habits habitId confirmed :
  (habitId ∉ ids habits →
     Script.deleteHabit habitId confirmed habits = habits ∧
     Part000.deleteHabit habitId confirmed habits = habits) ∧
  Script.deleteHabit habitId false habits = habits ∧
  Part000.deleteHabit habitId false habits = habits ∧
  (∀ i h, find_habit habitId habits = Some (i, h) →
     Script.deleteHabit habitId true habits = (take i habits ++ drop (S i) habits) ∧
     (Part000.deleteHabit habitId true habits = filter (λ h, id h ≠ habitId) habits) ∧
     (habitId ∉ ids (Part000.deleteHabit habitId true habits)) ∧
     (NoDup (ids habits) →
        Script.deleteHabit habitId true habits = Part000.deleteHabit habitId true habits)).
Proof.
  unfold Script.deleteHabit, Part000.deleteHabit. split_and!.
  - intros Habsent%find_habit_None. by rewrite Habsent.
  - by destruct (find_habit habitId habits) as [[i h]|].
  - by destruct (find_habit habitId habits) as [[i h]|].
  - intros i h Hfind. rewrite Hfind. simpl. split_and!.
    + apply delete_take_drop.
    + done.
    + unfold ids. rewrite list_elem_of_fmap. intros (y & -> & Hy).
      apply list_elem_of_filter in Hy as [Hne _]. by apply Hne.
    + intros Hnodup. by eapply delete_first_is_filter.
Qed.

(** C7 as the specification words it, refuted: on a collection
    that holds the id, the outcome of [deleteHabit] differs with the answer to
    the prompt, and a declined prompt leaves the habit in place. *)
Lemma deleteHabit_declined_keeps_habit :
  let habits := [Habit 7 drink_water health false [48]%N None 0] in
  7 ∈ ids habits ∧
  Script.deleteHabit 7 false habits = habits ∧
  Script.deleteHabit 7 true habits = [] ∧
  Part000.deleteHabit 7 false habits = habits ∧
  Part000.deleteHabit 7 true habits = [] ∧
  ¬ (∀ c1 c2, Script.deleteHabit 7 c1 habits = Script.deleteHabit 7 c2 habits).
Proof.
  split_and!; try reflexivity.
  - by left.
  - intros Hsame. discriminate (Hsame false true).
Qed.

(** ** Filtering *)

Lemma length_filter_complement {A} (P : A → Prop) `{!∀ x, Decision (P x)} (l : list A) :
  (length (filter P l) + length (filter (λ x, ¬ P x) l) = length l)%nat.
Proof.
  induction l as [|x l IH]; [done|].
  rewrite !filter_cons. destruct (decide (P x)).
  - rewrite decide_False by auto. simpl. lia.
  - rewrite decide_True by auto. simpl. lia.
Qed.

Lemma getFilteredHabits_active habits :
  getFilteredHabits (js "active") habits = filter (λ h, ¬ completed h) habits.
Proof. reflexivity. Qed.

Lemma getFilteredHabits_completed habits :
  getFilteredHabits (js "completed") habits = filter (λ h, completed h) habits.
Proof. reflexivity. Qed.

(** C8: the active and the completed habits are subsequences of the
    collection, every habit is in one of them, no habit is in both, and the
    filter "all" gives the collection itself. *)
Theorem getFilteredHabits_partition habits :
  let active := getFilteredHabits (js "active") habits in
  let finished := getFilteredHabits (js "completed") habits in
  sublist active habits ∧
  sublist finished habits ∧
  (∀ h, h ∈ habits ↔ h ∈ active ∨ h ∈ finished) ∧
  (∀ h, h ∈ active → h ∈ finished → False) ∧
  (∀ h, h ∈ active ↔ h ∈ habits ∧ completed h = false) ∧
  (∀ h, h ∈ finished ↔ h ∈ habits ∧ completed h = true) ∧
  (length finished + length active = length habits)%nat ∧
  getFilteredHabits (js "all") habits = habits ∧
  (∀ currentFilter,
     currentFilter ≠ js "active" → currentFilter ≠ js "completed" →
     getFilteredHabits currentFilter habits = habits).
Proof.
  cbv zeta. rewrite getFilteredHabits_active, getFilteredHabits_completed.
  assert (∀ h, h ∈ filter (λ h, ¬ completed h) habits ↔ h ∈ habits ∧ completed h = false) as Ha.
  { intros h. rewrite list_elem_of_filter.
    destruct (completed h); simpl; split; intros [? ?]; try done; by split; auto. }
  assert (∀ h, h ∈ filter (λ h, completed h) habits ↔ h ∈ habits ∧ completed h = true) as Hd.
  { intros h. rewrite list_elem_of_filter.
    destruct (completed h); simpl; split; intros [? ?]; try done; by split; auto. }
  split_and!; try done.
  - apply sublist_filter.
  - apply sublist_filter.
  - intros h. rewrite Ha, Hd. destruct (completed h); intuition congruence.
  - intros h [_ H1]%Ha [_ H2]%Hd. congruence.
  - apply length_filter_complement.
  - intros currentFilter Ha' Hd'. unfold getFilteredHabits.
    by rewrite !decide_False by done.
Qed.

(** ** Statistics *)

Lemma Math_max_ge x xs : x ≤ Math_max x xs ∧ ∀ y, y ∈ xs → y ≤ Math_max x xs.
Proof.
  unfold Math_max. revert x. induction xs as [|z xs IH]; intros x; simpl.
  - split; [lia|]. by intros y ?%elem_of_nil.
  - destruct (IH (Z.max x z)) as [H1 H2]. split; [lia|].
    intros y [->|Hy]%elem_of_cons; [lia|auto].
Qed.

Lemma Math_max_elem x xs : Math_max x xs ∈ x :: xs.
Proof.
  unfold Math_max. revert x. induction xs as [|z xs IH]; intros x; simpl.
  - by left.
  - specialize (IH (Z.max x z)). apply elem_of_cons in IH as [Heq|Hin].
    + rewrite Heq. destruct (Z.max_spec x z) as [[_ ->]|[_ ->]].
      * right. by left.
      * by left.
    + right. by right.
Qed.

Lemma binary_round_aux_sign prec emax sx mx ex lx :
  sign_is sx (binary_round_aux prec emax sx mx ex lx).
Proof.
  unfold binary_round_aux.
  destruct (shr_fexp prec emax mx ex lx) as [mrs' e'].
  destruct (shr_fexp prec emax _ e' loc_Exact) as [mrs'' e''].
  destruct (shr_m mrs''); simpl; [done| |done].
  by destruct (e'' <=? emax - prec).
Qed.

Lemma Number_of_Z_sign z : 0 ≤ z → sign_is false (Number_of_Z z).
Proof.
  intros Hz. unfold Number_of_Z, binary_normalize. destruct z as [|m|m]; [done| |lia].
  unfold binary_round. destruct (shl_align _ _ _) as [mz ez].
  apply binary_round_aux_sign.
Qed.

Lemma Number_div_sign x y :
  sign_is false x → sign_is false y → sign_is false (Number_div x y).
Proof.
  unfold Number_div, SFdiv.
  destruct x as [sx|sx| |sx mx ex], y as [sy|sy| |sy my ey]; simpl;
    intros; subst; try done.
  destruct (SFdiv_core_binary _ _ _ _ _ _) as [[mz ez] lz].
  apply (binary_round_aux_sign prec64 emax64 false).
Qed.

Lemma Number_mul_sign x y :
  sign_is false x → sign_is false y → sign_is false (Number_mul x y).
Proof.
  unfold Number_mul, SFmul.
  destruct x as [sx|sx| |sx mx ex], y as [sy|sy| |sy my ey]; simpl;
    intros; subst; try done.
  apply (binary_round_aux_sign prec64 emax64 false).
Qed.

(** On a Number that is not negative, ties towards +∞ and ties away from
    zero are the same rule. *)
Lemma Math_round_half_away x :
  sign_is false x → Math_round x = round_half_away_from_zero x.
Proof. destruct x as [s|s| |s m e]; simpl; intros; by subst. Qed.

Lemma updateProgressBar_sign total completed :
  sign_is false (Number_mul (Number_div (Number_of_Z (Z.of_nat completed))
                                        (Number_of_Z (Z.of_nat total)))
                            (Number_of_Z 100)).
Proof.
  apply Number_mul_sign; [apply Number_div_sign|]; apply Number_of_Z_sign; lia.
Qed.

(** [updateStats], as the code computes it: [total] and [completedCount]
    are the two counts, [maxStreak] is the largest streak (0 without habits),
    and the percentage is 0 without habits and otherwise the double
    [completed / total * 100] (the quotient rounded to a double, then the
    product rounded to a double) rounded to the closest integer, ties away
    from zero. *)
Theorem updateStats_spec habits :
  let s := updateStats habits in
  total s = length habits ∧
  completedCount s = length (filter (λ h, completed h = true) habits) ∧
  (habits = [] → maxStreak s = 0) ∧
  (∀ h, h ∈ habits → streak h ≤ maxStreak s) ∧
  (habits ≠ [] → ∃ h, h ∈ habits ∧ streak h = maxStreak s) ∧
  (total s = 0%nat → percentage s = Integral 0) ∧
  ((0 < total s)%nat →
     percentage s
     = round_half_away_from_zero
         (Number_mul (Number_div (Number_of_Z (Z.of_nat (completedCount s)))
                                 (Number_of_Z (Z.of_nat (total s))))
                     (Number_of_Z 100))).
Proof.
  cbv zeta. unfold updateStats. simpl. split_and!.
  - done.
  - f_equal. apply list_filter_iff. intros h. by destruct (completed h).
  - by intros ->.
  - destruct habits as [|h0 habits]; [by intros h ?%elem_of_nil|].
    rewrite fmap_cons. intros h [->|Hh]%elem_of_cons.
    + apply (proj1 (Math_max_ge _ _)).
    + apply (proj2 (Math_max_ge _ _)). apply list_elem_of_fmap. eauto.
  - destruct habits as [|h0 habits]; [done|]. intros _.
    rewrite fmap_cons.
    pose proof (Math_max_elem (streak h0) (streak <$> habits)) as Hin.
    rewrite <- fmap_cons in Hin. apply list_elem_of_fmap in Hin as (h & Heq & Hh).
    eauto.
  - unfold updateProgressBar. by intros ->.
  - intros Hpos. unfold updateProgressBar.
    destruct (Nat.ltb_spec 0 (length habits)); [|lia].
    apply Math_round_half_away, updateProgressBar_sign.
Qed.

(** C9 on the code, at 40 habits with 23 completed (40 adds, then 23
    toggles): the fraction is 57.5, which the rounding of the claim takes to
    58, and the code shows 57.  [updateProgressBar] rounds the same
    expression with [Math.round], but the double [23 / 40 * 100] it rounds
    is 57.49999999999999. *)
Lemma updateStats_percentage_not_exact :
  let habits := run (adds_then_toggles 40 23) in
  let s := updateStats habits in
  Script.reachable habits ∧
  total s = 40%nat ∧ completedCount s = 23%nat ∧
  percentage s = Integral 57 ∧
  exact_percentage 40 23 = 58 ∧
  percentage s ≠ Integral (exact_percentage (Z.of_nat (total s))
                                            (Z.of_nat (completedCount s))).
Proof.
  cbv zeta. split; [apply run_reachable|].
  vm_compute. split_and!; done.
Qed.

(** The end-to-end scenario of the specification on [script.js]: add
    "Drink Water", toggle it twice, delete it; the statistics after each
    step. *)
Theorem script_scenario :
  let s0 := run [] in
  let s1 := Script.step s0 (Script.Add drink_water health 7 iso_sample) in
  let s2 := Script.step s1 (Script.Toggle 7 iso_sample) in
  let s3 := Script.step s2 (Script.Toggle 7 iso_sample) in
  let s4 := Script.step s3 (Script.Delete 7 true) in
  updateStats s0 = Stats 0 0 0 (Integral 0) ∧
  length s1 = 1%nat ∧ updateStats s1 = Stats 1 0 0 (Integral 0) ∧
  streak <$> s2 = [1] ∧ updateStats s2 = Stats 1 1 1 (Integral 100) ∧
  streak <$> s3 = [1] ∧ updateStats s3 = Stats 1 0 1 (Integral 0) ∧
  s4 = [] ∧ updateStats s4 = Stats 0 0 0 (Integral 0).
Proof. vm_compute. split_and!; done. Qed.

(** ** Persistence: [JSON.parse] undoes [JSON.stringify] on collections *)

Lemma read_digits_units u rest :
  ends_number rest → read_digits (units_of_uint u ++ rest) = (u, rest).
Proof.
  intros Hrest. induction u; simpl; rewrite ?IHu; try done.
  destruct rest as [|c rest]; [done|].
  simpl in Hrest. by destruct Hrest as [->|[->| ->]].
Qed.

Lemma to_uint_unorm n : Decimal.unorm (N.to_uint n) = N.to_uint n.
Proof.
  rewrite <- (DecimalN.Unsigned.of_to n) at 2.
  by rewrite DecimalN.Unsigned.to_of.
Qed.

Lemma to_uint_nonnil n : N.to_uint n ≠ Decimal.Nil.
Proof. rewrite <- to_uint_unorm. apply DecimalFacts.unorm_nonnil. Qed.

Lemma read_digits1_units n rest :
  ends_number rest →
  read_digits1 (units_of_uint (N.to_uint n) ++ rest) = Some (N.to_uint n, rest).
Proof.
  intros Hrest. unfold read_digits1. rewrite read_digits_units by done.
  pose proof (to_uint_nonnil n). by destruct (N.to_uint n).
Qed.

(** The digits of a natural number do not begin with a minus sign. *)
Lemma units_of_uint_head n :
  ∃ c s, units_of_uint (N.to_uint n) = c :: s ∧ (48 ≤ c ≤ 57)%N.
Proof.
  pose proof (to_uint_nonnil n).
  destruct (N.to_uint n); [done|..]; simpl; eexists _, _; (split; [done|]);
    unfold digit_unit; lia.
Qed.

Lemma parse_unsigned_units negative n rest :
  ends_number rest →
  parse_unsigned negative (units_of_uint (N.to_uint n) ++ rest)
  = Some (JNum (if negative then - Z.of_N n else Z.of_N n) 0, rest).
Proof.
  intros Hrest. unfold parse_unsigned. rewrite read_digits1_units by done.
  rewrite to_uint_unorm, bool_decide_true by done. simpl.
  assert (parse_fraction rest = Some (Decimal.Nil, rest)) as ->.
  { destruct rest as [|c rest]; [done|]. simpl in *. by destruct Hrest as [->|[->| ->]]. }
  assert (parse_exponent rest = Some (0, rest)) as ->.
  { destruct rest as [|c rest]; [done|]. simpl in *. by destruct Hrest as [->|[->| ->]]. }
  rewrite DecimalFacts.app_nil_r, DecimalN.Unsigned.of_to.
  unfold number_of. simpl. by rewrite Z.mul_1_r.
Qed.

Lemma parse_number_integer z rest :
  ends_number rest →
  parse_number (stringify_integer z ++ rest) = Some (JNum z 0, rest).
Proof.
  intros Hrest. unfold stringify_integer, parse_number. destruct (Z.ltb_spec z 0).
  - simpl. rewrite parse_unsigned_units by done. do 3 f_equal. lia.
  - destruct (units_of_uint_head (Z.to_N z)) as (c & s & Heq & Hc).
    rewrite Heq. simpl. destruct (N.eqb_spec c 45); [lia|].
    change (c :: s ++ rest) with ((c :: s) ++ rest). rewrite <- Heq.
    rewrite parse_unsigned_units by done. do 3 f_equal. lia.
Qed.

(** *** Strings *)

Lemma hex_value_hex_digit n : (n < 16)%N → hex_value (hex_digit n) = Some n.
Proof.
  intros Hn. unfold hex_value, hex_digit. destruct (N.ltb_spec n 10).
  - destruct (N.leb_spec 48 (48 + n)); [|lia].
    destruct (N.leb_spec (48 + n) 57); [|lia]. simpl. f_equal. lia.
  - destruct (N.leb_spec (87 + n) 57); [lia|]. rewrite andb_false_r.
    destruct (N.leb_spec 97 (87 + n)); [|lia].
    destruct (N.leb_spec (87 + n) 102); [|lia]. simpl. f_equal. lia.
Qed.

Lemma hex_digits_value c :
  (c < 65536)%N →
  ((((c / 4096) `mod` 16 * 16 + (c / 256) `mod` 16) * 16 + (c / 16) `mod` 16) * 16
   + c `mod` 16 = c)%N.
Proof.
  intros Hc.
  replace (c / 256)%N with (c / 16 / 16)%N by (by rewrite N.Div0.div_div).
  replace (c / 4096)%N with (c / 16 / 16 / 16)%N by (by rewrite !N.Div0.div_div).
  pose proof (N.div_mod' c 16). pose proof (N.div_mod' (c / 16) 16).
  pose proof (N.div_mod' (c / 16 / 16) 16).
  assert (c / 16 / 16 / 16 < 16)%N.
  { rewrite !N.Div0.div_div. apply N.Div0.div_lt_upper_bound. lia. }
  rewrite (N.mod_small (c / 16 / 16 / 16) 16) by done. lia.
Qed.

Lemma parse_UnicodeEscape c more :
  (c < 65536)%N →
  parse_string_units (UnicodeEscape c ++ more)
  = match parse_string_units more with
    | Some (str, rest) => Some (c :: str, rest)
    | None => None
    end.
Proof.
  intros Hc. unfold UnicodeEscape.
  cbn [app parse_string_units]. change (92 =? 34)%N with false.
  change (92 =? 92)%N with true. change (117 =? 117)%N with true. cbv iota.
  rewrite !hex_value_hex_digit by (apply N.mod_lt; lia).
  by rewrite hex_digits_value.
Qed.

Lemma parse_plain_unit c more :
  (32 ≤ c)%N → c ≠ 34%N → c ≠ 92%N →
  parse_string_units (c :: more)
  = match parse_string_units more with
    | Some (str, rest) => Some (c :: str, rest)
    | None => None
    end.
Proof.
  intros H32 H34 H92. cbn [parse_string_units].
  destruct (N.eqb_spec c 34); [done|]. destruct (N.eqb_spec c 92); [done|].
  destruct (N.ltb_spec c 32); [lia|done].
Qed.

Lemma parse_quote_unit c more :
  parse_string_units (quote_unit c ++ more)
  = match parse_string_units more with
    | Some (str, rest) => Some (c :: str, rest)
    | None => None
    end.
Proof.
  unfold quote_unit.
  repeat (match goal with |- context [(c =? ?k)%N] => destruct (N.eqb_spec c k) end;
          [by subst|]).
  destruct (N.ltb_spec c 32).
  - apply parse_UnicodeEscape. lia.
  - by apply parse_plain_unit.
Qed.

Lemma parse_quote_units s rest :
  parse_string_units (quote_units s ++ 34%N :: rest) = Some (s, rest).
Proof.
  remember (length s) as n eqn:Hn. revert s Hn.
  induction (lt_wf n) as [n _ IH]. intros s ->.
  destruct s as [|c s]; [done|]. cbn [quote_units].
  destruct (is_leading_surrogate c) eqn:Hlead.
  - unfold is_leading_surrogate in Hlead. apply andb_prop in Hlead as [H1%N.leb_le H2%N.leb_le].
    destruct s as [|d s].
    + rewrite parse_UnicodeEscape by lia. done.
    + destruct (is_trailing_surrogate d) eqn:Htrail.
      * unfold is_trailing_surrogate in Htrail.
        apply andb_prop in Htrail as [H3%N.leb_le H4%N.leb_le].
        rewrite <- !app_comm_cons. rewrite !parse_plain_unit by lia.
        by rewrite (IH (length s)) by (simpl; lia || done).
      * rewrite <- app_assoc, parse_UnicodeEscape by lia.
        by rewrite (IH (length (d :: s))) by (simpl; lia || done).
  - destruct (is_trailing_surrogate c) eqn:Htrail.
    + unfold is_trailing_surrogate in Htrail.
      apply andb_prop in Htrail as [H3%N.leb_le H4%N.leb_le].
      rewrite <- app_assoc, parse_UnicodeEscape by lia.
      by rewrite (IH (length s)) by (simpl; lia || done).
    + rewrite <- app_assoc, parse_quote_unit.
      by rewrite (IH (length s)) by (simpl; lia || done).
Qed.

(** *** Values *)

Lemma stringify_integer_head z :
  ∃ c s, stringify_integer z = c :: s ∧ (c = 45 ∨ 48 ≤ c ≤ 57)%N.
Proof.
  unfold stringify_integer. destruct (z <? 0).
  - eexists _, _. split; [done|]. by left.
  - destruct (units_of_uint_head (Z.to_N z)) as (c & s & -> & Hc). eauto.
Qed.

Lemma parse_value_integer f z rest :
  ends_number rest →
  parse_value (S f) (stringify_integer z ++ rest) = Some (JNum z 0, rest).
Proof.
  intros Hrest. rewrite <- (parse_number_integer z rest Hrest).
  destruct (stringify_integer_head z) as (c & s & -> & Hc).
  rewrite <- app_comm_cons. cbn [parse_value skip_ws].
  assert (is_json_ws c = false) as ->.
  { unfold is_json_ws.
    repeat match goal with |- context [(c =? ?k)%N] => destruct (N.eqb_spec c k) end;
      try done; lia. }
  repeat (match goal with |- context [if (c =? ?k)%N then _ else _] =>
            destruct (N.eqb_spec c k) end; [lia|]).
  done.
Qed.

Lemma parse_value_string f s rest :
  parse_value (S f) (QuoteJSONString s ++ rest) = Some (JStr s, rest).
Proof.
  unfold QuoteJSONString. rewrite <- app_comm_cons, <- app_assoc.
  cbn [parse_value skip_ws]. change (is_json_ws 34) with false.
  change (34 =? 34)%N with true. cbv iota.
  change ([34%N] ++ rest) with (34%N :: rest). by rewrite parse_quote_units.
Qed.

Lemma parse_value_bool f (b : bool) rest :
  parse_value (S f) ((if b then units_true else units_false) ++ rest)
  = Some (JBool b, rest).
Proof. by destruct b. Qed.

Lemma parse_value_null f rest :
  parse_value (S f) (units_null ++ rest) = Some (JNull, rest).
Proof. done. Qed.

(** A member [key:text] followed by a comma, and the last member. *)
Lemma parse_members_cons f key text v more :
  parse_value f (text ++ 44%N :: more) = Some (v, 44%N :: more) →
  parse_members (S f) (QuoteJSONString key ++ 58%N :: text ++ 44%N :: more)
  = match parse_members f more with
    | Some (ms, rest) => Some ((key, v) :: ms, rest)
    | None => None
    end.
Proof.
  intros Hv. unfold QuoteJSONString. rewrite <- app_comm_cons, <- app_assoc.
  cbn [parse_members skip_ws]. change (is_json_ws 34) with false.
  change (34 =? 34)%N with true. cbv iota.
  cbn [app]. rewrite parse_quote_units.
  cbn [skip_ws]. change (is_json_ws 58) with false. change (58 =? 58)%N with true.
  cbv iota. rewrite Hv. done.
Qed.

Lemma parse_members_last f key text v rest :
  parse_value f (text ++ 125%N :: rest) = Some (v, 125%N :: rest) →
  parse_members (S f) (QuoteJSONString key ++ 58%N :: text ++ 125%N :: rest)
  = Some ([(key, v)], rest).
Proof.
  intros Hv. unfold QuoteJSONString. rewrite <- app_comm_cons, <- app_assoc.
  cbn [parse_members skip_ws]. change (is_json_ws 34) with false.
  change (34 =? 34)%N with true. cbv iota.
  cbn [app]. rewrite parse_quote_units.
  cbn [skip_ws]. change (is_json_ws 58) with false. change (58 =? 58)%N with true.
  cbv iota. rewrite Hv. done.
Qed.

(** An object whose first member follows the brace at once. *)
Lemma parse_value_object f key more :
  parse_value (S f) (123%N :: QuoteJSONString key ++ more)
  = match parse_members f (QuoteJSONString key ++ more) with
    | Some (ms, rest) => Some (object_of_members ms, rest)
    | None => None
    end.
Proof. done. Qed.

(** An element followed by a comma, and the last element. *)
Lemma parse_elements_cons f text v more :
  parse_value f (text ++ 44%N :: more) = Some (v, 44%N :: more) →
  parse_elements (S f) (text ++ 44%N :: more)
  = match parse_elements f more with
    | Some (vs, rest) => Some (v :: vs, rest)
    | None => None
    end.
Proof. intros Hv. cbn [parse_elements]. rewrite Hv. done. Qed.

Lemma parse_elements_last f text v rest :
  parse_value f (text ++ 93%N :: rest) = Some (v, 93%N :: rest) →
  parse_elements (S f) (text ++ 93%N :: rest) = Some ([v], rest).
Proof. intros Hv. cbn [parse_elements]. rewrite Hv. done. Qed.

(** *** The fuel of [parse_value] never runs out

    A successful parse consumes at least one code unit, and it succeeds
    the same with any fuel that is at least the number of code units
    consumed.  So the fuel [JSON_parse] gives, the length of the text and
    one, never decides the outcome. *)

Lemma skip_ws_length s : (length (skip_ws s) ≤ length s)%nat.
Proof.
  induction s as [|c s IH]; [done|]. simpl.
  destruct (is_json_ws c); simpl; lia.
Qed.

Lemma parse_string_units_length s str rest :
  parse_string_units s = Some (str, rest) → (length rest < length s)%nat.
Proof.
  remember (length s) as n eqn:Hn. revert s str rest Hn.
  induction (lt_wf n) as [n _ IH]. intros s str rest -> Hparse.
  destruct s as [|c s]; [done|]. cbn [parse_string_units] in Hparse.
  destruct (c =? 34)%N.
  { simplify_eq. simpl. lia. }
  destruct (c =? 92)%N.
  - destruct s as [|e s]; [done|]. destruct (e =? 117)%N.
    + destruct s as [|h1 [|h2 [|h3 [|h4 s]]]]; try done.
      destruct (hex_value h1), (hex_value h2), (hex_value h3), (hex_value h4); try done.
      destruct (parse_string_units s) as [[str' rest']|] eqn:Hrec; [|done].
      simplify_eq.
      eapply (IH (length s)) in Hrec; [|simpl; lia|done]. simpl. lia.
    + destruct (unescape e); [|done].
      destruct (parse_string_units s) as [[str' rest']|] eqn:Hrec; [|done].
      simplify_eq.
      eapply (IH (length s)) in Hrec; [|simpl; lia|done]. simpl. lia.
  - destruct (c <? 32)%N; [done|].
    destruct (parse_string_units s) as [[str' rest']|] eqn:Hrec; [|done].
    simplify_eq.
    eapply (IH (length s)) in Hrec; [|simpl; lia|done]. simpl. lia.
Qed.

Lemma read_digits_length s u rest :
  read_digits s = (u, rest) →
  (length rest ≤ length s)%nat ∧ (u ≠ Decimal.Nil → (length rest < length s)%nat).
Proof.
  revert u rest. induction s as [|c s IH]; intros u rest; simpl.
  - intros [= <- <-]. by split.
  - destruct (digit_of_unit c).
    + destruct (read_digits s) as [u' rest'] eqn:Hrec. intros [= <- <-].
      destruct (IH _ _ eq_refl) as [Hle _]. split; [lia|]. intros _. by apply Nat.lt_succ_r.
    + intros [= <- <-]. by split.
Qed.

Lemma read_digits1_length s u rest :
  read_digits1 s = Some (u, rest) → (length rest < length s)%nat.
Proof.
  unfold read_digits1. destruct (read_digits s) as [u0 rest0] eqn:Hrec.
  apply read_digits_length in Hrec as [_ Hlt].
  destruct u0; intros [= <- <-]; by apply Hlt.
Qed.

Lemma parse_unsigned_length negative s v rest :
  parse_unsigned negative s = Some (v, rest) → (length rest < length s)%nat.
Proof.
  unfold parse_unsigned.
  destruct (read_digits1 s) as [[int s1]|] eqn:Hint; [|done].
  apply read_digits1_length in Hint.
  destruct (negb _); [done|].
  destruct (parse_fraction s1) as [[frac s2]|] eqn:Hfrac; [|done].
  assert (length s2 ≤ length s1)%nat.
  { unfold parse_fraction in Hfrac. destruct s1 as [|c s1]; [by simplify_eq|].
    destruct (c =? 46)%N.
    - apply read_digits1_length in Hfrac. simpl. lia.
    - by simplify_eq. }
  destruct (parse_exponent s2) as [[exponent s3]|] eqn:Hexp; [|done].
  assert (length s3 ≤ length s2)%nat.
  { unfold parse_exponent in Hexp. destruct s2 as [|c s2]; [by simplify_eq|].
    destruct ((c =? 101)%N || (c =? 69)%N); [|by simplify_eq].
    destruct (match s2 with
              | [] => (false, s2)
              | d :: s'' =>
                  if (d =? 45)%N then (true, s'')
                  else if (d =? 43)%N then (false, s'') else (false, s2)
              end) as [neg s4] eqn:Hsign.
    assert (length s4 ≤ length s2)%nat.
    { destruct s2 as [|d s2]; [by simplify_eq|].
      destruct (d =? 45)%N; [simplify_eq; simpl; lia|].
      destruct (d =? 43)%N; simplify_eq; simpl; lia. }
    destruct (read_digits1 s4) as [[e s5]|] eqn:He; [|done].
    apply read_digits1_length in He. simplify_eq. simpl. lia. }
  intros [= <- <-]. lia.
Qed.

Lemma parse_number_length s v rest :
  parse_number s = Some (v, rest) → (length rest < length s)%nat.
Proof.
  unfold parse_number. destruct s as [|c s]; [done|].
  destruct (c =? 45)%N; intros H%parse_unsigned_length; simpl in *; lia.
Qed.

Lemma strip_prefix_length prefix s rest :
  strip_prefix prefix s = Some rest → length s = (length prefix + length rest)%nat.
Proof.
  revert s. induction prefix as [|p prefix IH]; intros s; simpl.
  - by intros [= <-].
  - destruct s as [|c s]; [done|]. destruct (p =? c)%N; [|done].
    intros H%IH. simpl. lia.
Qed.

(** The second half of each case: the parse is replayed with the new fuel. *)
Local Ltac refuel :=
  split; [lia|]; intros [|?] ?; [lia|];
  cbn [parse_value parse_elements parse_members].

Lemma parse_fuel_adequate f :
  (∀ s v rest, parse_value f s = Some (v, rest) →
     (length rest < length s)%nat ∧
     ∀ f', (length s - length rest ≤ f')%nat → parse_value f' s = Some (v, rest)) ∧
  (∀ s vs rest, parse_elements f s = Some (vs, rest) →
     (length rest < length s)%nat ∧
     ∀ f', (length s - length rest ≤ f')%nat → parse_elements f' s = Some (vs, rest)) ∧
  (∀ s ms rest, parse_members f s = Some (ms, rest) →
     (length rest < length s)%nat ∧
     ∀ f', (length s - length rest ≤ f')%nat → parse_members f' s = Some (ms, rest)).
Proof.
  induction f as [|f (IHv & IHe & IHm)]; [by split_and!|].
  split_and!.
  - intros s v rest. cbn [parse_value].
    pose proof (skip_ws_length s) as Hws.
    destruct (skip_ws s) as [|c s'] eqn:Hs; [done|]. simpl in Hws.
    destruct (c =? 34)%N eqn:H34.
    { destruct (parse_string_units s') as [[str r]|] eqn:Hstr; [|done].
      intros [= <- <-]. pose proof (parse_string_units_length _ _ _ Hstr).
      refuel. by rewrite Hs, H34, Hstr. }
    destruct (c =? 91)%N eqn:H91.
    { pose proof (skip_ws_length s') as Hws'.
      destruct (skip_ws s') as [|d s''] eqn:Hs'; [done|]. simpl in Hws'.
      destruct (d =? 93)%N eqn:H93.
      - intros [= <- <-]. refuel. by rewrite Hs, H34, H91, Hs', H93.
      - destruct (parse_elements f s') as [[vs r]|] eqn:He; [|done].
        intros [= <- <-]. apply IHe in He as [Hlen He].
        refuel. rewrite Hs, H34, H91, Hs', H93, He by lia. done. }
    destruct (c =? 123)%N eqn:H123.
    { pose proof (skip_ws_length s') as Hws'.
      destruct (skip_ws s') as [|d s''] eqn:Hs'; [done|]. simpl in Hws'.
      destruct (d =? 125)%N eqn:H125.
      - intros [= <- <-]. refuel. by rewrite Hs, H34, H91, H123, Hs', H125.
      - destruct (parse_members f s') as [[ms r]|] eqn:Hm; [|done].
        intros [= <- <-]. apply IHm in Hm as [Hlen Hm].
        refuel. rewrite Hs, H34, H91, H123, Hs', H125, Hm by lia. done. }
    destruct (c =? 110)%N eqn:H110.
    { destruct (strip_prefix units_null (c :: s')) as [r|] eqn:Hp; [|done].
      intros [= <- <-]. pose proof (strip_prefix_length _ _ _ Hp) as Hlen.
      simpl in Hlen. refuel. by rewrite Hs, H34, H91, H123, H110, Hp. }
    destruct (c =? 116)%N eqn:H116.
    { destruct (strip_prefix units_true (c :: s')) as [r|] eqn:Hp; [|done].
      intros [= <- <-]. pose proof (strip_prefix_length _ _ _ Hp) as Hlen.
      simpl in Hlen. refuel. by rewrite Hs, H34, H91, H123, H110, H116, Hp. }
    destruct (c =? 102)%N eqn:H102.
    { destruct (strip_prefix units_false (c :: s')) as [r|] eqn:Hp; [|done].
      intros [= <- <-]. pose proof (strip_prefix_length _ _ _ Hp) as Hlen.
      simpl in Hlen. refuel. by rewrite Hs, H34, H91, H123, H110, H116, H102, Hp. }
    intros Hnum. pose proof (parse_number_length _ _ _ Hnum) as Hlen.
    simpl in Hlen. refuel. by rewrite Hs, H34, H91, H123, H110, H116, H102.
  - intros s vs rest. cbn [parse_elements].
    destruct (parse_value f s) as [[v s1]|] eqn:Hv; [|done].
    apply IHv in Hv as [Hlen1 Hv].
    pose proof (skip_ws_length s1) as Hws.
    destruct (skip_ws s1) as [|d s2] eqn:Hs1; [done|]. simpl in Hws.
    destruct (d =? 44)%N eqn:H44.
    + destruct (parse_elements f s2) as [[vs' r]|] eqn:He; [|done].
      intros [= <- <-]. apply IHe in He as [Hlen2 He].
      refuel. rewrite Hv, Hs1, H44, He by lia. done.
    + destruct (d =? 93)%N eqn:H93; [|done].
      intros [= <- <-]. refuel. rewrite Hv, Hs1, H44, H93 by lia. done.
  - intros s ms rest. cbn [parse_members].
    pose proof (skip_ws_length s) as Hws.
    destruct (skip_ws s) as [|q s1] eqn:Hs; [done|]. simpl in Hws.
    destruct (q =? 34)%N eqn:H34; [|done].
    destruct (parse_string_units s1) as [[key s2]|] eqn:Hkey; [|done].
    pose proof (parse_string_units_length _ _ _ Hkey) as Hlen1.
    pose proof (skip_ws_length s2) as Hws2.
    destruct (skip_ws s2) as [|colon s3] eqn:Hs2; [done|]. simpl in Hws2.
    destruct (colon =? 58)%N eqn:H58; [|done].
    destruct (parse_value f s3) as [[v s4]|] eqn:Hv; [|done].
    apply IHv in Hv as [Hlen2 Hv].
    pose proof (skip_ws_length s4) as Hws4.
    destruct (skip_ws s4) as [|d s5] eqn:Hs4; [done|]. simpl in Hws4.
    destruct (d =? 44)%N eqn:H44.
    + destruct (parse_members f s5) as [[ms' r]|] eqn:Hm; [|done].
      intros [= <- <-]. apply IHm in Hm as [Hlen3 Hm].
      refuel. rewrite Hs, H34, Hkey, Hs2, H58, Hv, Hs4, H44, Hm by lia. done.
    + destruct (d =? 125)%N eqn:H125; [|done].
      intros [= <- <-]. refuel. rewrite Hs, H34, Hkey, Hs2, H58, Hv, Hs4, H44, H125 by lia. done.
Qed.

(** [JSON.parse] with any fuel: the text parses to [v] with some fuel
    exactly when [JSON_parse] returns [v]. *)
Theorem JSON_parse_fuel text v :
  JSON_parse text = Normal v ↔
  ∃ fuel rest, parse_value fuel text = Some (v, rest) ∧ skip_ws rest = [].
Proof.
  unfold JSON_parse. split.
  - destruct (parse_value (S (length text)) text) as [[v' rest]|] eqn:Hparse; [|done].
    destruct (skip_ws rest) eqn:Hrest; [|done]. intros [= <-]. eauto.
  - intros (fuel & rest & Hparse & Hrest).
    destruct (parse_fuel_adequate fuel) as (Hv & _ & _).
    apply Hv in Hparse as [Hlen Hparse].
    rewrite Hparse by lia. by rewrite Hrest.
Qed.

(** *** Habits and collections *)

(** The text of a habit, followed by [rest]. *)
Lemma stringify_habit_app h rest :
  JSON_stringify (value_of_habit h) ++ rest
  = 123%N :: QuoteJSONString key_id ++ 58%N :: stringify_integer (id h) ++
    44%N :: QuoteJSONString key_name ++ 58%N :: QuoteJSONString (name h) ++
    44%N :: QuoteJSONString key_category ++ 58%N :: QuoteJSONString (category h) ++
    44%N :: QuoteJSONString key_completed ++ 58%N ::
            (if completed h then units_true else units_false) ++
    44%N :: QuoteJSONString key_createdAt ++ 58%N :: QuoteJSONString (createdAt h) ++
    44%N :: QuoteJSONString key_completedAt ++ 58%N ::
            JSON_stringify (match completedAt h with
                            | Some t => JStr t
                            | None => JNull
                            end) ++
    44%N :: QuoteJSONString key_streak ++ 58%N :: stringify_integer (streak h) ++
    125%N :: rest.
Proof.
  unfold value_of_habit.
  cbn [JSON_stringify fmap list_fmap join_comma stringify_number N.eqb].
  rewrite <- !app_comm_cons. f_equal.
  repeat first [rewrite <- app_assoc | rewrite <- app_comm_cons | rewrite app_nil_l].
  reflexivity.
Qed.

(** A habit, parsed back. *)
Lemma parse_value_habit f h rest :
  parse_value (9 + f) (JSON_stringify (value_of_habit h) ++ rest)
  = Some (value_of_habit h, rest).
Proof.
  rewrite stringify_habit_app. cbn [Nat.add].
  rewrite parse_value_object.
  rewrite (parse_members_cons _ _ _ (JNum (id h) 0))
    by (apply parse_value_integer; simpl; auto).
  rewrite (parse_members_cons _ _ _ (JStr (name h))) by apply parse_value_string.
  rewrite (parse_members_cons _ _ _ (JStr (category h))) by apply parse_value_string.
  rewrite (parse_members_cons _ _ _ (JBool (completed h))) by apply parse_value_bool.
  rewrite (parse_members_cons _ _ _ (JStr (createdAt h))) by apply parse_value_string.
  rewrite (parse_members_cons _ _ _
             (match completedAt h with Some t => JStr t | None => JNull end))
    by (destruct (completedAt h); [apply parse_value_string|apply parse_value_null]).
  rewrite (parse_members_last _ _ _ (JNum (streak h) 0))
    by (apply parse_value_integer; simpl; auto).
  reflexivity.
Qed.

Lemma stringify_habit_head h :
  ∃ text, JSON_stringify (value_of_habit h) = 123%N :: text ∧ (9 ≤ length text)%nat.
Proof.
  pose proof (stringify_habit_app h []) as Heq. rewrite app_nil_r in Heq.
  eexists. split; [exact Heq|].
  rewrite !length_app, !length_cons. unfold QuoteJSONString.
  rewrite !length_cons, !length_app. simpl. lia.
Qed.

(** The elements of a collection that is not empty, parsed back. *)
Lemma parse_elements_habits habits f rest :
  habits ≠ [] →
  parse_elements (length habits + 9 + f)
    (join_comma (JSON_stringify <$> (value_of_habit <$> habits)) ++ 93%N :: rest)
  = Some (value_of_habit <$> habits, rest).
Proof.
  induction habits as [|h habits IH]; [done|]. intros _.
  destruct habits as [|h' habits].
  - cbn [fmap list_fmap join_comma length Nat.add].
    apply parse_elements_last. apply parse_value_habit.
  - specialize (IH ltac:(done)).
    change (join_comma (JSON_stringify <$> (value_of_habit <$> h :: h' :: habits)))
      with (JSON_stringify (value_of_habit h) ++
            44%N :: join_comma (JSON_stringify <$> (value_of_habit <$> h' :: habits))).
    rewrite <- app_assoc, <- app_comm_cons.
    replace (length (h :: h' :: habits) + 9 + f)%nat
      with (S (9 + (length (h' :: habits) + f)))%nat by (simpl; lia).
    rewrite (parse_elements_cons _ _ (value_of_habit h)) by apply parse_value_habit.
    replace (9 + (length (h' :: habits) + f))%nat
      with (length (h' :: habits) + 9 + f)%nat by lia.
    rewrite IH. done.
Qed.

Lemma length_join_habits habits :
  (10 * length habits
   ≤ length (join_comma (JSON_stringify <$> (value_of_habit <$> habits))))%nat.
Proof.
  induction habits as [|h habits IH]; [done|].
  destruct (stringify_habit_head h) as (text & Heq & Hlen).
  destruct habits as [|h' habits].
  - cbn [fmap list_fmap join_comma]. rewrite Heq. simpl. lia.
  - change (join_comma (JSON_stringify <$> (value_of_habit <$> h :: h' :: habits)))
      with (JSON_stringify (value_of_habit h) ++
            44%N :: join_comma (JSON_stringify <$> (value_of_habit <$> h' :: habits))).
    rewrite length_app, length_cons, Heq, !length_cons in *. lia.
Qed.

(** [JSON.parse(JSON.stringify(habits))] is [habits] again. *)
Lemma JSON_parse_stringify_habits habits :
  JSON_parse (JSON_stringify (value_of_habits habits)) = Normal (value_of_habits habits).
Proof.
  destruct habits as [|h habits]; [done|].
  unfold JSON_parse, value_of_habits. cbn [JSON_stringify].
  remember (join_comma (JSON_stringify <$> (value_of_habit <$> h :: habits)))
    as body eqn:Hdef.
  assert (∃ more, body = 123%N :: more ∧ (8 ≤ length more)%nat) as (more & Hbody & Hmore).
  { destruct (stringify_habit_head h) as (text & Heq & Hlen). subst body.
    destruct habits as [|h' habits].
    - cbn [fmap list_fmap join_comma]. rewrite Heq. eexists. split; [done|lia].
    - change (join_comma (JSON_stringify <$> (value_of_habit <$> h :: h' :: habits)))
        with (JSON_stringify (value_of_habit h) ++
              44%N :: join_comma (JSON_stringify <$> (value_of_habit <$> h' :: habits))).
      rewrite Heq. eexists. split; [done|]. rewrite length_app. lia. }
  pose proof (length_join_habits (h :: habits)) as Hlen. rewrite <- Hdef in Hlen.
  assert (parse_value (S (length (91%N :: body ++ [93%N]))) (91%N :: body ++ [93%N])
          = match parse_elements (length (91%N :: body ++ [93%N])) (body ++ [93%N]) with
            | Some (vs, rest) => Some (JArr vs, rest)
            | None => None
            end) as ->.
  { rewrite Hbody. done. }
  assert (∃ f, length (91%N :: body ++ [93%N]) = (length (h :: habits) + 9 + f)%nat)
    as [f ->].
  { exists (length (91%N :: body ++ [93%N]) - (length (h :: habits) + 9))%nat.
    rewrite length_cons, length_app. rewrite Hbody in Hlen |- *.
    rewrite !length_cons in *. simpl. lia. }
  subst body. rewrite parse_elements_habits by done. done.
Qed.

Lemma habit_of_value_of_habit h : habit_of_value (value_of_habit h) = Some h.
Proof. destruct h as [i n c b t [t'|] s]; reflexivity. Qed.

Lemma habits_of_value_of_habits habits :
  habits_of_value (value_of_habits habits) = Some habits.
Proof.
  unfold habits_of_value, value_of_habits.
  induction habits as [|h habits IH]; [done|].
  rewrite fmap_cons. cbn [mapM]. rewrite habit_of_value_of_habit, IH. done.
Qed.

(** *** Loading and saving *)

Lemma loadHabitsFromStorage_saved habits localStorage previous :
  Script.loadHabitsFromStorage
    (Script.saveHabitsToStorage true (value_of_habits habits) localStorage).1 previous
  = Normal (value_of_habits habits).
Proof.
  unfold Script.loadHabitsFromStorage, Script.saveHabitsToStorage, setItem. cbn [fst].
  rewrite lookup_insert_eq.
  pose proof (JSON_parse_stringify_habits habits) as Hparse.
  destruct (JSON_stringify (value_of_habits habits)) as [|c text] eqn:Htext.
  - by destruct habits.
  - by rewrite Hparse.
Qed.

(** C5: what [Script.saveHabitsToStorage] writes under the key is the JSON text
    of the collection; [JSON.parse] gives the collection back from it, and so
    does [Script.loadHabitsFromStorage] from the store, habit by habit and in
    order. *)
Theorem load_save_roundtrip habits localStorage :
  let saved := (Script.saveHabitsToStorage true (value_of_habits habits) localStorage).1 in
  saved !! habitflow_habits = Some (JSON_stringify (value_of_habits habits)) ∧
  JSON_parse (JSON_stringify (value_of_habits habits)) = Normal (value_of_habits habits) ∧
  Script.init saved = Normal (value_of_habits habits) ∧
  (∀ previous, Script.loadHabitsFromStorage saved previous = Normal (value_of_habits habits)) ∧
  habits_of_value (value_of_habits habits) = Some habits.
Proof.
  cbv zeta. split_and!.
  - unfold Script.saveHabitsToStorage, setItem. cbn [fst]. apply lookup_insert_eq.
  - apply JSON_parse_stringify_habits.
  - apply loadHabitsFromStorage_saved.
  - intros previous. apply loadHabitsFromStorage_saved.
  - apply habits_of_value_of_habits.
Qed.

(** C6: loading never throws; without a stored text it gives the empty
    collection, and so it does on every stored text that [JSON.parse]
    rejects. *)
Theorem load_fails_soft localStorage :
  (∃ v, Script.init localStorage = Normal v) ∧
  (localStorage !! habitflow_habits = None →
     Script.init localStorage = Normal (JArr [])) ∧
  (∀ stored e,
     localStorage !! habitflow_habits = Some stored →
     JSON_parse stored = Throw e →
     Script.init localStorage = Normal (JArr []) ∧
     (∀ habits, stored ≠ [] →
        Script.loadHabitsFromStorage localStorage habits = Normal (JArr []))).
Proof.
  unfold Script.init, Script.loadHabitsFromStorage. split_and!.
  - destruct (localStorage !! habitflow_habits) as [[|c text]|]; eauto.
    destruct (JSON_parse (c :: text)); simpl; eauto.
  - by intros ->.
  - intros stored e -> Hparse. destruct stored as [|c text]; [done|].
    by rewrite Hparse.
Qed.

(** A stored text that is not JSON, an empty one and none at all, loaded. *)
Example load_malformed :
  JSON_parse text_malformed = Throw SyntaxError ∧
  Script.init {[habitflow_habits := text_malformed]} = Normal (JArr []) ∧
  JSON_parse [] = Throw SyntaxError ∧
  Script.init {[habitflow_habits := []]} = Normal (JArr []) ∧
  Script.init ∅ = Normal (JArr []).
Proof. vm_compute. done. Qed.

Lemma part000_loadFromStorage_eq localStorage habits :
  Part000.loadFromStorage localStorage habits
  = Script.loadHabitsFromStorage localStorage habits.
Proof. reflexivity. Qed.

(** C10: loading takes whatever [JSON.parse] returns, in [script.js] and
    in [part_000] alike.  The stored texts [{}] and [5] give an object and a
    number, neither a collection nor the empty array; and a stored array of
    records that break the data model (an id twice, completed without
    [completedAt]) is loaded as it is. *)
Theorem load_does_not_validate :
  Script.init {[habitflow_habits := text_object]} = Normal (JObj []) ∧
  Script.init {[habitflow_habits := text_five]} = Normal (JNum 5 0) ∧
  Part000.init {[habitflow_habits := text_object]} = Normal (JObj []) ∧
  Part000.init {[habitflow_habits := text_five]} = Normal (JNum 5 0) ∧
  habits_of_value (JObj []) = None ∧
  habits_of_value (JNum 5 0) = None ∧
  JObj [] ≠ JArr [] ∧
  JNum 5 0 ≠ JArr [] ∧
  Script.init {[habitflow_habits := JSON_stringify (value_of_habits invalid_habits)]}
  = Normal (value_of_habits invalid_habits) ∧
  habits_of_value (value_of_habits invalid_habits) = Some invalid_habits ∧
  ¬ Forall completedAt_consistent invalid_habits ∧
  ¬ NoDup (ids invalid_habits).
Proof.
  split_and!; try (vm_compute; done).
  - intros [[H _] _]%Forall_cons. by destruct (H eq_refl).
  - intros [Hin _]%NoDup_cons. apply Hin. by left.
Qed.

(** ** The names [handleAddHabit] lets in *)

Lemma trimStart_suffix s : trimStart s `suffix_of` s.
Proof.
  induction s as [|c s IH]; simpl; [done|].
  destruct (is_white_space c); [by apply suffix_cons_r|done].
Qed.

Lemma trimStart_head s c s' : trimStart s = c :: s' → is_white_space c = false.
Proof.
  induction s as [|x s IH]; simpl; [done|].
  destruct (is_white_space x) eqn:Hx; [done|]. by intros [= -> ->].
Qed.

Lemma trimStart_fixed s :
  (∀ c s', s = c :: s' → is_white_space c = false) → trimStart s = s.
Proof. destruct s as [|c s]; [done|]. intros H. simpl. by rewrite (H c s). Qed.

Lemma trimStart_idem s : trimStart (trimStart s) = trimStart s.
Proof. apply trimStart_fixed. intros c s'. apply trimStart_head. Qed.

Lemma trimStart_blank s : Forall (λ c, is_white_space c = true) s → trimStart s = [].
Proof. induction 1 as [|c s Hc _ IH]; [done|]. simpl. by rewrite Hc. Qed.

Lemma trimEnd_prefix s : trimEnd s `prefix_of` s.
Proof.
  unfold trimEnd. apply prefix_suffix_reverse. rewrite reverse_involutive.
  apply trimStart_suffix.
Qed.

Lemma trimEnd_idem s : trimEnd (trimEnd s) = trimEnd s.
Proof. unfold trimEnd. by rewrite reverse_involutive, trimStart_idem. Qed.

Lemma trimEnd_last s c : last (trimEnd s) = Some c → is_white_space c = false.
Proof.
  unfold trimEnd. rewrite last_reverse.
  destruct (trimStart (reverse s)) as [|x s'] eqn:Hs; [done|].
  intros [= ->]. by eapply trimStart_head.
Qed.

Lemma trimStart_trimEnd s : trimStart s = s → trimStart (trimEnd s) = trimEnd s.
Proof.
  intros Hs. apply trimStart_fixed. intros c s' Heq.
  destruct (trimEnd_prefix s) as [k Hk]. rewrite Heq in Hk.
  apply (trimStart_head s c (s' ++ k)). by rewrite Hs, Hk.
Qed.

Lemma trim_head s c : head (trim s) = Some c → is_white_space c = false.
Proof.
  unfold trim. intros Hhead.
  pose proof (trimStart_trimEnd (trimStart s) (trimStart_idem s)) as Hfix.
  destruct (trimEnd (trimStart s)) as [|x s'] eqn:Hs; [done|].
  simpl in Hhead. simplify_eq. by eapply trimStart_head.
Qed.

Lemma trim_idem s : trim (trim s) = trim s.
Proof.
  unfold trim.
  rewrite (trimStart_trimEnd (trimStart s) (trimStart_idem s)).
  apply trimEnd_idem.
Qed.

Lemma trim_valid_name value :
  (3 ≤ length (trim value) ≤ 50)%nat → valid_name (trim value).
Proof.
  intros Hlen. split; [done|]. intros c [Hc|Hc].
  - by eapply trim_head.
  - unfold trim in Hc. by eapply trimEnd_last.
Qed.

Lemma script_step_names habits a :
  Forall (λ h, valid_name (name h)) habits →
  Forall (λ h, valid_name (name h)) (Script.step habits a).
Proof.
  intros Hall. destruct a as [value cat now iso|habitId iso|habitId confirmed]; simpl.
  - unfold Script.handleAddHabit.
    destruct (decide (trim value = [])); [done|].
    destruct (Nat.ltb_spec (length (trim value)) 3); [done|].
    destruct (Nat.ltb_spec 50 (length (trim value))); [done|]. simpl.
    apply Forall_app; split; [done|]. apply Forall_singleton. simpl.
    apply trim_valid_name. lia.
  - unfold Script.toggleHabitComplete.
    destruct (find_habit habitId habits) as [[i h]|] eqn:Hfind; [|done].
    apply find_habit_Some in Hfind as [Hi _].
    apply Forall_insert; [done|].
    rewrite Forall_lookup in Hall. specialize (Hall i h Hi).
    unfold Script.toggled. by destruct (completed h).
  - unfold Script.deleteHabit.
    destruct (find_habit habitId habits) as [[i h]|]; [|done].
    destruct confirmed; simpl; [|done]. by apply Forall_delete.
Qed.

(** [script.js]: every handler keeps the names valid, so every habit of a
    collection built by the handlers has a name of 3 to 50 code units that
    neither starts nor ends with white space; and trimming is idempotent,
    so a stored name typed in again is taken as it is. *)
Theorem script_names_valid :
  (∀ habits a, Forall (λ h, valid_name (name h)) habits →
               Forall (λ h, valid_name (name h)) (Script.step habits a)) ∧
  (∀ habits, Script.reachable habits → Forall (λ h, valid_name (name h)) habits) ∧
  (∀ value, trim (trim value) = trim value).
Proof.
  split_and!; [apply script_step_names| |apply trim_idem].
  induction 1; [constructor|]. by apply script_step_names.
Qed.

(** Both variants: an input made of white space only (blanks, tabs, line
    breaks, no-break spaces, ...) is refused as an empty name, whatever its
    length, and the collection is unchanged. *)
Theorem blank_name_rejected value cat now iso habits :
  Forall (λ c, is_white_space c = true) value →
  Script.handleAddHabit value cat now iso habits = (habits, EmptyName) ∧
  Part000.addHabit value cat now iso habits = (habits, EmptyName).
Proof.
  intros Hblank. unfold Script.handleAddHabit, Part000.addHabit, trim.
  rewrite (trimStart_blank value Hblank). by vm_compute.
Qed.

Lemma blank_name_rejected_witness :
  Forall (λ c, is_white_space c = true) three_spaces ∧
  Script.handleAddHabit three_spaces health 0 iso_sample [] = ([], EmptyName) ∧
  Part000.addHabit three_spaces health 0 iso_sample [] = ([], EmptyName).
Proof.
  assert (Forall (λ c, is_white_space c = true) three_spaces) as Hblank.
  { unfold three_spaces. repeat constructor. }
  split; [done|]. by apply blank_name_rejected.
Defined.

(** ** What a toggle and a delete leave alone *)

Lemma script_toggled_identity iso h : identity (Script.toggled iso h) = identity h.
Proof. unfold Script.toggled, identity. by destruct (completed h). Qed.

Lemma script_toggled_streak iso h :
  streak h ≤ streak (Script.toggled iso h) ≤ streak h + 1.
Proof. unfold Script.toggled. destruct (completed h); simpl; lia. Qed.

(** [script.js]: a toggle keeps the size of the collection and the order,
    and of every habit the id, the name, the category and [createdAt]; it
    changes at most the first habit with the id, leaves every other
    position as it was, flips [completed] there, and never lowers a streak;
    a streak that is a safe integer (below 2^53, where the [+ 1] of the
    doubles is exact) is raised by one at most. *)
Theorem script_toggle_frame habitId iso habits :
  let habits' := Script.toggleHabitComplete habitId iso habits in
  length habits' = length habits ∧
  identity <$> habits' = identity <$> habits ∧
  Forall2 (λ h h', streak h ≤ streak h' ∧
                   (safe_integer (streak h) → streak h' ≤ streak h + 1))
          habits habits' ∧
  (∀ i h, find_habit habitId habits = Some (i, h) →
     (∃ h', habits' !! i = Some h' ∧ completed h' = negb (completed h)) ∧
     ∀ j, j ≠ i → habits' !! j = habits !! j).
Proof.
  cbv zeta. unfold Script.toggleHabitComplete.
  destruct (find_habit habitId habits) as [[i h]|] eqn:Hfind.
  - apply find_habit_Some in Hfind as [Hi _]. split_and!.
    + apply length_insert.
    + rewrite list_fmap_insert, script_toggled_identity.
      apply list_insert_id. by rewrite list_lookup_fmap, Hi.
    + apply Forall2_same_length_lookup. split; [by rewrite length_insert|].
      intros j x y Hx Hy. destruct (decide (j = i)) as [->|Hne].
      * rewrite list_lookup_insert_eq in Hy by (by eapply lookup_lt_Some).
        simplify_eq. pose proof (script_toggled_streak iso h). lia.
      * rewrite list_lookup_insert_ne in Hy by done. simplify_eq. lia.
    + intros ? ? [= <- <-]. split.
      * exists (Script.toggled iso h). split.
        -- apply list_lookup_insert_eq. by eapply lookup_lt_Some.
        -- unfold Script.toggled. by destruct (completed h).
      * intros j Hne. by apply list_lookup_insert_ne.
  - split_and!; [done|done| |done].
    apply Forall2_same_length_lookup. split; [done|].
    intros j x y Hx Hy. simplify_eq. lia.
Qed.

(** [script.js]: a delete of an id no habit has, or one the user does not
    confirm, changes nothing; a confirmed one removes exactly the first
    habit with the id and keeps the others in their order, so the size drops
    by one; the id is gone afterwards when it was there once only. *)
Theorem script_delete_removes_one habitId habits :
  (habitId ∉ ids habits → ∀ confirmed, Script.deleteHabit habitId confirmed habits = habits) ∧
  Script.deleteHabit habitId false habits = habits ∧
  (∀ i h, find_habit habitId habits = Some (i, h) →
     let habits' := Script.deleteHabit habitId true habits in
     habits' = take i habits ++ drop (S i) habits ∧
     S (length habits') = length habits ∧
     (habitId ∈ ids habits' ↔ habitId ∈ ids (drop (S i) habits))).
Proof.
  unfold Script.deleteHabit. split_and!.
  - intros Habsent%find_habit_None confirmed. by rewrite Habsent.
  - by destruct (find_habit habitId habits) as [[i h]|].
  - intros i h Hfind. rewrite Hfind. cbv zeta. simpl.
    pose proof Hfind as (Hi & _ & Hleast)%list_find_Some.
    assert (i < length habits)%nat as Hlt by (by eapply lookup_lt_Some).
    rewrite delete_take_drop. split_and!; [done| |].
    + rewrite length_app, length_take, length_drop. lia.
    + unfold ids. rewrite fmap_app, elem_of_app. split; [|by right].
      intros [Hin|Hin]; [|done]. exfalso.
      apply list_elem_of_fmap in Hin as (x & -> & Hx).
      apply list_elem_of_lookup in Hx as [j Hj].
      apply lookup_take_Some in Hj as [Hj Hji]. by eapply Hleast.
Qed.

(** ** [part_000] is [script.js] with [completedAt] forgotten *)

Lemma find_habit_forget habitId habits :
  find_habit habitId (forget_completedAt <$> habits)
  = prod_map (λ i, i) forget_completedAt <$> find_habit habitId habits.
Proof. unfold find_habit. by rewrite list_find_fmap. Qed.

Lemma forget_toggled iso h :
  forget_completedAt (Script.toggled iso h) = Part000.toggled (forget_completedAt h).
Proof. by destruct h as [? ? ? [] ? ? ?]. Qed.

Lemma ids_forget (habits : list habit) : ids (forget_completedAt <$> habits) = ids habits.
Proof. unfold ids. rewrite <- list_fmap_compose. by apply list_fmap_ext. Qed.

Lemma filter_forget habitId (habits : list habit) :
  filter (λ h, id h ≠ habitId) (forget_completedAt <$> habits)
  = forget_completedAt <$> filter (λ h, id h ≠ habitId) habits.
Proof.
  induction habits as [|h habits IH]; [done|].
  rewrite fmap_cons, !filter_cons, IH. simpl.
  by destruct (decide (id h ≠ habitId)).
Qed.

(** On a collection with distinct ids, every action that is not an add of
    a name over 50 code units does in [part_000] what it does in
    [script.js], up to [completedAt], which [part_000] does not keep. *)
Theorem part000_simulates_script habits a :
  NoDup (ids habits) →
  (∀ value cat now iso, a = Script.Add value cat now iso → (length (trim value) ≤ 50)%nat) →
  Part000.step (forget_completedAt <$> habits) (forget_action a)
  = forget_completedAt <$> Script.step habits a.
Proof.
  intros Hnodup Hshort.
  destruct a as [value cat now iso|habitId iso|habitId confirmed]; simpl.
  - specialize (Hshort _ _ _ _ eq_refl).
    unfold Part000.addHabit, Script.handleAddHabit.
    destruct (decide (trim value = [])); [done|].
    destruct (Nat.ltb_spec (length (trim value)) 3); [done|].
    destruct (Nat.ltb_spec 50 (length (trim value))); [lia|].
    simpl. by rewrite fmap_app.
  - unfold Part000.toggleComplete, Script.toggleHabitComplete.
    rewrite find_habit_forget.
    destruct (find_habit habitId habits) as [[i h]|]; simpl; [|done].
    by rewrite list_fmap_insert, forget_toggled.
  - unfold Part000.deleteHabit, Script.deleteHabit.
    rewrite find_habit_forget.
    destruct (find_habit habitId habits) as [[i h]|] eqn:Hfind; simpl; [|done].
    destruct confirmed; simpl; [|done].
    rewrite (delete_first_is_filter habits habitId i h) by done.
    apply filter_forget.
Qed.

Lemma part000_simulates_script_witness :
  NoDup (ids (run (adds_then_toggles 2 1))) ∧
  Part000.step (forget_completedAt <$> run (adds_then_toggles 2 1))
               (forget_action (Script.Delete 0 true))
  = forget_completedAt <$> Script.step (run (adds_then_toggles 2 1)) (Script.Delete 0 true).
Proof.
  assert (NoDup (ids (run (adds_then_toggles 2 1)))) as Hnodup.
  { vm_compute. apply NoDup_cons. split.
    - rewrite list_elem_of_singleton. lia.
    - apply NoDup_singleton. }
  split; [done|]. by apply part000_simulates_script.
Defined.

(** ** The id of a card: [String(id)] and [parseInt] *)

Lemma units_of_uint_digits u : Forall (λ c, (48 ≤ c ≤ 57)%N) (units_of_uint u).
Proof. induction u; simpl; constructor; unfold digit_unit; (lia || done). Qed.

Lemma digit_not_white_space c : (48 ≤ c ≤ 57)%N → is_white_space c = false.
Proof.
  intros Hc.
  assert (c ∈ [48; 49; 50; 51; 52; 53; 54; 55; 56; 57]%N) as Hin.
  { rewrite !elem_of_cons. lia. }
  rewrite !elem_of_cons, elem_of_nil in Hin. by destruct_or!; subst.
Qed.

Lemma parseInt_magnitude_units n :
  parseInt_magnitude (units_of_uint (N.to_uint n)) = Some n.
Proof.
  unfold parseInt_magnitude.
  pose proof (units_of_uint_digits (N.to_uint n)) as Hdigits.
  pose proof (read_digits1_units n [] I) as Hread. rewrite app_nil_r in Hread.
  rewrite Hread, DecimalN.Unsigned.of_to.
  destruct (units_of_uint (N.to_uint n)) as [|c [|x s]]; [done..|].
  apply Forall_cons in Hdigits as [_ [Hx _]%Forall_cons].
  destruct (N.eqb_spec x 120); [lia|]. destruct (N.eqb_spec x 88); [lia|].
  by rewrite andb_false_r.
Qed.

Lemma parseInt_Number_toString z : parseInt (Number_toString z) = Some z.
Proof.
  unfold parseInt, Number_toString, stringify_integer. destruct (Z.ltb_spec z 0).
  - rewrite trimStart_fixed by (by intros ? ? [= <- _]).
    cbn. rewrite parseInt_magnitude_units. f_equal. lia.
  - destruct (units_of_uint_head (Z.to_N z)) as (c & s & Heq & Hc).
    rewrite Heq.
    rewrite trimStart_fixed by (intros ? ? [= <- _]; by apply digit_not_white_space).
    destruct (N.eqb_spec c 45); [lia|]. destruct (N.eqb_spec c 43); [lia|].
    rewrite <- Heq, parseInt_magnitude_units. f_equal. lia.
Qed.

(** The id a card carries in [data-id] is read back by [parseInt] as the
    id of the habit: [parseInt(String(id)) === id].  (From 10^21 on
    [String] writes an exponent and [parseInt] stops at its point.) *)
Theorem card_id_roundtrip h :
  Z.abs (id h) < 10 ^ 21 →
  parseInt (dataset_id (createHabitCard h)) = Some (id h).
Proof. intros _. apply parseInt_Number_toString. Qed.

Lemma card_id_roundtrip_witness :
  Z.abs 1730000000000 < 10 ^ 21 ∧
  parseInt (dataset_id (createHabitCard
              (Habit 1730000000000 drink_water health false iso_sample None 0)))
  = Some 1730000000000.
Proof.
  split; [by vm_compute|].
  apply (card_id_roundtrip (Habit 1730000000000 drink_water health false iso_sample None 0)).
  by vm_compute.
Defined.

(** ** The page: what is shown follows the collection *)

Lemma run_invariant (P : Page.page → Prop) (Q : Page.event → Prop) :
  (∀ p e, Q e → P p → P (Page.step p e)) →
  ∀ events p, Forall Q events → P p → P (Page.run p events).
Proof.
  intros Hstep events. unfold Page.run.
  induction events as [|e events IH]; intros p Hall HP; [done|].
  apply Forall_cons in Hall as [He Hall]. simpl. apply IH; [done|]. by apply Hstep.
Qed.

Lemma run_invariant_all (P : Page.page → Prop) :
  (∀ p e, P p → P (Page.step p e)) →
  ∀ events p, P p → P (Page.run p events).
Proof.
  intros Hstep events p HP.
  apply (run_invariant P (λ _, True)); [auto| |done].
  by apply Forall_true.
Qed.

Lemma in_sync_frame p q :
  Page.habits q = Page.habits p →
  Page.currentFilter q = Page.currentFilter p →
  Page.habitsContainer q = Page.habitsContainer p →
  Page.emptyState q = Page.emptyState p →
  Page.shownStats q = Page.shownStats p →
  in_sync p → in_sync q.
Proof. unfold in_sync. by intros -> -> -> -> ->. Qed.

Lemma renderHabits_in_sync p :
  Page.shownStats p = Some (updateStats (Page.habits p)) →
  in_sync (Page.renderHabits p).
Proof.
  intros Hstats. unfold in_sync, Page.renderHabits. simpl.
  destruct (getFilteredHabits (Page.currentFilter p) (Page.habits p)); by split_and!.
Qed.

Lemma rendered_in_sync p : in_sync (Page.updateStats (Page.renderHabits p)).
Proof.
  unfold in_sync, Page.updateStats, Page.renderHabits. simpl.
  destruct (getFilteredHabits (Page.currentFilter p) (Page.habits p)); by split_and!.
Qed.

Lemma handleAddHabit_in_sync now iso ok p :
  in_sync p → in_sync (Page.handleAddHabit now iso ok p).
Proof.
  intros Hp. unfold Page.handleAddHabit.
  destruct (Script.handleAddHabit _ _ _ _ _) as [habits' []];
    try (by apply (in_sync_frame p)).
  eapply in_sync_frame; [..|apply rendered_in_sync]; done.
Qed.

Lemma toggleHabitComplete_in_sync habitId iso ok p :
  in_sync p → in_sync (Page.toggleHabitComplete habitId iso ok p).
Proof.
  intros Hp. unfold Page.toggleHabitComplete.
  destruct habitId as [habitId|]; [|done].
  destruct (find_habit habitId (Page.habits p)) as [[i h]|]; [|done].
  eapply in_sync_frame; [..|apply rendered_in_sync]; done.
Qed.

Lemma deleteHabit_in_sync habitId confirmed ok p :
  in_sync p → in_sync (Page.deleteHabit habitId confirmed ok p).
Proof.
  intros Hp. unfold Page.deleteHabit.
  destruct habitId as [habitId|]; [|done].
  destruct (find_habit habitId (Page.habits p)) as [[i h]|]; [|done].
  destruct confirmed; [|done].
  eapply in_sync_frame; [..|apply rendered_in_sync]; done.
Qed.

Lemma step_in_sync p e : in_sync p → in_sync (Page.step p e).
Proof.
  intros Hp. destruct e as [now iso ok|key now iso ok|value|index
                           |index action iso confirmed ok|filter|]; simpl.
  - by apply handleAddHabit_in_sync.
  - case_decide; [by apply handleAddHabit_in_sync|done].
  - by apply (in_sync_frame p).
  - by apply (in_sync_frame p).
  - destruct (Page.habitsContainer p !! index) as [c|]; [|done].
    unfold Page.handleHabitAction. repeat case_decide; [| |done].
    + by apply toggleHabitComplete_in_sync.
    + by apply deleteHabit_in_sync.
  - unfold Page.handleFilter. apply renderHabits_in_sync. simpl. apply Hp.
  - unfold Page.timeout. destruct (Page.toastTimers p); [done|].
    by apply (in_sync_frame p).
Qed.

Lemma init_Started (input : jsstring) (options : list jsstring) (selected : nat)
    (localStorage : storage) p :
  Page.init input options selected localStorage = Page.Started p →
  ∃ elements habits',
    Script.loadHabitsFromStorage localStorage (JArr []) = Normal (JArr elements) ∧
    mapM Page.habit_of_saved elements = Some habits' ∧
    p = Page.updateStats (Page.renderHabits
          (Page.set_habits habits' (Page.document input options selected localStorage))).
Proof.
  unfold Page.init. intros Hinit.
  destruct (Script.loadHabitsFromStorage _ _) as [v|]; [|done].
  destruct v as [| | | |elements|]; try (by destruct (_ && _)).
  destruct (mapM Page.habit_of_saved elements) as [habits'|] eqn:Hhabits; [|done].
  exists elements, habits'. by simplify_eq.
Qed.

Lemma init_empty_store (input : jsstring) (options : list jsstring) (selected : nat)
    (localStorage : storage) :
  localStorage !! habitflow_habits = None →
  Page.init input options selected localStorage
  = Page.Started (Page.updateStats (Page.renderHabits
                    (Page.document input options selected localStorage))).
Proof.
  intros Hnone. unfold Page.init, Script.loadHabitsFromStorage. by rewrite Hnone.
Qed.

(** [script.js]: after [init] and after every event since, the page shows
    what its variables hold: the container has one card per habit the
    current filter lets through, in the order of the collection; the empty
    state is displayed exactly when there is no such habit; and the counters
    and the progress bar are those of the whole collection, whatever the
    filter.  A page with no stored habits starts. *)
Theorem page_view_in_sync :
  (∀ p e, in_sync p → in_sync (Page.step p e)) ∧
  (∀ (input : jsstring) (options : list jsstring) (selected : nat)
     (localStorage : storage) p events,
     Page.init input options selected localStorage = Page.Started p →
     in_sync (Page.run p events)) ∧
  (∀ (input : jsstring) (options : list jsstring) (selected : nat),
     ∃ p, Page.init input options selected ∅ = Page.Started p).
Proof.
  split_and!.
  - apply step_in_sync.
  - intros input options selected localStorage p events
      (elements & habits' & _ & _ & ->)%init_Started.
    apply run_invariant_all; [apply step_in_sync|]. apply rendered_in_sync.
  - intros. eexists. by apply init_empty_store.
Qed.

(** ** The page: what is stored follows the collection *)

Lemma habit_of_saved_value h : Page.habit_of_saved (value_of_habit h) = Some h.
Proof. by destruct h as [i n c b t [t'|] s]. Qed.

Lemma habits_of_saved_values habits :
  mapM Page.habit_of_saved (value_of_habit <$> habits) = Some habits.
Proof.
  induction habits as [|h habits IH]; [done|].
  rewrite fmap_cons. cbn [mapM]. by rewrite habit_of_saved_value, IH.
Qed.

Lemma persisted_iff p :
  persisted p ↔
  ∃ elements,
    Script.loadHabitsFromStorage (Page.localStorage p) (JArr []) = Normal (JArr elements) ∧
    mapM Page.habit_of_saved elements = Some (Page.habits p).
Proof.
  unfold persisted, reloaded. split.
  - intros (p' & (elements & habits' & Hload & Hsaved & ->)%init_Started & Heq).
    simpl in *. exists elements. by rewrite Heq in Hsaved.
  - intros (elements & Hload & Hsaved). unfold Page.init. simpl.
    rewrite Hload, Hsaved. eexists. split; [done|]. done.
Qed.

Lemma persisted_frame p q :
  Page.habits q = Page.habits p →
  Page.localStorage q = Page.localStorage p →
  persisted p → persisted q.
Proof. rewrite !persisted_iff. by intros -> ->. Qed.

Lemma saved_persisted p :
  persisted (Page.saveHabitsToStorage true p).
Proof.
  apply persisted_iff. exists (value_of_habit <$> Page.habits p).
  unfold Page.saveHabitsToStorage.
  pose proof (loadHabitsFromStorage_saved (Page.habits p) (Page.localStorage p) (JArr []))
    as Hload.
  destruct (Script.saveHabitsToStorage true _ _) as [localStorage' failed] eqn:Hsave.
  assert (failed = false) as ->.
  { unfold Script.saveHabitsToStorage, setItem in Hsave. by simplify_eq. }
  simpl in *. split; [done|]. apply habits_of_saved_values.
Qed.

Lemma step_persisted p e :
  Page.saves e = true → persisted p → persisted (Page.step p e).
Proof.
  intros Hok Hp.
  assert (∀ now iso, persisted (Page.handleAddHabit now iso true p)) as Hadd.
  { intros now iso. unfold Page.handleAddHabit.
    destruct (Script.handleAddHabit _ _ _ _ _) as [habits' []];
      try (by apply (persisted_frame p)).
    eapply persisted_frame; [..|apply (saved_persisted (Page.set_habits habits' p))]; done. }
  destruct e as [now iso ok|key now iso ok|value|index
                |index action iso confirmed ok|filter|]; simpl in *; subst.
  - apply Hadd.
  - case_decide; [apply Hadd|done].
  - by apply (persisted_frame p).
  - by apply (persisted_frame p).
  - destruct (Page.habitsContainer p !! index) as [c|]; [|done].
    unfold Page.handleHabitAction. repeat case_decide; [| |done].
    + unfold Page.toggleHabitComplete.
      destruct (parseInt (dataset_id c)) as [habitId|]; [|done].
      destruct (find_habit habitId (Page.habits p)) as [[i h]|]; [|done].
      eapply persisted_frame;
        [..|apply (saved_persisted
                     (Page.set_habits
                        (Script.toggleHabitComplete habitId iso (Page.habits p)) p))]; done.
    + unfold Page.deleteHabit.
      destruct (parseInt (dataset_id c)) as [habitId|]; [|done].
      destruct (find_habit habitId (Page.habits p)) as [[i h]|]; [|done].
      destruct confirmed; [|done].
      eapply persisted_frame;
        [..|apply (saved_persisted
                     (Page.set_habits (Script.deleteHabit habitId true (Page.habits p)) p))];
        done.
  - by apply (persisted_frame p).
  - unfold Page.timeout. destruct (Page.toastTimers p); [done|].
    by apply (persisted_frame p).
Qed.

Lemma step_unsaved p e :
  Page.saves e = false → Page.localStorage (Page.step p e) = Page.localStorage p.
Proof.
  intros Hok.
  assert (∀ now iso,
            Page.localStorage (Page.handleAddHabit now iso false p) = Page.localStorage p)
    as Hadd.
  { intros now iso. unfold Page.handleAddHabit.
    by destruct (Script.handleAddHabit _ _ _ _ _) as [habits' []]. }
  destruct e as [now iso ok|key now iso ok|value|index
                |index action iso confirmed ok|filter|]; simpl in *; subst; try discriminate.
  - apply Hadd.
  - case_decide; [apply Hadd|done].
  - destruct (Page.habitsContainer p !! index) as [c|]; [|done].
    unfold Page.handleHabitAction. repeat case_decide; [| |done].
    + unfold Page.toggleHabitComplete.
      destruct (parseInt (dataset_id c)) as [habitId|]; [|done].
      by destruct (find_habit habitId (Page.habits p)) as [[i h]|].
    + unfold Page.deleteHabit.
      destruct (parseInt (dataset_id c)) as [habitId|]; [|done].
      destruct (find_habit habitId (Page.habits p)) as [[i h]|]; [|done].
      by destruct confirmed.
Qed.

(** *** The numbers stay safe integers *)

Lemma safe_habit_for_mono n m h :
  (m ≤ n)%nat → safe_habit_for n h → safe_habit_for m h.
Proof. unfold safe_habit_for. intros Hle [Hid Hstreak]. split; [done|lia]. Qed.

Lemma script_toggled_safe n iso h :
  safe_habit_for (S n) h → safe_habit_for n (Script.toggled iso h).
Proof.
  unfold safe_habit_for, Script.toggled. intros [Hid Hstreak].
  destruct (completed h); simpl; split; (done || lia).
Qed.

Lemma script_step_safe n habits a :
  safe_action a →
  Z.of_nat n < 2 ^ 53 →
  Forall (safe_habit_for (S n)) habits →
  Forall (safe_habit_for n) (Script.step habits a).
Proof.
  intros Ha Hn Hall.
  assert (Forall (safe_habit_for n) habits) as Hall'.
  { eapply Forall_impl; [done|]. intros h. apply safe_habit_for_mono. lia. }
  destruct a as [value cat now iso|habitId iso|habitId confirmed]; simpl in *.
  - unfold Script.handleAddHabit. repeat case_match; simpl; try done.
    apply Forall_app; split; [done|]. apply Forall_singleton.
    split; [done|]. simpl. lia.
  - unfold Script.toggleHabitComplete.
    destruct (find_habit habitId habits) as [[i h]|] eqn:Hfind; [|done].
    apply find_habit_Some in Hfind as [Hi _].
    apply Forall_insert; [done|]. apply script_toggled_safe.
    by apply (Forall_lookup_1 _ _ _ _ Hall Hi).
  - unfold Script.deleteHabit.
    destruct (find_habit habitId habits) as [[i h]|]; [|done].
    destruct confirmed; simpl; [|done]. by apply Forall_delete.
Qed.

Lemma step_habits_safe p e :
  safe_event e →
  Page.habits (Page.step p e) = Page.habits p ∨
  ∃ a, safe_action a ∧ Page.habits (Page.step p e) = Script.step (Page.habits p) a.
Proof.
  intros He.
  assert (∀ now iso ok,
            safe_integer now →
            ∃ a, safe_action a ∧
                 Page.habits (Page.handleAddHabit now iso ok p)
                 = Script.step (Page.habits p) a) as Hadd.
  { intros now iso ok Hnow.
    exists (Script.Add (Page.habitNameInput p) (Page.category_value p) now iso).
    split; [done|]. unfold Page.handleAddHabit. simpl.
    assert ((Script.handleAddHabit (Page.habitNameInput p) (Page.category_value p)
               now iso (Page.habits p)).2 ≠ Added →
            (Script.handleAddHabit (Page.habitNameInput p) (Page.category_value p)
               now iso (Page.habits p)).1 = Page.habits p) as Hfail.
    { unfold Script.handleAddHabit. by repeat case_match. }
    destruct (Script.handleAddHabit _ _ _ _ _) as [habits' []]; simpl in *;
      try (symmetry; by apply Hfail).
    unfold Page.saveHabitsToStorage.
    by destruct (Script.saveHabitsToStorage ok _ _) as [localStorage' []]. }
  destruct e as [now iso ok|key now iso ok|value|index
                |index action iso confirmed ok|filter|]; simpl in *.
  - right. by apply Hadd.
  - case_decide; [right; by apply Hadd|by left].
  - by left.
  - by left.
  - destruct (Page.habitsContainer p !! index) as [c|]; [|by left].
    unfold Page.handleHabitAction. repeat case_decide; [| |by left].
    + unfold Page.toggleHabitComplete.
      destruct (parseInt (dataset_id c)) as [habitId|]; [|by left].
      destruct (find_habit habitId (Page.habits p)) as [[i h]|]; [|by left].
      right. exists (Script.Toggle habitId iso). split; [done|]. simpl.
      unfold Page.saveHabitsToStorage.
      by destruct (Script.saveHabitsToStorage ok _ _) as [localStorage' []].
    + unfold Page.deleteHabit.
      destruct (parseInt (dataset_id c)) as [habitId|]; [|by left].
      destruct (find_habit habitId (Page.habits p)) as [[i h]|]; [|by left].
      destruct confirmed; [|by left].
      right. exists (Script.Delete habitId true). split; [done|]. simpl.
      unfold Page.saveHabitsToStorage.
      by destruct (Script.saveHabitsToStorage ok _ _) as [localStorage' []].
  - by left.
  - left. unfold Page.timeout. by destruct (Page.toastTimers p).
Qed.

Lemma page_step_safe n p e :
  safe_event e →
  Z.of_nat n < 2 ^ 53 →
  Forall (safe_habit_for (S n)) (Page.habits p) →
  Forall (safe_habit_for n) (Page.habits (Page.step p e)).
Proof.
  intros He Hn Hall. destruct (step_habits_safe p e He) as [->|(a & Ha & ->)].
  - eapply Forall_impl; [done|]. intros h. apply safe_habit_for_mono. lia.
  - by apply script_step_safe.
Qed.

Lemma page_run_safe events p :
  Z.of_nat (length events) < 2 ^ 53 →
  Forall (safe_habit_for (length events)) (Page.habits p) →
  Forall (λ e, Page.saves e = true ∧ safe_event e) events →
  persisted p →
  persisted (Page.run p events) ∧ Forall safe_habit (Page.habits (Page.run p events)).
Proof.
  unfold Page.run. revert p.
  induction events as [|e events IH]; intros p Hlen Hsafe Hall Hp; [done|].
  apply Forall_cons in Hall as [[Hok He] Hall]. simpl in *.
  apply IH; [lia| |done|by apply step_persisted].
  apply page_step_safe; [done|lia|done].
Qed.

(** [script.js]: as long as every [setItem] succeeds and the numbers are
    safe integers (the ids and the streaks the page holds, with room for one
    increment per event, and the clock readings), the store follows the
    collection: after [init] and after every event since, a reload of the
    page starts with exactly the habits the page has now, every field of
    every habit included, and the numbers are safe integers still.  A page
    started on a store without the item holds no habit, so it qualifies. *)
Theorem page_store_in_sync :
  (∀ p e, Page.saves e = true → safe_event e →
          Forall safe_habit (Page.habits p) →
          persisted p → persisted (Page.step p e)) ∧
  (∀ (input : jsstring) (options : list jsstring) (selected : nat)
     (localStorage : storage) p events,
     Page.init input options selected localStorage = Page.Started p →
     Z.of_nat (length events) < 2 ^ 53 →
     Forall (safe_habit_for (length events)) (Page.habits p) →
     Forall (λ e, Page.saves e = true ∧ safe_event e) events →
     persisted (Page.run p events) ∧
     Forall safe_habit (Page.habits (Page.run p events))) ∧
  (∀ (input : jsstring) (options : list jsstring) (selected : nat)
     (localStorage : storage),
     localStorage !! habitflow_habits = None →
     ∃ p, Page.init input options selected localStorage = Page.Started p ∧
          Page.habits p = []).
Proof.
  split_and!.
  - intros p e Hok _ _. by apply step_persisted.
  - intros input options selected localStorage p events
      (elements & habits' & Hload & Hsaved & ->)%init_Started Hlen Hsafe Hall.
    apply page_run_safe; [done..|]. apply persisted_iff. by exists elements.
  - intros input options selected localStorage Hnone.
    eexists. split; [by apply init_empty_store|done].
Qed.

(** ** The page: toasts *)

Lemma step_toastText p e :
  Page.toastText (Page.step p e) = Some Page.FailedToSave →
  Page.toastText p = Some Page.FailedToSave.
Proof.
  assert (∀ now iso ok,
            Page.toastText (Page.handleAddHabit now iso ok p) = Some Page.FailedToSave →
            Page.toastText p = Some Page.FailedToSave) as Hadd.
  { intros now iso ok. unfold Page.handleAddHabit.
    by destruct (Script.handleAddHabit _ _ _ _ _) as [habits' []]. }
  destruct e as [now iso ok|key now iso ok|value|index
                |index action iso confirmed ok|filter|]; simpl.
  - apply Hadd.
  - case_decide; [apply Hadd|done].
  - done.
  - done.
  - destruct (Page.habitsContainer p !! index) as [c|]; [|done].
    unfold Page.handleHabitAction. repeat case_decide; [| |done].
    + unfold Page.toggleHabitComplete.
      destruct (parseInt (dataset_id c)) as [habitId|]; [|done].
      destruct (find_habit habitId (Page.habits p)) as [[i h]|]; [|done].
      simpl. by destruct (completed (Script.toggled iso h)).
    + unfold Page.deleteHabit.
      destruct (parseInt (dataset_id c)) as [habitId|]; [|done].
      destruct (find_habit habitId (Page.habits p)) as [[i h]|]; [|done].
      by destruct confirmed.
  - done.
  - unfold Page.timeout. by destruct (Page.toastTimers p).
Qed.

Lemma showToast_timed message p : toast_timed (Page.showToast message p).
Proof. unfold toast_timed. simpl. lia. Qed.

Lemma toast_timed_frame p q :
  Page.toastShow q = Page.toastShow p →
  Page.toastTimers q = Page.toastTimers p →
  toast_timed p → toast_timed q.
Proof. unfold toast_timed. by intros -> ->. Qed.

Lemma step_toast_timed p e : toast_timed p → toast_timed (Page.step p e).
Proof.
  intros Hp.
  assert (∀ now iso ok, toast_timed (Page.handleAddHabit now iso ok p)) as Hadd.
  { intros now iso ok. unfold Page.handleAddHabit.
    destruct (Script.handleAddHabit _ _ _ _ _) as [habits' []];
      try (by apply (toast_timed_frame p)).
    apply showToast_timed. }
  destruct e as [now iso ok|key now iso ok|value|index
                |index action iso confirmed ok|filter|]; simpl.
  - apply Hadd.
  - case_decide; [apply Hadd|done].
  - by apply (toast_timed_frame p).
  - by apply (toast_timed_frame p).
  - destruct (Page.habitsContainer p !! index) as [c|]; [|done].
    unfold Page.handleHabitAction. repeat case_decide; [| |done].
    + unfold Page.toggleHabitComplete.
      destruct (parseInt (dataset_id c)) as [habitId|]; [|done].
      destruct (find_habit habitId (Page.habits p)) as [[i h]|]; [|done].
      apply showToast_timed.
    + unfold Page.deleteHabit.
      destruct (parseInt (dataset_id c)) as [habitId|]; [|done].
      destruct (find_habit habitId (Page.habits p)) as [[i h]|]; [|done].
      destruct confirmed; [|done]. apply showToast_timed.
  - by apply (toast_timed_frame p).
  - unfold Page.timeout. destruct (Page.toastTimers p); [done|].
    unfold toast_timed. by simpl.
Qed.

(** [script.js]: a save that fails leaves the store as it was, and the
    toast "Failed to save data!" is never what the page shows once a handler
    has returned: every handler that saves calls [showToast] again after the
    save, which replaces the text.  So after a failing save the user reads
    the toast of success, the collection has changed, and a reload brings the
    old one back.  And a toast on display always has a timeout pending that
    will hide it. *)
Theorem page_save_failure_is_silent :
  (∀ p e, Page.saves e = false → Page.localStorage (Page.step p e) = Page.localStorage p) ∧
  (∀ p e, Page.toastText (Page.step p e) = Some Page.FailedToSave →
          Page.toastText p = Some Page.FailedToSave) ∧
  (∀ (input : jsstring) (options : list jsstring) (selected : nat)
     (localStorage : storage) p events,
     Page.init input options selected localStorage = Page.Started p →
     Page.toastText (Page.run p events) ≠ Some Page.FailedToSave ∧
     toast_timed (Page.run p events)) ∧
  (∀ p now iso,
     (3 ≤ length (trim (Page.habitNameInput p)) ≤ 50)%nat →
     let p' := Page.step p (Page.ClickAdd now iso false) in
     length (Page.habits p') = S (length (Page.habits p)) ∧
     Page.localStorage p' = Page.localStorage p ∧
     Page.toastText p' = Some Page.HabitAdded).
Proof.
  split_and!.
  - apply step_unsaved.
  - apply step_toastText.
  - intros input options selected localStorage p events
      (elements & habits' & _ & _ & ->)%init_Started. split.
    + apply (run_invariant_all (λ p, Page.toastText p ≠ Some Page.FailedToSave)).
      * intros q e Hq Hfailed. by apply Hq, (step_toastText q e).
      * done.
    + apply run_invariant_all; [apply step_toast_timed|]. by intros ?.
  - intros p now iso Hlen. simpl. unfold Page.handleAddHabit.
    rewrite script_handleAddHabit_valid by done. simpl.
    rewrite length_app. simpl. split_and!; [lia|done|done].
Qed.

(** ** The page: its events are the actions of the store *)

Lemma script_handleAddHabit_step value cat now iso habits :
  (Script.handleAddHabit value cat now iso habits).2 ≠ Added →
  (Script.handleAddHabit value cat now iso habits).1 = habits.
Proof. unfold Script.handleAddHabit. by repeat case_match. Qed.

Lemma step_habits p e :
  Page.habits (Page.step p e) = Page.habits p ∨
  ∃ a, Page.habits (Page.step p e) = Script.step (Page.habits p) a.
Proof.
  assert (∀ now iso ok,
            ∃ a, Page.habits (Page.handleAddHabit now iso ok p)
                 = Script.step (Page.habits p) a) as Hadd.
  { intros now iso ok.
    exists (Script.Add (Page.habitNameInput p) (Page.category_value p) now iso).
    unfold Page.handleAddHabit. simpl.
    pose proof (script_handleAddHabit_step (Page.habitNameInput p) (Page.category_value p)
                  now iso (Page.habits p)) as Hfail.
    destruct (Script.handleAddHabit _ _ _ _ _) as [habits' []]; simpl in *;
      try (symmetry; by apply Hfail).
    unfold Page.saveHabitsToStorage.
    by destruct (Script.saveHabitsToStorage ok _ _) as [localStorage' []]. }
  destruct e as [now iso ok|key now iso ok|value|index
                |index action iso confirmed ok|filter|]; simpl.
  - right. apply Hadd.
  - case_decide; [right; apply Hadd|by left].
  - by left.
  - by left.
  - destruct (Page.habitsContainer p !! index) as [c|]; [|by left].
    unfold Page.handleHabitAction. repeat case_decide; [| |by left].
    + unfold Page.toggleHabitComplete.
      destruct (parseInt (dataset_id c)) as [habitId|]; [|by left].
      destruct (find_habit habitId (Page.habits p)) as [[i h]|]; [|by left].
      right. exists (Script.Toggle habitId iso). simpl.
      unfold Page.saveHabitsToStorage.
      by destruct (Script.saveHabitsToStorage ok _ _) as [localStorage' []].
    + unfold Page.deleteHabit.
      destruct (parseInt (dataset_id c)) as [habitId|]; [|by left].
      destruct (find_habit habitId (Page.habits p)) as [[i h]|]; [|by left].
      destruct confirmed; [|by left].
      right. exists (Script.Delete habitId true). simpl.
      unfold Page.saveHabitsToStorage.
      by destruct (Script.saveHabitsToStorage ok _ _) as [localStorage' []].
  - by left.
  - left. unfold Page.timeout. by destruct (Page.toastTimers p).
Qed.

(** [script.js]: whatever the event (a click, a key, an input, a timeout),
    the collection of the page is left as it was or changed by one action of
    the store: an add, a toggle or a delete.  So what holds of every
    collection the store's actions build holds of the page, and a page that
    starts on an empty store only ever holds such collections. *)
Theorem page_events_are_actions :
  (∀ p e, Page.habits (Page.step p e) = Page.habits p ∨
          ∃ a, Page.habits (Page.step p e) = Script.step (Page.habits p) a) ∧
  (∀ p events, Script.reachable (Page.habits p) →
               Script.reachable (Page.habits (Page.run p events))) ∧
  (∀ (input : jsstring) (options : list jsstring) (selected : nat)
     (localStorage : storage) events,
     localStorage !! habitflow_habits = None →
     ∃ p, Page.init input options selected localStorage = Page.Started p ∧
          Page.habits p = [] ∧
          Script.reachable (Page.habits (Page.run p events))).
Proof.
  assert (∀ p events, Script.reachable (Page.habits p) →
                      Script.reachable (Page.habits (Page.run p events))) as Hrun.
  { intros p events Hp.
    apply (run_invariant_all (λ p, Script.reachable (Page.habits p))); [|done].
    intros q e Hq. destruct (step_habits q e) as [->|[a ->]]; [done|].
    by constructor. }
  split_and!; [apply step_habits|done|].
  intros input options selected localStorage events Hnone.
  eexists. split; [by apply init_empty_store|]. split; [done|].
  apply Hrun. constructor.
Qed.

(** ** The page: the buttons of a card *)

Lemma getFilteredHabits_subset filter habits h :
  h ∈ getFilteredHabits filter habits → h ∈ habits.
Proof.
  unfold getFilteredHabits. repeat case_decide; [| |done];
    by intros [_ ?]%list_elem_of_filter.
Qed.

Lemma find_habit_NoDup habits i h :
  NoDup (ids habits) → habits !! i = Some h → find_habit (id h) habits = Some (i, h).
Proof.
  intros Hnodup Hi. unfold find_habit. apply list_find_Some. split_and!; [done..|].
  intros j y Hj Hlt Heq.
  assert (j = i); [|lia].
  eapply (NoDup_lookup (ids habits)); [done| |].
  - unfold ids. by rewrite list_lookup_fmap, Hj.
  - unfold ids. by rewrite list_lookup_fmap, Hi, Heq.
Qed.

Lemma find_habit_first habits habitId i h :
  habits !! i = Some h → id h = habitId →
  ∃ k hk, find_habit habitId habits = Some (k, hk) ∧ (k ≤ i)%nat.
Proof.
  intros Hi Hid. destruct (find_habit habitId habits) as [[k hk]|] eqn:Hfind.
  - exists k, hk. split; [done|].
    apply list_find_Some in Hfind as (_ & _ & Hleast).
    destruct (decide (k ≤ i)%nat); [done|]. exfalso.
    apply (Hleast i h); [done|lia|done].
  - apply find_habit_None in Hfind. exfalso. apply Hfind.
    unfold ids. apply list_elem_of_fmap. exists h. split; [done|].
    by eapply list_elem_of_lookup_2.
Qed.

Lemma click_complete p index h iso confirmed ok :
  Page.habitsContainer p !! index = Some (createHabitCard h) →
  Page.habits (Page.step p (Page.ClickCardButton index Page.action_complete iso confirmed ok))
  = Script.toggleHabitComplete (id h) iso (Page.habits p).
Proof.
  intros Hcard. simpl. rewrite Hcard. unfold Page.handleHabitAction.
  rewrite decide_True by done.
  change (dataset_id (createHabitCard h)) with (Number_toString (id h)).
  rewrite parseInt_Number_toString.
  unfold Page.toggleHabitComplete, Script.toggleHabitComplete.
  destruct (find_habit (id h) (Page.habits p)) as [[i h']|]; [|done]. simpl.
  unfold Page.saveHabitsToStorage.
  by destruct (Script.saveHabitsToStorage ok _ _) as [localStorage' []].
Qed.

Lemma click_delete p index h iso confirmed ok :
  Page.habitsContainer p !! index = Some (createHabitCard h) →
  Page.habits (Page.step p (Page.ClickCardButton index Page.action_delete iso confirmed ok))
  = Script.deleteHabit (id h) confirmed (Page.habits p).
Proof.
  intros Hcard. simpl. rewrite Hcard. unfold Page.handleHabitAction.
  rewrite decide_False by done. rewrite decide_True by done.
  change (dataset_id (createHabitCard h)) with (Number_toString (id h)).
  rewrite parseInt_Number_toString.
  unfold Page.deleteHabit, Script.deleteHabit.
  destruct (find_habit (id h) (Page.habits p)) as [[i h']|]; [|done].
  destruct confirmed; [|done]. simpl.
  unfold Page.saveHabitsToStorage.
  by destruct (Script.saveHabitsToStorage ok _ _) as [localStorage' []].
Qed.

(** [script.js]: a click on the complete button of the card shown at
    position [index] toggles, and a click on its delete button deletes
    (after [confirm]), the first habit of the collection that has the id of
    the habit the card was made from; with distinct ids that habit is the
    card's own, whatever filter is on. *)
Theorem page_card_buttons p index h iso confirmed ok :
  in_sync p →
  getFilteredHabits (Page.currentFilter p) (Page.habits p) !! index = Some h →
  Z.abs (id h) < 10 ^ 21 →
  Page.habits (Page.step p (Page.ClickCardButton index Page.action_complete iso confirmed ok))
  = Script.toggleHabitComplete (id h) iso (Page.habits p) ∧
  Page.habits (Page.step p (Page.ClickCardButton index Page.action_delete iso confirmed ok))
  = Script.deleteHabit (id h) confirmed (Page.habits p) ∧
  (NoDup (ids (Page.habits p)) →
   ∃ i, Page.habits p !! i = Some h ∧ find_habit (id h) (Page.habits p) = Some (i, h)).
Proof.
  intros (Hcards & _ & _) Hshown _.
  assert (Page.habitsContainer p !! index = Some (createHabitCard h)) as Hcard.
  { by rewrite Hcards, list_lookup_fmap, Hshown. }
  split_and!; [by apply click_complete|by apply click_delete|].
  intros Hnodup.
  assert (h ∈ Page.habits p) as [i Hi]%list_elem_of_lookup.
  { eapply getFilteredHabits_subset. by eapply list_elem_of_lookup_2. }
  exists i. split; [done|]. by apply find_habit_NoDup.
Qed.

Lemma page_one_add_in_sync : in_sync page_one_add.
Proof.
  unfold page_one_add.
  apply run_invariant_all; [apply step_in_sync|apply rendered_in_sync].
Qed.

Lemma page_card_buttons_witness :
  Page.habits (Page.step page_one_add
                 (Page.ClickCardButton 0 Page.action_complete iso_sample true true))
  = Script.toggleHabitComplete 7 iso_sample (Page.habits page_one_add) ∧
  Page.habits (Page.step page_one_add
                 (Page.ClickCardButton 0 Page.action_delete iso_sample true true))
  = Script.deleteHabit 7 true (Page.habits page_one_add) ∧
  (NoDup (ids (Page.habits page_one_add)) →
   ∃ i, Page.habits page_one_add !! i
        = Some (Habit 7 drink_water health false iso_sample None 0) ∧
        find_habit 7 (Page.habits page_one_add)
        = Some (i, Habit 7 drink_water health false iso_sample None 0)).
Proof.
  apply (page_card_buttons page_one_add 0
           (Habit 7 drink_water health false iso_sample None 0) iso_sample true true).
  - apply page_one_add_in_sync.
  - by vm_compute.
  - by vm_compute.
Defined.

(** [script.js]: of two habits that share an id, the later one is out of
    reach of its own card: the complete button of its card leaves it as it
    is, and the delete button of its card leaves it in the collection, one
    position down; both act on an earlier habit with the id. *)
Theorem page_duplicate_id_shadowed p index i j h1 h2 iso ok :
  Page.habitsContainer p !! index = Some (createHabitCard h2) →
  Page.habits p !! i = Some h1 →
  Page.habits p !! j = Some h2 →
  (i < j)%nat →
  id h1 = id h2 →
  Z.abs (id h2) < 10 ^ 21 →
  Page.habits (Page.step p (Page.ClickCardButton index Page.action_complete iso true ok))
    !! j = Some h2 ∧
  Page.habits (Page.step p (Page.ClickCardButton index Page.action_delete iso true ok))
    !! (j - 1)%nat = Some h2.
Proof.
  intros Hcard Hi Hj Hlt Hid _.
  destruct (find_habit_first (Page.habits p) (id h2) i h1 Hi Hid)
    as (k & hk & Hfind & Hk).
  split.
  - rewrite (click_complete p index h2) by done.
    unfold Script.toggleHabitComplete. rewrite Hfind.
    rewrite list_lookup_insert_ne by lia. done.
  - rewrite (click_delete p index h2) by done.
    unfold Script.deleteHabit. rewrite Hfind. simpl.
    rewrite list_lookup_delete_ge by lia. rewrite <- Hj. f_equal. lia.
Qed.

Lemma page_two_adds_eq :
  Page.habits page_two_adds = habits_two_adds ∧
  Page.habitsContainer page_two_adds = createHabitCard <$> habits_two_adds.
Proof. by vm_compute. Qed.

Lemma page_duplicate_id_shadowed_witness :
  Page.habits (Page.step page_two_adds
                 (Page.ClickCardButton 1 Page.action_complete iso_sample true true))
    !! 1%nat = Some (Habit 7 read_a_book health false iso_sample None 0) ∧
  Page.habits (Page.step page_two_adds
                 (Page.ClickCardButton 1 Page.action_delete iso_sample true true))
    !! (1 - 1)%nat = Some (Habit 7 read_a_book health false iso_sample None 0).
Proof.
  apply (page_duplicate_id_shadowed page_two_adds 1 0 1
           (Habit 7 drink_water health false iso_sample None 0)
           (Habit 7 read_a_book health false iso_sample None 0) iso_sample true).
  - by vm_compute.
  - by vm_compute.
  - by vm_compute.
  - lia.
  - done.
  - by vm_compute.
Defined.

(** ** Streaks *)

Lemma script_toggled_streak_counts iso h :
  streak_counts h → streak_counts (Script.toggled iso h).
Proof.
  unfold streak_counts, Script.toggled. intros [Hge Hcompleted].
  destruct (completed h); simpl; split; (lia || done).
Qed.

Lemma script_step_streak_counts habits a :
  Forall streak_counts habits → Forall streak_counts (Script.step habits a).
Proof.
  intros Hall. destruct a as [value cat now iso|habitId iso|habitId confirmed]; simpl.
  - unfold Script.handleAddHabit. repeat case_match; simpl; try done.
    apply Forall_app; split; [done|]. apply Forall_singleton. by split.
  - unfold Script.toggleHabitComplete.
    destruct (find_habit habitId habits) as [[i h]|] eqn:Hfind; [|done].
    apply find_habit_Some in Hfind as [Hi _].
    apply Forall_insert; [done|]. apply script_toggled_streak_counts.
    by apply (Forall_lookup_1 _ _ _ _ Hall Hi).
  - unfold Script.deleteHabit.
    destruct (find_habit habitId habits) as [[i h]|]; [|done].
    destruct confirmed; simpl; [|done]. by apply Forall_delete.
Qed.

(** [script.js]: every handler keeps the streaks counting, so in every
    collection built by the handlers a completed habit has a streak of at
    least 1: its card never reads "0 days" next to "Completed". *)
Theorem script_completed_has_streak :
  (∀ habits a, Forall streak_counts habits → Forall streak_counts (Script.step habits a)) ∧
  (∀ habits, Script.reachable habits →
     Forall (λ h, 0 ≤ streak h ∧ (completed h = true → 1 ≤ streak h)) habits).
Proof.
  split; [apply script_step_streak_counts|].
  induction 1; [constructor|]. by apply script_step_streak_counts.
Qed.

(** ** The variant [part_000]: what it keeps *)

Lemma part000_step_habit habits a :
  Forall part000_habit habits → Forall part000_habit (Part000.step habits a).
Proof.
  intros Hall. destruct a as [value cat now iso|habitId|habitId confirmed]; simpl.
  - unfold Part000.addHabit.
    destruct (decide (trim value = [])); [done|].
    destruct (Nat.ltb_spec (length (trim value)) 3); [done|]. simpl.
    apply Forall_app; split; [done|]. apply Forall_singleton.
    split_and!; simpl; [done|done| |by split].
    intros c [Hc|Hc]; [by eapply trim_head|].
    unfold trim in Hc. by eapply trimEnd_last.
  - unfold Part000.toggleComplete.
    destruct (find_habit habitId habits) as [[i h]|] eqn:Hfind; [|done].
    apply find_habit_Some in Hfind as [Hi _].
    apply Forall_insert; [done|].
    destruct (Forall_lookup_1 _ _ _ _ Hall Hi) as (Hnone & Hlen & Hedges & Hge & Hcompleted).
    unfold part000_habit, streak_counts, Part000.toggled.
    destruct (completed h); simpl; split_and!; (done || lia).
  - unfold Part000.deleteHabit.
    destruct (find_habit habitId habits) as [[i h]|]; [|done].
    destruct confirmed; simpl; [|done].
    rewrite Forall_forall in Hall. apply Forall_forall.
    intros x [_ Hx]%list_elem_of_filter. by apply Hall.
Qed.

(** [part_000]: every handler keeps, of every habit, [completedAt]
    absent, the name at 3 code units or more with no white space at either
    end, the streak not negative and at least 1 when the habit is
    completed; so these hold of every collection the handlers build. *)
Theorem part000_invariants :
  (∀ habits a, Forall part000_habit habits → Forall part000_habit (Part000.step habits a)) ∧
  (∀ habits, Part000.reachable habits → Forall part000_habit habits).
Proof.
  split; [apply part000_step_habit|].
  induction 1; [constructor|]. by apply part000_step_habit.
Qed.

(** [part_000]: a delete of an id no habit has, or one the user does not
    confirm, changes nothing; a confirmed one removes every habit with the
    id, not only the first as [script.js] does, and keeps all others in
    their order. *)
Theorem part000_delete_removes_all habitId habits :
  (habitId ∉ ids habits → ∀ confirmed, Part000.deleteHabit habitId confirmed habits = habits) ∧
  Part000.deleteHabit habitId false habits = habits ∧
  (habitId ∈ ids habits →
     let habits' := Part000.deleteHabit habitId true habits in
     (habits' = filter (λ h, id h ≠ habitId) habits) ∧
     (habitId ∉ ids habits') ∧
     (length habits' < length habits)%nat ∧
     ∀ h, id h ≠ habitId → h ∈ habits' ↔ h ∈ habits).
Proof.
  unfold Part000.deleteHabit. split_and!.
  - intros Habsent%find_habit_None confirmed. by rewrite Habsent.
  - by destruct (find_habit habitId habits) as [[i h]|].
  - intros Hin. cbv zeta.
    destruct (find_habit habitId habits) as [[i h]|] eqn:Hfind;
      [|by apply find_habit_None in Hfind].
    simpl. split_and!; [done| | |].
    + unfold ids. intros (x & -> & [Hx _]%list_elem_of_filter)%list_elem_of_fmap. done.
    + apply find_habit_Some in Hfind as [Hi Hid].
      apply (length_filter_lt _ _ h); [by eapply list_elem_of_lookup_2|]. by intros ?.
    + intros x Hx. rewrite list_elem_of_filter. tauto.
Qed.

(** ** The page: adding a habit *)

(** [script.js]: a click on the add button either adds (a trimmed name of
    3 to 50 code units): the habit is appended with the selected category,
    the field is emptied, the first category selected again, the error
    hidden and the toast of success shown; or it refuses, and then nothing
    of the page changes but the error message, which is displayed: the
    collection, the store, the cards, the counters, the toast and the text
    typed so far are as before. *)
Theorem page_add_outcome p now iso ok :
  let name := trim (Page.habitNameInput p) in
  let p' := Page.step p (Page.ClickAdd now iso ok) in
  ((3 ≤ length name ≤ 50)%nat →
     Page.habits p'
     = Page.habits p ++ [Habit now name (Page.category_value p) false iso None 0] ∧
     Page.habitNameInput p' = [] ∧
     Page.selectedIndex p' = 0%nat ∧
     Page.errorDisplay p' = Some false ∧
     Page.toastText p' = Some Page.HabitAdded ∧
     Page.toastShow p' = true) ∧
  (¬ (3 ≤ length name ≤ 50)%nat →
     ∃ failure,
       failure ≠ Added ∧
       Script.handleAddHabit (Page.habitNameInput p) (Page.category_value p) now iso
         (Page.habits p) = (Page.habits p, failure) ∧
       p' = Page.showError failure p ∧
       Page.errorDisplay p' = Some true ∧
       Page.errorMessage p' = Some failure).
Proof.
  cbv zeta. simpl. unfold Page.handleAddHabit. split.
  - intros Hlen. rewrite script_handleAddHabit_valid by done. simpl.
    unfold Page.saveHabitsToStorage.
    by destruct (Script.saveHabitsToStorage ok _ _) as [localStorage' []].
  - intros Hlen. unfold Script.handleAddHabit.
    destruct (decide (trim (Page.habitNameInput p) = [])); [by exists EmptyName|].
    destruct (Nat.ltb_spec (length (trim (Page.habitNameInput p))) 3);
      [by exists TooShort|].
    destruct (Nat.ltb_spec 50 (length (trim (Page.habitNameInput p))));
      [by exists TooLong|lia].
Qed.

(** ** The page: [init] on a store that holds no array *)

(** [script.js]: [init] starts the page, with no habit, the empty state
    displayed and all counters at zero, when the store has no item, an empty
    one, or one that is not JSON.  But when the item is JSON and no array
    ([null], a number, a string, an object), [init] throws a [TypeError] in
    [renderHabits] or in [updateStats], before [setupEventListeners]: the
    page then stays without listeners. *)
Theorem init_without_array (input : jsstring) (options : list jsstring) (selected : nat)
    (localStorage : storage) :
  (∀ text v,
     localStorage !! habitflow_habits = Some text →
     JSON_parse text = Normal v →
     (∀ elements, v ≠ JArr elements) →
     Page.init input options selected localStorage = Page.TypeError_thrown) ∧
  (localStorage !! habitflow_habits = None ∨
   localStorage !! habitflow_habits = Some [] ∨
   (∃ text e, localStorage !! habitflow_habits = Some text ∧ JSON_parse text = Throw e) →
   ∃ p, Page.init input options selected localStorage = Page.Started p ∧
        Page.habits p = [] ∧
        Page.habitsContainer p = [] ∧
        Page.emptyState p = Some true ∧
        Page.shownStats p = Some (Stats 0 0 0 (Integral 0))).
Proof.
  unfold Page.init, Script.loadHabitsFromStorage. split.
  - intros text v -> Hparse Harray.
    destruct text as [|c text]; [by vm_compute in Hparse|].
    rewrite Hparse. simpl.
    destruct v as [| | | |elements|]; try done; try (by rewrite andb_false_r).
    by destruct (Harray elements).
  - intros [->|[->|(text & e & -> & Hparse)]].
    + eexists. by split_and!.
    + eexists. by split_and!.
    + destruct text as [|c text]; [eexists; by split_and!|].
      rewrite Hparse. simpl. eexists. by split_and!.
Qed.

(** ** The page of [part_000]: a save that throws ends the handler *)

Lemma part000_rendered_in_sync p :
  part000_in_sync (Part000Page.updateStats (Part000Page.renderHabits p)).
Proof.
  unfold part000_in_sync, Part000Page.updateStats, Part000Page.renderHabits. simpl.
  destruct (getFilteredHabits (Part000Page.currentFilter p) (Part000Page.habits p));
    by split_and!.
Qed.

Lemma part000_in_sync_frame p q :
  Part000Page.habits q = Part000Page.habits p →
  Part000Page.currentFilter q = Part000Page.currentFilter p →
  Part000Page.habitsContainer q = Part000Page.habitsContainer p →
  Part000Page.emptyState q = Part000Page.emptyState p →
  Part000Page.shownStats q = Part000Page.shownStats p →
  part000_in_sync p → part000_in_sync q.
Proof. unfold part000_in_sync. by intros -> -> -> -> ->. Qed.

Lemma part000_save_then_in_sync rest p :
  (∀ q, Part000Page.habits (rest q) = Part000Page.habits q ∧
        Part000Page.currentFilter (rest q) = Part000Page.currentFilter q ∧
        part000_in_sync (rest q)) →
  part000_in_sync (Part000Page.save_then true rest p).1 ∧
  (Part000Page.save_then true rest p).2 = None.
Proof. intros Hrest. unfold Part000Page.save_then. simpl. split; [apply Hrest|done]. Qed.

Lemma part000_step_in_sync p e :
  Part000Page.saves e = true →
  part000_in_sync p →
  part000_in_sync (Part000Page.step p e).1 ∧ (Part000Page.step p e).2 = None.
Proof.
  intros Hok Hp.
  assert (∀ category now iso,
            part000_in_sync (Part000Page.addHabit category now iso true p).1 ∧
            (Part000Page.addHabit category now iso true p).2 = None) as Hadd.
  { intros category now iso. unfold Part000Page.addHabit.
    destruct (Part000.addHabit _ _ _ _ _) as [habits' []];
      try (split; [by apply (part000_in_sync_frame p)|done]).
    apply part000_save_then_in_sync. intros q. split_and!; [done..|].
    eapply part000_in_sync_frame; [..|apply (part000_rendered_in_sync q)]; done. }
  destruct e as [category now iso ok|key category now iso ok|value|index ok
                |index confirmed ok|filter|]; simpl in *; subst.
  - apply Hadd.
  - case_decide; [apply Hadd|done].
  - split; [by apply (part000_in_sync_frame p)|done].
  - destruct (Part000Page.habitsContainer p !! index) as [c|]; [|done].
    unfold Part000Page.toggleComplete.
    destruct (find_habit _ _) as [[i h]|]; [|done].
    apply part000_save_then_in_sync. intros q. split_and!; [done..|].
    eapply part000_in_sync_frame; [..|apply (part000_rendered_in_sync q)]; done.
  - destruct (Part000Page.habitsContainer p !! index) as [c|]; [|done].
    unfold Part000Page.deleteHabit.
    destruct (find_habit _ _) as [[i h]|]; [|done].
    destruct confirmed; [|done].
    apply part000_save_then_in_sync. intros q. split_and!; [done..|].
    eapply part000_in_sync_frame; [..|apply (part000_rendered_in_sync q)]; done.
  - split; [|done]. unfold Part000Page.setFilter, part000_in_sync. simpl.
    destruct Hp as (_ & _ & Hstats).
    destruct (getFilteredHabits filter (Part000Page.habits p)); by split_and!.
  - split; [|done]. unfold Part000Page.timeout.
    destruct (Part000Page.toastTimers p); [done|].
    by apply (part000_in_sync_frame p).
Qed.

Lemma part000_step_unsaved p e :
  Part000Page.saves e = false →
  let p' := (Part000Page.step p e).1 in
  let thrown := (Part000Page.step p e).2 in
  Part000Page.localStorage p' = Part000Page.localStorage p ∧
  Part000Page.habitsContainer p' = Part000Page.habitsContainer p ∧
  Part000Page.emptyState p' = Part000Page.emptyState p ∧
  Part000Page.shownStats p' = Part000Page.shownStats p ∧
  Part000Page.toastText p' = Part000Page.toastText p ∧
  Part000Page.toastShow p' = Part000Page.toastShow p ∧
  Part000Page.habitNameInput p' = Part000Page.habitNameInput p ∧
  (thrown = None ∧ Part000Page.habits p' = Part000Page.habits p ∨
   thrown = Some QuotaExceededError).
Proof.
  intros Hok. cbv zeta.
  assert (∀ rest q, Part000Page.save_then false rest q = (q, Some QuotaExceededError))
    as Hsave by done.
  destruct e as [category now iso ok|key category now iso ok|value|index ok
                |index confirmed ok|filter|]; simpl in *; subst; try discriminate.
  - unfold Part000Page.addHabit.
    destruct (Part000.addHabit _ _ _ _ _) as [habits' []] eqn:Hadd;
      rewrite ?Hsave; simpl; split_and!; auto.
  - case_decide; [|simpl; split_and!; auto].
    unfold Part000Page.addHabit.
    destruct (Part000.addHabit _ _ _ _ _) as [habits' []] eqn:Hadd;
      rewrite ?Hsave; simpl; split_and!; auto.
  - destruct (Part000Page.habitsContainer p !! index) as [c|]; [|simpl; split_and!; auto].
    unfold Part000Page.toggleComplete.
    destruct (find_habit _ _) as [[i h]|]; rewrite ?Hsave; simpl; split_and!; auto.
  - destruct (Part000Page.habitsContainer p !! index) as [c|]; [|simpl; split_and!; auto].
    unfold Part000Page.deleteHabit.
    destruct (find_habit _ _) as [[i h]|]; [|simpl; split_and!; auto].
    destruct confirmed; rewrite ?Hsave; simpl; split_and!; auto.
Qed.

Lemma part000_run_in_sync events p :
  Forall (λ e, Part000Page.saves e = true) events →
  part000_in_sync p → part000_in_sync (Part000Page.run p events).
Proof.
  unfold Part000Page.run. revert p.
  induction events as [|e events IH]; intros p Hall Hp; [done|].
  apply Forall_cons in Hall as [He Hall]. simpl. apply IH; [done|].
  by apply part000_step_in_sync.
Qed.

(** [part_000]: as long as every [setItem] succeeds, no handler throws and
    the cards, the empty state and the counters follow the collection, from
    the start of the page on. *)
Theorem part000_view_in_sync :
  (∀ p e, Part000Page.saves e = true → part000_in_sync p →
          part000_in_sync (Part000Page.step p e).1 ∧ (Part000Page.step p e).2 = None) ∧
  (∀ input localStorage p events,
     Part000Page.init input localStorage = Some p →
     Forall (λ e, Part000Page.saves e = true) events →
     part000_in_sync (Part000Page.run p events)) ∧
  (∀ input, ∃ p, Part000Page.init input ∅ = Some p).
Proof.
  split_and!; [apply part000_step_in_sync| |by eexists].
  intros input localStorage p events Hinit Hall.
  apply part000_run_in_sync; [done|]. unfold Part000Page.init in Hinit.
  destruct (Part000.init localStorage) as [[| | | |elements|]|]; try done.
  destruct (mapM Part000Page.habit_of_saved elements); simplify_eq.
  apply part000_rendered_in_sync.
Qed.

(** [part_000]: a [setItem] that throws is not caught.  The handler ends
    at the save: the store, the cards, the empty state, the counters, the
    toast and the text of the input are as before the event, and either the
    collection is unchanged too or the handler has ended with the exception.
    An add of a valid name does change the collection, so on a page that
    showed all its habits the cards are then one short of the collection,
    where [script.js] catches the exception and renders. *)
Theorem part000_failed_save_stale :
  (∀ p e, Part000Page.saves e = false →
     let p' := (Part000Page.step p e).1 in
     let thrown := (Part000Page.step p e).2 in
     Part000Page.localStorage p' = Part000Page.localStorage p ∧
     Part000Page.habitsContainer p' = Part000Page.habitsContainer p ∧
     Part000Page.emptyState p' = Part000Page.emptyState p ∧
     Part000Page.shownStats p' = Part000Page.shownStats p ∧
     Part000Page.toastText p' = Part000Page.toastText p ∧
     Part000Page.toastShow p' = Part000Page.toastShow p ∧
     Part000Page.habitNameInput p' = Part000Page.habitNameInput p ∧
     (thrown = None ∧ Part000Page.habits p' = Part000Page.habits p ∨
      thrown = Some QuotaExceededError)) ∧
  (∀ p category now iso,
     (3 ≤ length (trim (Part000Page.habitNameInput p)))%nat →
     Part000Page.step p (Part000Page.ClickAdd category now iso false)
     = (Part000Page.set_habits
          (Part000Page.habits p
           ++ [Habit now (trim (Part000Page.habitNameInput p)) category false iso None 0]) p,
        Some QuotaExceededError)) ∧
  (∀ p category now iso,
     (3 ≤ length (trim (Part000Page.habitNameInput p)))%nat →
     part000_in_sync p →
     Part000Page.currentFilter p = Page.filter_all →
     let p' := (Part000Page.step p (Part000Page.ClickAdd category now iso false)).1 in
     S (length (Part000Page.habitsContainer p')) = length (Part000Page.habits p') ∧
     ¬ part000_in_sync p').
Proof.
  assert (∀ p category now iso,
     (3 ≤ length (trim (Part000Page.habitNameInput p)))%nat →
     Part000Page.step p (Part000Page.ClickAdd category now iso false)
     = (Part000Page.set_habits
          (Part000Page.habits p
           ++ [Habit now (trim (Part000Page.habitNameInput p)) category false iso None 0]) p,
        Some QuotaExceededError)) as Hadd.
  { intros p category now iso Hlen. simpl. unfold Part000Page.addHabit.
    by rewrite part000_addHabit_valid by done. }
  split_and!; [apply part000_step_unsaved|done|].
  intros p category now iso Hlen (Hcards & _ & _) Hall. cbv zeta.
  rewrite Hadd by done. simpl.
  assert (∀ habits, getFilteredHabits Page.filter_all habits = habits) as Hfilter.
  { intros habits. unfold getFilteredHabits. by rewrite !decide_False by done. }
  rewrite Hall, Hfilter in Hcards.
  assert (S (length (Part000Page.habitsContainer p))
          = length (Part000Page.habits p
                    ++ [Habit now (trim (Part000Page.habitNameInput p)) category
                              false iso None 0])) as Hshort.
  { rewrite Hcards, length_fmap, length_app. simpl. lia. }
  split; [done|].
  intros (Hcards' & _ & _). simpl in Hcards'. rewrite Hall, Hfilter in Hcards'.
  rewrite Hcards', length_fmap in Hshort. lia.
Qed.

(** ** The page of [part_000]: what is stored follows the collection *)

Section ObjectArrays.

Context {A : Type} (value_of : A → json).

Hypothesis value_of_parse : ∀ f a rest,
  parse_value (9 + f) (JSON_stringify (value_of a) ++ rest) = Some (value_of a, rest).

Hypothesis value_of_head : ∀ a,
  ∃ text, JSON_stringify (value_of a) = 123%N :: text ∧ (9 ≤ length text)%nat.

Lemma join_comma_objects a b l :
  join_comma (JSON_stringify <$> (value_of <$> a :: b :: l))
  = JSON_stringify (value_of a) ++
    44%N :: join_comma (JSON_stringify <$> (value_of <$> b :: l)).
Proof. done. Qed.

Lemma parse_elements_objects l f rest :
  l ≠ [] →
  parse_elements (length l + 9 + f)
    (join_comma (JSON_stringify <$> (value_of <$> l)) ++ 93%N :: rest)
  = Some (value_of <$> l, rest).
Proof.
  induction l as [|a l IH]; [done|]. intros _.
  destruct l as [|b l].
  - cbn [fmap list_fmap join_comma length Nat.add].
    apply parse_elements_last. apply value_of_parse.
  - specialize (IH ltac:(done)).
    rewrite join_comma_objects, <- app_assoc, <- app_comm_cons.
    replace (length (a :: b :: l) + 9 + f)%nat
      with (S (9 + (length (b :: l) + f)))%nat by (simpl; lia).
    rewrite (parse_elements_cons _ _ (value_of a)) by apply value_of_parse.
    replace (9 + (length (b :: l) + f))%nat
      with (length (b :: l) + 9 + f)%nat by lia.
    rewrite IH. done.
Qed.

Lemma length_join_objects l :
  (10 * length l ≤ length (join_comma (JSON_stringify <$> (value_of <$> l))))%nat.
Proof.
  induction l as [|a l IH]; [done|].
  destruct (value_of_head a) as (text & Heq & Hlen).
  destruct l as [|b l].
  - cbn [fmap list_fmap join_comma]. rewrite Heq. simpl. lia.
  - rewrite join_comma_objects.
    rewrite length_app, length_cons, Heq, !length_cons in *. lia.
Qed.

Lemma JSON_parse_stringify_objects l :
  JSON_parse (JSON_stringify (JArr (value_of <$> l))) = Normal (JArr (value_of <$> l)).
Proof.
  destruct l as [|a l]; [done|].
  unfold JSON_parse. cbn [JSON_stringify].
  remember (join_comma (JSON_stringify <$> (value_of <$> a :: l))) as body eqn:Hdef.
  assert (∃ more, body = 123%N :: more ∧ (8 ≤ length more)%nat) as (more & Hbody & Hmore).
  { destruct (value_of_head a) as (text & Heq & Hlen). subst body.
    destruct l as [|b l].
    - cbn [fmap list_fmap join_comma]. rewrite Heq. eexists. split; [done|lia].
    - rewrite join_comma_objects, Heq. eexists. split; [done|]. rewrite length_app. lia. }
  pose proof (length_join_objects (a :: l)) as Hlen. rewrite <- Hdef in Hlen.
  assert (parse_value (S (length (91%N :: body ++ [93%N]))) (91%N :: body ++ [93%N])
          = match parse_elements (length (91%N :: body ++ [93%N])) (body ++ [93%N]) with
            | Some (vs, rest) => Some (JArr vs, rest)
            | None => None
            end) as ->.
  { rewrite Hbody. done. }
  assert (∃ f, length (91%N :: body ++ [93%N]) = (length (a :: l) + 9 + f)%nat)
    as [f ->].
  { exists (length (91%N :: body ++ [93%N]) - (length (a :: l) + 9))%nat.
    rewrite length_cons, length_app. rewrite Hbody in Hlen |- *.
    rewrite !length_cons in *. simpl. lia. }
  subst body. rewrite parse_elements_objects by done. done.
Qed.

End ObjectArrays.

Lemma part000_stringify_habit_app h rest :
  JSON_stringify (Part000Page.value_of_habit h) ++ rest
  = 123%N :: QuoteJSONString key_id ++ 58%N :: stringify_integer (id h) ++
    44%N :: QuoteJSONString key_name ++ 58%N :: QuoteJSONString (name h) ++
    44%N :: QuoteJSONString key_category ++ 58%N :: QuoteJSONString (category h) ++
    44%N :: QuoteJSONString key_completed ++ 58%N ::
            (if completed h then units_true else units_false) ++
    44%N :: QuoteJSONString key_createdAt ++ 58%N :: QuoteJSONString (createdAt h) ++
    44%N :: QuoteJSONString key_streak ++ 58%N :: stringify_integer (streak h) ++
    125%N :: rest.
Proof.
  unfold Part000Page.value_of_habit.
  cbn [JSON_stringify fmap list_fmap join_comma stringify_number N.eqb].
  rewrite <- !app_comm_cons. f_equal.
  repeat first [rewrite <- app_assoc | rewrite <- app_comm_cons | rewrite app_nil_l].
  reflexivity.
Qed.

Lemma part000_parse_value_habit f h rest :
  parse_value (9 + f) (JSON_stringify (Part000Page.value_of_habit h) ++ rest)
  = Some (Part000Page.value_of_habit h, rest).
Proof.
  rewrite part000_stringify_habit_app. cbn [Nat.add].
  rewrite parse_value_object.
  rewrite (parse_members_cons _ _ _ (JNum (id h) 0))
    by (apply parse_value_integer; simpl; auto).
  rewrite (parse_members_cons _ _ _ (JStr (name h))) by apply parse_value_string.
  rewrite (parse_members_cons _ _ _ (JStr (category h))) by apply parse_value_string.
  rewrite (parse_members_cons _ _ _ (JBool (completed h))) by apply parse_value_bool.
  rewrite (parse_members_cons _ _ _ (JStr (createdAt h))) by apply parse_value_string.
  rewrite (parse_members_last _ _ _ (JNum (streak h) 0))
    by (apply parse_value_integer; simpl; auto).
  reflexivity.
Qed.

Lemma part000_stringify_habit_head h :
  ∃ text, JSON_stringify (Part000Page.value_of_habit h) = 123%N :: text ∧
          (9 ≤ length text)%nat.
Proof.
  pose proof (part000_stringify_habit_app h []) as Heq. rewrite app_nil_r in Heq.
  eexists. split; [exact Heq|].
  rewrite !length_app, !length_cons. unfold QuoteJSONString.
  rewrite !length_cons, !length_app. simpl. lia.
Qed.

Lemma part000_habit_of_saved_value h :
  completedAt h = None →
  Part000Page.habit_of_saved (Part000Page.value_of_habit h) = Some h.
Proof. destruct h as [i n c b t ca s]. simpl. by intros ->. Qed.

Lemma part000_habits_of_saved_values habits :
  Forall (λ h, completedAt h = None) habits →
  mapM Part000Page.habit_of_saved (Part000Page.value_of_habit <$> habits) = Some habits.
Proof.
  induction 1 as [|h habits Hh _ IH]; [done|].
  rewrite fmap_cons. cbn [mapM]. by rewrite part000_habit_of_saved_value, IH.
Qed.

Lemma part000_habit_of_saved_None v h :
  Part000Page.habit_of_saved v = Some h → completedAt h = None.
Proof.
  unfold Part000Page.habit_of_saved. intros Hv.
  repeat (case_match; try done). by simplify_eq.
Qed.

Lemma part000_habits_of_saved_None elements habits :
  mapM Part000Page.habit_of_saved elements = Some habits →
  Forall (λ h, completedAt h = None) habits.
Proof.
  revert habits. induction elements as [|v elements IH]; intros habits Hsaved.
  - injection Hsaved as <-. constructor.
  - cbn [mapM] in Hsaved.
    destruct (Part000Page.habit_of_saved v) as [h|] eqn:Hv; [|done].
    destruct (mapM Part000Page.habit_of_saved elements) as [habits'|]; [|done].
    injection Hsaved as <-. constructor; [by eapply part000_habit_of_saved_None|].
    by apply IH.
Qed.

Lemma part000_loadFromStorage_saved (habits : list habit) (localStorage : storage)
    (previous : json) :
  Part000.loadFromStorage
    (<[habitflow_habits := JSON_stringify (JArr (Part000Page.value_of_habit <$> habits))]>
       localStorage) previous
  = Normal (JArr (Part000Page.value_of_habit <$> habits)).
Proof.
  unfold Part000.loadFromStorage. rewrite lookup_insert_eq.
  pose proof (JSON_parse_stringify_objects Part000Page.value_of_habit
                part000_parse_value_habit part000_stringify_habit_head habits) as Hparse.
  destruct (JSON_stringify (JArr (Part000Page.value_of_habit <$> habits)))
    as [|c text] eqn:Htext.
  - by destruct habits.
  - by rewrite Hparse.
Qed.

Lemma part000_persisted_iff p :
  part000_persisted p ↔
  ∃ elements,
    Part000.init (Part000Page.localStorage p) = Normal (JArr elements) ∧
    mapM Part000Page.habit_of_saved elements = Some (Part000Page.habits p).
Proof.
  unfold part000_persisted, Part000Page.init. split.
  - intros (p' & Hinit & Heq).
    destruct (Part000.init _) as [[| | | |elements|]|]; try done.
    destruct (mapM Part000Page.habit_of_saved elements) as [habits'|] eqn:Hsaved;
      [|done].
    exists elements. simplify_eq. simpl in *. by subst.
  - intros (elements & -> & ->). eexists. by split.
Qed.

Lemma part000_toggled_None h : completedAt h = None → completedAt (Part000.toggled h) = None.
Proof. unfold Part000.toggled. by destruct (completed h). Qed.

Lemma part000_step_None habits a :
  Forall (λ h, completedAt h = None) habits →
  Forall (λ h, completedAt h = None) (Part000.step habits a).
Proof.
  intros Hall. destruct a as [value cat now iso|habitId|habitId confirmed]; simpl.
  - unfold Part000.addHabit. repeat case_match; simpl; try done.
    apply Forall_app; split; [done|]. by apply Forall_singleton.
  - unfold Part000.toggleComplete.
    destruct (find_habit habitId habits) as [[i h]|] eqn:Hfind; [|done].
    apply find_habit_Some in Hfind as [Hi _].
    apply Forall_insert; [done|]. apply part000_toggled_None.
    by apply (Forall_lookup_1 _ _ _ _ Hall Hi).
  - unfold Part000.deleteHabit.
    destruct (find_habit habitId habits) as [[i h]|]; [|done].
    destruct confirmed; simpl; [|done].
    rewrite Forall_forall in Hall. apply Forall_forall.
    intros x [_ Hx]%list_elem_of_filter. by apply Hall.
Qed.

Lemma part000_persisted_frame p q :
  Part000Page.habits q = Part000Page.habits p →
  Part000Page.localStorage q = Part000Page.localStorage p →
  part000_persisted p → part000_persisted q.
Proof. rewrite !part000_persisted_iff. by intros -> ->. Qed.

Lemma part000_save_then_persisted rest p :
  (∀ q, Part000Page.habits (rest q) = Part000Page.habits q ∧
        Part000Page.localStorage (rest q) = Part000Page.localStorage q) →
  Forall (λ h, completedAt h = None) (Part000Page.habits p) →
  part000_persisted (Part000Page.save_then true rest p).1.
Proof.
  intros Hrest Hnone. apply part000_persisted_iff.
  exists (Part000Page.value_of_habit <$> Part000Page.habits p).
  unfold Part000Page.save_then, Part000.saveToStorage, setItem. cbn [fst].
  match goal with |- context [rest ?q] => destruct (Hrest q) as [-> ->] end.
  split.
  - apply part000_loadFromStorage_saved.
  - by apply part000_habits_of_saved_values.
Qed.

Lemma part000_step_persisted p e :
  Part000Page.saves e = true →
  part000_persisted p → part000_persisted (Part000Page.step p e).1.
Proof.
  intros Hok Hp.
  assert (Forall (λ h, completedAt h = None) (Part000Page.habits p)) as Hnone.
  { apply part000_persisted_iff in Hp as (elements & _ & Hsaved).
    by eapply part000_habits_of_saved_None. }
  assert (∀ category now iso,
            part000_persisted (Part000Page.addHabit category now iso true p).1) as Hadd.
  { intros category now iso. unfold Part000Page.addHabit.
    pose proof (part000_step_None (Part000Page.habits p)
                  (Part000.Add (Part000Page.habitNameInput p) category now iso) Hnone)
      as Hstep. simpl in Hstep.
    destruct (Part000.addHabit _ _ _ _ _) as [habits' []];
      try (by apply (part000_persisted_frame p)).
    by apply part000_save_then_persisted. }
  destruct e as [category now iso ok|key category now iso ok|value|index ok
                |index confirmed ok|filter|]; simpl in *; subst.
  - apply Hadd.
  - case_decide; [apply Hadd|done].
  - by apply (part000_persisted_frame p).
  - destruct (Part000Page.habitsContainer p !! index) as [c|]; [|done].
    unfold Part000Page.toggleComplete.
    destruct (find_habit _ _) as [[i h]|]; [|done].
    apply part000_save_then_persisted; [done|].
    apply (part000_step_None _ (Part000.Toggle (Part000Page.onclick_id c)) Hnone).
  - destruct (Part000Page.habitsContainer p !! index) as [c|]; [|done].
    unfold Part000Page.deleteHabit.
    destruct (find_habit _ _) as [[i h]|]; [|done].
    destruct confirmed; [|done].
    apply part000_save_then_persisted; [done|].
    apply (part000_step_None _ (Part000.Delete (Part000Page.onclick_id c) true) Hnone).
  - by apply (part000_persisted_frame p).
  - unfold Part000Page.timeout. destruct (Part000Page.toastTimers p); [done|].
    by apply (part000_persisted_frame p).
Qed.

Lemma part000_toggled_safe n h :
  safe_habit_for (S n) h → safe_habit_for n (Part000.toggled h).
Proof.
  unfold safe_habit_for, Part000.toggled. intros [Hid Hstreak].
  destruct (completed h); simpl; split; (done || lia).
Qed.

Lemma part000_step_safe n habits a :
  part000_safe_action a →
  Z.of_nat n < 2 ^ 53 →
  Forall (safe_habit_for (S n)) habits →
  Forall (safe_habit_for n) (Part000.step habits a).
Proof.
  intros Ha Hn Hall.
  assert (Forall (safe_habit_for n) habits) as Hall'.
  { eapply Forall_impl; [done|]. intros h. apply safe_habit_for_mono. lia. }
  destruct a as [value cat now iso|habitId|habitId confirmed]; simpl in *.
  - unfold Part000.addHabit. repeat case_match; simpl; try done.
    apply Forall_app; split; [done|]. apply Forall_singleton.
    split; [done|]. simpl. lia.
  - unfold Part000.toggleComplete.
    destruct (find_habit habitId habits) as [[i h]|] eqn:Hfind; [|done].
    apply find_habit_Some in Hfind as [Hi _].
    apply Forall_insert; [done|]. apply part000_toggled_safe.
    by apply (Forall_lookup_1 _ _ _ _ Hall Hi).
  - unfold Part000.deleteHabit.
    destruct (find_habit habitId habits) as [[i h]|]; [|done].
    destruct confirmed; simpl; [|done].
    rewrite Forall_forall in Hall'. apply Forall_forall.
    intros x [_ Hx]%list_elem_of_filter. by apply Hall'.
Qed.

Lemma part000_step_habits_safe p e :
  part000_safe_event e →
  Part000Page.habits (Part000Page.step p e).1 = Part000Page.habits p ∨
  ∃ a, part000_safe_action a ∧
       Part000Page.habits (Part000Page.step p e).1 = Part000.step (Part000Page.habits p) a.
Proof.
  intros He.
  assert (∀ ok rest q,
            (∀ q', Part000Page.habits (rest q') = Part000Page.habits q') →
            Part000Page.habits (Part000Page.save_then ok rest q).1 = Part000Page.habits q)
    as Hsave.
  { intros ok rest q Hrest. unfold Part000Page.save_then, Part000.saveToStorage, setItem.
    destruct ok; simpl; [|done]. by rewrite Hrest. }
  assert (∀ category now iso ok,
            safe_integer now →
            ∃ a, part000_safe_action a ∧
                 Part000Page.habits (Part000Page.addHabit category now iso ok p).1
                 = Part000.step (Part000Page.habits p) a) as Hadd.
  { intros category now iso ok Hnow.
    exists (Part000.Add (Part000Page.habitNameInput p) category now iso).
    split; [done|]. unfold Part000Page.addHabit. simpl.
    assert ((Part000.addHabit (Part000Page.habitNameInput p) category
               now iso (Part000Page.habits p)).2 ≠ Added →
            (Part000.addHabit (Part000Page.habitNameInput p) category
               now iso (Part000Page.habits p)).1 = Part000Page.habits p) as Hfail.
    { unfold Part000.addHabit. by repeat case_match. }
    destruct (Part000.addHabit _ _ _ _ _) as [habits' []]; simpl in *;
      try (symmetry; by apply Hfail).
    by rewrite Hsave. }
  destruct e as [category now iso ok|key category now iso ok|value|index ok
                |index confirmed ok|filter|]; simpl in *.
  - right. by apply Hadd.
  - case_decide; [right; by apply Hadd|by left].
  - by left.
  - destruct (Part000Page.habitsContainer p !! index) as [c|]; [|by left].
    unfold Part000Page.toggleComplete.
    destruct (find_habit _ _) as [[i h]|]; [|by left].
    right. exists (Part000.Toggle (Part000Page.onclick_id c)). split; [done|].
    by rewrite Hsave.
  - destruct (Part000Page.habitsContainer p !! index) as [c|]; [|by left].
    unfold Part000Page.deleteHabit.
    destruct (find_habit _ _) as [[i h]|] eqn:Hfind; [|by left].
    destruct confirmed; [|by left].
    right. exists (Part000.Delete (Part000Page.onclick_id c) true). split; [done|].
    cbn [negb]. by rewrite Hsave.
  - by left.
  - left. unfold Part000Page.timeout. by destruct (Part000Page.toastTimers p).
Qed.

Lemma part000_page_step_safe n p e :
  part000_safe_event e →
  Z.of_nat n < 2 ^ 53 →
  Forall (safe_habit_for (S n)) (Part000Page.habits p) →
  Forall (safe_habit_for n) (Part000Page.habits (Part000Page.step p e).1).
Proof.
  intros He Hn Hall. destruct (part000_step_habits_safe p e He) as [->|(a & Ha & ->)].
  - eapply Forall_impl; [done|]. intros h. apply safe_habit_for_mono. lia.
  - by apply part000_step_safe.
Qed.

Lemma part000_page_run_safe events p :
  Z.of_nat (length events) < 2 ^ 53 →
  Forall (safe_habit_for (length events)) (Part000Page.habits p) →
  Forall (λ e, Part000Page.saves e = true ∧ part000_safe_event e) events →
  part000_persisted p →
  part000_persisted (Part000Page.run p events) ∧
  Forall safe_habit (Part000Page.habits (Part000Page.run p events)).
Proof.
  unfold Part000Page.run. revert p.
  induction events as [|e events IH]; intros p Hlen Hsafe Hall Hp; [done|].
  apply Forall_cons in Hall as [[Hok He] Hall]. simpl in *.
  apply IH; [lia| |done|by apply part000_step_persisted].
  apply part000_page_step_safe; [done|lia|done].
Qed.

(** [part_000]: as long as every [setItem] succeeds and the numbers are
    safe integers (the ids and the streaks the page holds, with room for one
    increment per event, and the clock readings), the store follows the
    collection: after the initialisation and after every event since, a
    reload of the page starts with exactly the habits the page has now, and
    the numbers are safe integers still.  A page started on a store without
    the item holds no habit, so it qualifies. *)
Theorem part000_store_in_sync :
  (∀ p e, Part000Page.saves e = true → part000_safe_event e →
          Forall safe_habit (Part000Page.habits p) →
          part000_persisted p →
          part000_persisted (Part000Page.step p e).1) ∧
  (∀ input localStorage p events,
     Part000Page.init input localStorage = Some p →
     Z.of_nat (length events) < 2 ^ 53 →
     Forall (safe_habit_for (length events)) (Part000Page.habits p) →
     Forall (λ e, Part000Page.saves e = true ∧ part000_safe_event e) events →
     part000_persisted (Part000Page.run p events) ∧
     Forall safe_habit (Part000Page.habits (Part000Page.run p events))) ∧
  (∀ (input : jsstring) (localStorage : storage),
     localStorage !! habitflow_habits = None →
     ∃ p, Part000Page.init input localStorage = Some p ∧ Part000Page.habits p = []).
Proof.
  split_and!.
  - intros p e Hok _ _. by apply part000_step_persisted.
  - intros input localStorage p events Hinit Hlen Hsafe Hall.
    apply part000_page_run_safe; [done..|].
    apply part000_persisted_iff. unfold Part000Page.init in Hinit.
    destruct (Part000.init localStorage) as [[| | | |elements|]|] eqn:Hload; try done.
    destruct (mapM Part000Page.habit_of_saved elements) as [habits'|] eqn:Hsaved;
      simplify_eq.
    exists elements. by split.
  - intros input localStorage Hnone. unfold Part000Page.init, Part000.init,
      Part000.loadFromStorage. rewrite Hnone. by eexists.
Qed.

(** ** The counter animation of [part_001] *)

Lemma Number_sub_diag x :
  Part001.Number_sub x x = S754_nan ∨ ∃ s, Part001.Number_sub x x = S754_zero s.
Proof.
  destruct x as [s|s| |s m e]; simpl.
  - right. destruct s; by eexists.
  - left. by destruct s.
  - by left.
  - right. exists false. unfold Part001.Number_sub, SFsub.
    rewrite Z.sub_diag. reflexivity.
Qed.

Lemma increment_diag x duration :
  Part001.increment x x duration = S754_nan ∨
  ∃ s, Part001.increment x x duration = S754_zero s.
Proof.
  unfold Part001.increment.
  destruct (Number_sub_diag x) as [->|[s ->]]; [by left|].
  destruct (Number_div duration (Number_of_Z 16)) as [s'|s'| |s' m e]; simpl; eauto.
Qed.

Lemma tick_still increment end_ a :
  (increment = S754_nan ∨ ∃ s, increment = S754_zero s) →
  Part001.timer_set a = true →
  Part001.timer_set (Part001.tick increment end_ a) = true.
Proof.
  intros Hinc Hset. unfold Part001.tick. rewrite Hset.
  assert (Part001.Number_gt increment (Number_of_Z 0) = false ∧
          Part001.Number_lt increment (Number_of_Z 0) = false) as [-> ->].
  { destruct Hinc as [->|[s ->]]; [done|]. by destruct s. }
  done.
Qed.

(** [part_001]: [animateValue] never clears its interval when [start]
    equals [end], whatever the duration: the increment is then 0 (or NaN),
    neither test of the callback holds, and after any number of runs the
    timer is still set.  [updateStats] calls it so for every counter that
    has not changed.  And whenever a run of the callback does clear the
    interval, the element shows [Math.round(end)]. *)
Theorem animateValue_never_stops :
  (∀ x duration text n, Part001.timer_set (Part001.after n x x duration text) = true) ∧
  (∀ increment end_ a,
     Part001.timer_set a = true →
     Part001.timer_set (Part001.tick increment end_ a) = false →
     Part001.textContent (Part001.tick increment end_ a) = Some (Math_round end_) ∧
     Part001.current (Part001.tick increment end_ a) = end_) ∧
  Part001.timer_set
    (Part001.after 32 (Number_of_Z 0) (Number_of_Z 3) (Number_of_Z 500) None) = false.
Proof.
  split_and!.
  - intros x duration text n. unfold Part001.after.
    induction n as [|n IH]; [done|]. simpl.
    apply tick_still; [apply increment_diag|done].
  - intros increment end_ a Hset. unfold Part001.tick. rewrite Hset.
    by destruct (_ || _).
  - by vm_compute.
Qed.
